(* ===== verification/_CoqProject ===== *)
-Q . S2P
Prelude.v
Sync.v
Interval.v
Json.v
Utf8.v
JsonPrint.v
Console.v
Sound.v
Check.v
PollLoop.v
PollSpec.v
Fmt.v
Watcher.v
Main.v
Shutdown.v
