(* ===== verification/Prelude.v ===== *)
(** * A verification development for brandonforster/heb (src/cmd/main.go)

    The program is a single Go file, [src/cmd/main.go], that polls the H-E-B
    timeslot endpoint and plays a sound when the [items] array of the JSON
    answer is non-empty.  It has four parts, all inside one process:

    - the signal watcher [translateInterruptToCancel] (lines 33-52), a
      goroutine that registers for SIGINT/SIGTERM on an unbuffered channel,
      waits in a [select] for a signal or for the context to be done, calls
      [cancel] on a signal, and on every exit runs its deferred
      [signal.Stop]/[close] and then [wg.Done];
    - the notification trigger [playSound] (lines 54-66), best effort;
    - the poll loop, the anonymous goroutine of [main] (lines 73-134): a
      [for] loop that first waits [timeout] one-second steps, checking
      [ctx.Done()] before each, then draws the next [timeout = 25 +
      rand.Intn(10)], does one [http.Get], reads, decodes and inspects the
      body, and continues;
    - the coordinator [main] (lines 68-71 and 136), which creates the
      context, starts both goroutines with [wg.Add(1)] each and blocks in
      [wg.Wait()].

    The goroutines share three things: the cancellation token of
    [context.WithCancel], the [sync.WaitGroup] counter, and the process
    signal disposition (registered by [signal.Notify], released by
    [signal.Stop]).

    ** Files, in dependency order

    - [Prelude] (this file): the [heb] hint and rewrite databases, the
      tactics of the development, and generic lemmas on the
      reflexive-transitive closure [star] of a step relation (with its
      notation in [heb_scope]) and on traces ([count_ev], [after]).
    - [Sync]: the Go runtime objects the code calls: module [Ctx], the
      context of [context.WithCancel] (a one-way [active -> cancelled]
      flag, ordered by [ctx_le]), and module [WaitGroup], the
      [sync.WaitGroup] counter with its panic on a negative count.
    - [Interval]: [rand.Intn] behind the classes [IntnSource] and
      [IntnLaws] (its contract [0 <= Intn(n) < n]), [next_timeout] of
      line 87, and [tape], a replayable source for the concrete runs.
    - [Json]: the dynamic values [encoding/json] produces for
      [interface{}], the decoder interface [JsonDecoder], an executable
      parser of JSON text [go_json] standing for the library, and
      [unmarshal_map], [json.Unmarshal] into a [map[string]interface{}]
      (last duplicate key wins, [null] gives a nil map, other shapes are
      an [UnmarshalTypeError]); inside strings, bytes that are not
      well-formed UTF-8 become U+FFFD, by the rules of
      [utf8.DecodeRune]; every number is converted to float64 as
      [convertNumber] does, and the first literal that [strconv.ParseFloat]
      cannot hold ([float_overflows], [number_error]) is the error
      [json.Unmarshal] returns ([UnmarshalNumberError]).  Section
      [Float64] proves the range test exact ([float_overflows_exact]).
    - [Utf8]: well-formed UTF-8 ([utf8], decided by [utf8_ok]) and how
      the decoder copies a well-formed multi-byte sequence.
    - [JsonPrint]: [print_json], JSON text for every document (the
      compact form the server's encoder writes), and the proof that
      [go_json] reads every well-formed document back from it
      ([parse_json_print]), with the fuel it needs bounded by the length
      of the text.
    - [Console]: the observable events of a run (printed lines with the
      source's literal prefixes, sleeps, fetches, body closes, audio calls,
      [os/signal] calls, cancellation, signal arrivals).
    - [Sound]: [playSound] (lines 54-66), with the int64 arithmetic of the
      speaker buffer [format.SampleRate.N(time.Second/10)].
    - [Check]: one iteration's check-and-act sequence (lines 89-132):
      [check] and [inspect] give the branch taken, [outcome_events] what it
      prints and whether [playSound] runs.
    - [PollLoop]: the poll goroutine (lines 73-134) as a machine with one
      program point per statement that touches shared state or the
      outside world ([poll_step], section [PollLoop]), its invariant
      [poll_inv], and its runs [prun] from the initial state.
    - [PollSpec]: an abstract poller (sleeps left before the next check,
      bodies obtained) and the abstraction [abs_poll] of the machine's
      states onto it.
    - [Fmt]: the text the program writes: [fmt.Print] and [fmt.Println]
      with their spacing rules ([fmt_Print], [fmt_Println]), the verb
      [%v] on decoded values ([fmt_v]: slices, maps with their entries
      sorted by key, strings, booleans, [<nil>]), the error texts
      ([json_error_text], with the float64 range error), the
      text of each printed line ([render], with the operands of lines 61
      and 89-132) and of a trace ([console]).
    - [Watcher]: the signal-watcher goroutine (lines 33-52) as a machine
      [watch_step], and its runs [wrun] alone (its own steps and the
      reception of a signal).
    - [Main]: the whole process: [main]'s own steps ([main_step]), the
      interleaving of the three goroutines and the operating system's
      signal deliveries as one labelled step function [sys_step], the
      reachable states from [sys_init], the invariant [sys_inv] of every
      reachable state, and the system theorems.
    - [Shutdown]: what a termination signal does, by where the watcher
      is, and the liveness of the shutdown once [cancel()] has run.

    ** What the theorems show

    - [Interval]: every timeout drawn lies in [25, 34], and every value of
      that range can be drawn.
    - [Check]: the notify decision is exactly "an object whose numbers
      all fit a float64 and whose last [items] member is a non-empty
      array"; every branch's output, errors included, among them the
      float64 range error that skips a valid JSON body whatever its
      [items] ([iteration_number_error]); the examples of §8 of the
      specification on concrete bodies ([{"items": []}],
      [{"items": [{"slot": "9am"}]}], [{"other": 1}], a truncated body)
      evaluated with [go_json]; and the branch taken on every well-formed
      document the server can send as JSON text ([inspect_document]),
      through the read-back theorem of [JsonPrint].
    - [Json]: the range test computes without large powers of ten yet
      agrees with the exact comparison of the literal's decimal value with
      the float64 overflow bound [2^1024 - 2^970].
    - [Sound]: the buffer is [sr/10] up to the int64 limit and wraps to a
      negative size beyond it.
    - [PollLoop]: on every run, the first fetch has no sleep before it and
      later fetches are 25 to 34 one-second sleeps apart; response bodies
      are closed only at return, each exactly once; once the context is
      cancelled, the loop returns within 7 of its own steps and starts at
      most one more fetch; if every fetch answers with an empty [items]
      list, no run of the loop ever starts playback and each [http.Get]
      logs one no-slots line ([poll_exec_no_slots]).
    - [PollSpec]: refinement: every trace of the poll goroutine is a trace
      of the abstract poller, the machine's internal steps stuttering.
    - [Fmt]: standard output stays line-oriented (after every step of the
      poll goroutine the text printed ends a line) and holds at least one
      line per [http.Get]; the exact text of the found, empty-result and
      type-error lines; the findings that a pretty-printed body breaks
      the empty-result line over several lines and that a [wav.Decode]
      error takes the check's timestamp.
    - [Watcher]: on both return paths the trace is [signal.Notify], then
      (on the signal path) [cancel()], then [signal.Stop] and [close].
    - [Main]: the wait group never panics and counts the live goroutines;
      [main] returns only after both goroutines returned; the signal
      registration is released exactly once before the watcher's
      [wg.Done]; [cancel()] runs at most once and only after a delivered
      signal; at most one fetch starts after
      cancellation.
    - [Shutdown]: a signal is delivered only to a watcher parked in its
      [select]; one caught between [signal.Notify] and the [select] is
      lost and the program then never exits without a second signal; one
      arriving before [signal.Notify] or after [signal.Stop] kills the
      process; once cancelled, the program exits with status 0 within 18
      steps whatever the scheduler does.

    ** Bounds and fuel

    The machines are executable step functions; runs are over an explicit
    list of inputs or scheduler labels, so no fuel is needed for them.
    The measures [steps_left] (poll goroutine, at most 7), [watch_left]
    (watcher, at most 6) and [main_left] (at most 5) bound the steps left
    once the context is cancelled; their sum, 18, bounds every shutdown.
    The JSON parser takes fuel [S (length s)]: each nested call consumes
    at least one character of the input.  The int64 bound of [Sound] is
    the largest sample rate for which [100000000 * sr] fits in int64.
    A number literal overflows float64 when its value reaches
    [2^1024 - 2^970], half-way between the largest float64 and [2^1024]
    (the tie rounds to the even [2^1024]); that bound lies in
    [[10^308, 10^309)], so only a literal whose value has 309 integer
    digits needs the exact comparison.

    ** Not modelled

    The HTTP transport, the WAV decoder and the audio device are external:
    their results enter the model as inputs of the steps (any value is
    allowed).  Wall-clock time is not modelled: a [time.Sleep(time.Second)]
    is one event of the trace and [time.Now] an input string (the text
    [Time.String] gives it).  Of [fmt], two things are parameters (class
    [GoText]) rather than computed: the shortest decimal form [strconv]
    gives a [float64] number, and the wording of a JSON syntax error,
    which names the offending byte.  Which of SIGINT and SIGTERM arrives
    is not distinguished.  Of [encoding/json], the limit of 10000 nested
    arrays and objects is not modelled (the parser's fuel is the length
    of the body, so deeper documents are decoded rather than rejected).
    A number is checked for the float64 range, as [json.Unmarshal] does,
    but keeps its literal text: the program only prints numbers, and how
    [%v] prints a float64 is the [GoText] parameter above. *)

From stdpp Require Export base list gmap strings.
From Stdlib Require Export ZArith Lia.

Declare Scope heb_scope.
Delimit Scope heb_scope with heb.

Create HintDb heb discriminated.
Create Rewrite HintDb heb.

(** Inversion that cleans up after itself. *)
Ltac invc H := inversion H; subst; clear H.

(** Split every conjunction and existential among the hypotheses. *)
Ltac destr_hyps :=
  repeat match goal with
  | H : _ /\ _ |- _ => destruct H
  | H : exists _, _ |- _ => destruct H
  end.

(** ** Reflexive-transitive closure of a step relation *)
Section Star.
Context {A : Type} (R : A -> A -> Prop).

Inductive star : A -> A -> Prop :=
| star_refl a : star a a
| star_step a b c : R a b -> star b c -> star a c.

Lemma star_one a b : R a b -> star a b.
Proof. eauto using star. Qed.

Lemma star_trans a b c : star a b -> star b c -> star a c.
Proof. induction 1; eauto using star. Qed.

Lemma star_right a b c : star a b -> R b c -> star a c.
Proof. eauto using star_trans, star_one. Qed.

(** A predicate preserved by every step holds all along a run. *)
Lemma star_invariant (P : A -> Prop) :
  (forall a b, P a -> R a b -> P b) ->
  forall a b, star a b -> P a -> P b.
Proof. intros Hstep a b Hs. induction Hs; eauto. Qed.

(** A relation between the start and every later state that holds
    initially and is carried by every step. *)
Lemma star_invariant2 (P : A -> A -> Prop) :
  (forall a, P a a) ->
  (forall a b c, P a b -> R b c -> P a c) ->
  forall a b, star a b -> P a b.
Proof.
  intros Hrefl Hstep a b Hs.
  enough (forall a0, P a0 a -> P a0 b) by eauto.
  induction Hs; eauto.
Qed.
End Star.

(** [a ~[ R ]~>* b]: [b] is reached from [a] by steps of [R]. *)
Notation "a ~[ R ]~>* b" := (star R a b)
  (at level 70, R at level 200, format "a  ~[ R ]~>*  b") : heb_scope.

(** A run of a smaller step relation is a run of a larger one. *)
Lemma star_mono {A} (R1 R2 : A -> A -> Prop) :
  (forall a b, R1 a b -> R2 a b) -> forall a b, star R1 a b -> star R2 a b.
Proof. intros Hsub a b Hs. induction Hs; eauto using star. Qed.

#[export] Hint Resolve star_refl star_one : heb.

(** ** Traces

    Every observable action of the program (a console line, a one-second
    sleep, a fetch, a call into the signal package) is an event; a run's
    trace is the chronological list of its events.  [count_ev p tr] counts
    the events of [tr] that satisfy [p]; [after p tr] is what follows the
    first event satisfying [p]. *)
Section Traces.
Context {E : Type}.

Definition count_ev (p : E -> bool) (tr : list E) : nat :=
  length (filter (fun e => p e = true) tr).

Fixpoint after (p : E -> bool) (tr : list E) : option (list E) :=
  match tr with
  | [] => None
  | e :: tr' => if p e then Some tr' else after p tr'
  end.

Lemma count_ev_app p l1 l2 :
  count_ev p (l1 ++ l2) = count_ev p l1 + count_ev p l2.
Proof. unfold count_ev. by rewrite filter_app, length_app. Qed.

Lemma count_ev_cons p e l :
  count_ev p (e :: l) = (if p e then 1 else 0) + count_ev p l.
Proof.
  unfold count_ev. rewrite filter_cons.
  case_decide as Hp; destruct (p e); simpl; congruence.
Qed.

Lemma count_ev_nil p : count_ev p [] = 0.
Proof. done. Qed.

Lemma count_ev_none p l :
  Forall (fun e => p e = false) l -> count_ev p l = 0.
Proof.
  induction 1 as [|e l He _ IH]; [done|].
  rewrite count_ev_cons, He. simpl. done.
Qed.

Lemma count_ev_replicate p n l :
  count_ev p (concat (replicate n l)) = n * count_ev p l.
Proof.
  induction n as [|n IH]; [done|].
  rewrite replicate_S, concat_cons, count_ev_app, IH. lia.
Qed.

Lemma after_app_some p l1 l2 r :
  after p l1 = Some r -> after p (l1 ++ l2) = Some (r ++ l2).
Proof.
  induction l1 as [|e l1 IH]; simpl; [done|].
  destruct (p e); [intros H; injection H as <-; reflexivity|exact IH].
Qed.

Lemma after_app_none p l1 l2 :
  after p l1 = None -> after p (l1 ++ l2) = after p l2.
Proof.
  induction l1 as [|e l1 IH]; simpl; [done|].
  destruct (p e); [done|exact IH].
Qed.

(** Appending to a trace either extends what follows the first [p] event,
    or (when [l1] has none) starts it inside the appended part. *)
Lemma after_app p l1 l2 :
  after p (l1 ++ l2) =
    match after p l1 with
    | Some r => Some (r ++ l2)
    | None => after p l2
    end.
Proof.
  destruct (after p l1) eqn:Ha.
  - by apply after_app_some.
  - by apply after_app_none.
Qed.

Lemma after_none_count p l : after p l = None -> count_ev p l = 0.
Proof.
  induction l as [|e l IH]; simpl; [done|].
  rewrite count_ev_cons. destruct (p e); [done|]. simpl. auto.
Qed.
Lemma after_some_count p l : (0 < count_ev p l)%nat -> exists r, after p l = Some r.
Proof.
  induction l as [|e l IH]; simpl; [unfold count_ev; simpl; lia|].
  rewrite count_ev_cons. destruct (p e); [eauto|]. simpl. exact IH.
Qed.

End Traces.

#[export] Hint Rewrite @count_ev_app @count_ev_cons @count_ev_nil : heb.

(** ** Results of fallible Go calls

    A Go call that returns [(v, err)] is a [result]: [Ok v] when [err ==
    nil], [Err e] otherwise. *)
Inductive result (A E : Type) : Type :=
| Ok (a : A)
| Err (e : E).
Arguments Ok {A E} a.
Arguments Err {A E} e.

(** ** Strings *)

(** stdpp makes [String.append] opaque to [simpl]; these are its
    equations. *)
Section Strings.
Local Open Scope string_scope.

Lemma sapp_cons x (a b : string) : String x a ++ b = String x (a ++ b).
Proof. reflexivity. Qed.

Lemma sapp_nil_l (b : string) : EmptyString ++ b = b.
Proof. reflexivity. Qed.

Lemma sapp_assoc (a b c : string) : (a ++ b) ++ c = a ++ (b ++ c).
Proof. induction a as [|x a IH]; [done|]. by rewrite !sapp_cons, IH. Qed.

Lemma sapp_nil_r (a : string) : a ++ EmptyString = a.
Proof. induction a as [|x a IH]; [done|]. by rewrite sapp_cons, IH. Qed.

Lemma length_sapp (a b : string) : String.length (a ++ b) = (String.length a + String.length b)%nat.
Proof. induction a as [|x a IH]; [done|]. rewrite sapp_cons. simpl. by rewrite IH. Qed.

End Strings.

#[export] Hint Rewrite sapp_cons sapp_nil_l sapp_assoc sapp_nil_r length_sapp : heb.
