(* ===== verification/Sync.v ===== *)
(** * Sync: the Go runtime objects shared by the goroutines

    [main.go] shares two runtime objects between its goroutines:
    - the context of [context.WithCancel(context.Background())] (line 69):
      its [Done()] channel is closed by the first call of [cancel] and stays
      closed; a [select] on it is ready exactly when the context has been
      cancelled;
    - the [sync.WaitGroup] of line 70: [Add(delta)] adds to the counter and
      panics with "sync: negative WaitGroup counter" when the result is
      negative, [Done()] is [Add(-1)], and [Wait()] blocks until the counter
      is zero.
    Neither is code of the repository; both are modelled from their
    documented behaviour, which the specification restates (the one-way
    cancellation token of its data model, the coordinator's wait). *)

From S2P Require Import Prelude.

Local Open Scope Z_scope.

Module Ctx.
(** The context's state: whether [cancel] has been called. *)
Record ctx := mk_ctx { cancelled : bool }.

(** [context.WithCancel(context.Background())]: a fresh, active context. *)
Definition with_cancel : ctx := mk_ctx false.

(** The [CancelFunc]: closing [Done()] is idempotent. *)
Definition cancel (c : ctx) : ctx := mk_ctx true.

(** [case <-ctx.Done():] is ready. *)
Definition done_ready (c : ctx) : bool := cancelled c.

(** The order of the token's two states, [active] below [cancelled]. *)
Definition ctx_le (c1 c2 : ctx) : Prop :=
  cancelled c1 = true -> cancelled c2 = true.

#[export] Instance ctx_le_preorder : PreOrder ctx_le.
Proof. split; unfold ctx_le; [intros ? ?|intros ? ? ? ? ? ?]; auto. Qed.

#[export] Instance ctx_eq_dec : EqDecision ctx.
Proof. solve_decision. Defined.

Lemma cancel_le c : ctx_le c (cancel c).
Proof. by unfold ctx_le. Qed.

Lemma done_ready_cancel c : done_ready (cancel c) = true.
Proof. done. Qed.
End Ctx.

Module WaitGroup.
(** The counter of a [sync.WaitGroup]. *)
Record wg := mk_wg { counter : Z }.

Definition zero : wg := mk_wg 0.

(** [wg.Add(delta)]; [None] is the runtime panic on a negative counter. *)
Definition add (delta : Z) (w : wg) : option wg :=
  let v := counter w + delta in
  if decide (v < 0)%Z then None else Some (mk_wg v).

(** [wg.Done()]. *)
Definition done (w : wg) : option wg := add (-1) w.

(** [wg.Wait()] may return. *)
Definition wait_ready (w : wg) : bool := bool_decide (counter w = 0%Z).

#[export] Instance wg_eq_dec : EqDecision wg.
Proof. solve_decision. Defined.

Lemma add_ok delta w :
  (0 <= counter w + delta)%Z -> add delta w = Some (mk_wg (counter w + delta)).
Proof. intros H. unfold add. case_decide; [lia|done]. Qed.

Lemma add_panic delta w :
  (counter w + delta < 0)%Z -> add delta w = None.
Proof. intros H. unfold add. case_decide; [done|lia]. Qed.

Lemma done_some w w' :
  done w = Some w' -> counter w' = (counter w - 1)%Z /\ (0 < counter w)%Z.
Proof.
  unfold done, add. case_decide; [done|]. intros [= <-]. simpl. lia.
Qed.

Lemma done_ok w : 0 < counter w -> done w = Some (mk_wg (counter w - 1)).
Proof. intros H. unfold done. apply add_ok. lia. Qed.

Lemma wait_ready_iff w : wait_ready w = true <-> counter w = 0%Z.
Proof. unfold wait_ready. by rewrite bool_decide_eq_true. Qed.
End WaitGroup.

#[export] Hint Resolve Ctx.cancel_le : heb.
#[export] Existing Instances Ctx.ctx_le_preorder Ctx.ctx_eq_dec WaitGroup.wg_eq_dec.
