(* ===== verification/Interval.v ===== *)
(** * Interval: the randomized poll interval (line 87)

    [timeout = 25 + rand.Intn(10)] is computed after every wait phase, and
    the next iteration's wait runs [timeout] one-second steps.  The random
    source is the interface [IntnSource] with its law [IntnLaws]: [rand.Intn
    n] returns a value in [0, n) for [n > 0], and threads the generator's
    state.  The poll loop's theorems are proved against the interface; the
    [tape] instance (a list of pre-drawn values, reduced modulo [n]) is the
    executable source the witnesses run on. *)

From S2P Require Import Prelude.

Local Open Scope Z_scope.

(** [rand.Intn n] with the generator state made explicit. *)
Class IntnSource (R : Type) := intn : Z -> R -> Z * R.

(** What [rand.Intn] promises to its callers. *)
Class IntnLaws (R : Type) `{IntnSource R} :=
  intn_range : forall n r, (0 < n)%Z -> (0 <= (intn n r).1 < n)%Z.

(** The constants of line 87. *)
Definition timeout_base : Z := 25.
Definition timeout_spread : Z := 10.

(** Line 87: [timeout = 25 + rand.Intn(10)]. *)
Definition next_timeout {R} `{IntnSource R} (r : R) : Z * R :=
  let '(k, r') := intn timeout_spread r in (timeout_base + k, r').

(** The executable source: a tape of draws, each reduced into [0, n). *)
Definition tape := list Z.

#[export] Instance tape_intn : IntnSource tape :=
  fun n t => match t with
             | [] => (0%Z, [])
             | x :: t' => (x mod n, t')
             end%Z.

#[export] Instance tape_intn_laws : IntnLaws tape.
Proof.
  intros n [|x t] Hn; simpl; [lia|]. apply Z.mod_pos_bound. lia.
Qed.

Section Bounds.
Context {R : Type} `{IntnLaws R}.

Lemma next_timeout_fst (r : R) :
  (next_timeout r).1 = (timeout_base + (intn timeout_spread r).1)%Z.
Proof. unfold next_timeout. by destruct (intn timeout_spread r). Qed.

(** C5 Every timeout drawn at line 87, [25 + rand.Intn(10)], lies in
    the closed range [25, 34], for every source satisfying the contract
    of [rand.Intn]. *)
Theorem next_timeout_range (r : R) :
  (25 <= (next_timeout r).1 <= 34)%Z.
Proof.
  pose proof (intn_range timeout_spread r) as Hr. unfold next_timeout.
  destruct (intn timeout_spread r) as [k r']. simpl in *.
  unfold timeout_base, timeout_spread in *. lia.
Qed.

(** The form the poll loop uses: the timeout of a draw. *)
Lemma next_timeout_bounds (r r' : R) t :
  next_timeout r = (t, r') -> (25 <= t <= 34)%Z.
Proof.
  intros E. pose proof (next_timeout_fst r) as Hf. rewrite E in Hf. simpl in Hf.
  pose proof (intn_range timeout_spread r) as Hr. unfold timeout_base, timeout_spread in *. lia.
Qed.

Lemma next_timeout_pos (r : R) : (0 < (next_timeout r).1)%Z.
Proof. destruct (next_timeout r) as [t r'] eqn:E. apply next_timeout_bounds in E. simpl. lia. Qed.
End Bounds.

(** C30 The range is exact: every value of [25, 34] is the timeout drawn
    from some state of the source. *)
Theorem next_timeout_onto (t : Z) :
  (25 <= t <= 34)%Z -> exists r : tape, (next_timeout r).1 = t.
Proof.
  intros Ht. exists [t - 25]%Z. simpl.
  rewrite Z.mod_small; unfold timeout_base, timeout_spread; lia.
Qed.

Lemma next_timeout_onto_witness :
  (25 <= 34 <= 34)%Z /\ exists r : tape, (next_timeout r).1 = 34%Z.
Proof. split; [lia|]. apply next_timeout_onto. lia. Defined.

#[export] Hint Resolve next_timeout_pos : heb.

Lemma next_timeout_range_witness : (25 <= (next_timeout ([7]%Z : tape)).1 <= 34)%Z.
Proof. apply next_timeout_range. Defined.
