(* ===== verification/Json.v ===== *)
(** * Json: the decoded response document (lines 107-124)

    [json.Unmarshal(body, &result)] with [var result map[string]interface{}]
    (lines 107-108) turns the response body into a Go map whose values are
    the dynamic values [encoding/json] produces for [interface{}]: [nil],
    [bool], [float64], [string], [[]interface{}] and
    [map[string]interface{}].  [jvalue] is that value type; objects are kept
    as the association list of their members, in order.

    [encoding/json] is a library the code only calls, so the decoder is the
    interface [JsonDecoder]; [Check] is proved against it.  Its instance
    [go_json] is an executable parser of JSON text written from the JSON
    grammar the library accepts: the whole input must be one value with
    optional white space around it; string escapes are the eight simple
    ones and [\uXXXX], with surrogate pairs combined and a lone surrogate
    decoded to U+FFFD as the library does; numbers keep their literal text
    (the program only prints them).  Inside a string, a byte that
    does not start a well-formed UTF-8 sequence (by the rules of
    [utf8.DecodeRune]) is replaced by U+FFFD, as the library does; the
    rest of the text is read byte by byte, as the library's scanner does.

    [unmarshal_map] is the library's behaviour for a map target: a JSON
    object gives the map of its members, the last of duplicate keys
    winning; [null] leaves the map nil, which reads like an empty map; any
    other value is an [UnmarshalTypeError].  Every number of an object is
    converted to float64 on the way ([convertNumber]); [float_overflows]
    is the range error of [strconv.ParseFloat(s, 64)] (the result would
    round to infinity), and the first literal in document order that
    raises it makes [json.Unmarshal] fail ([number_error],
    [UnmarshalNumberError]).  Section [Float64] proves the fast range
    test equal to the exact comparison with the overflow bound. *)

From S2P Require Import Prelude.
From Stdlib Require Import Ascii String.

Local Open Scope string_scope.

(** ** Values *)

Inductive jvalue : Type :=
| JNull
| JBool (b : bool)
| JNumber (lit : string)
| JString (s : string)
| JArray (vs : list jvalue)
| JObject (kvs : list (string * jvalue)).

(** The error of [json.Unmarshal]: a syntax error of the text, a value
    whose JSON kind cannot be stored in the target, or a number literal
    that [strconv.ParseFloat] cannot hold in a float64
    ([UnmarshalTypeError{Value: "number " + lit, Type: float64}], from
    [convertNumber]). *)
Inductive json_error : Type :=
| SyntaxError
| UnmarshalTypeError (kind : string)
| UnmarshalNumberError (lit : string).

#[export] Instance jvalue_eq_dec : EqDecision jvalue.
Proof.
  refine (fix go (v w : jvalue) {struct v} : Decision (v = w) :=
    match v, w with
    | JNull, JNull => left eq_refl
    | JBool a, JBool b => cast_if (decide (a = b))
    | JNumber a, JNumber b => cast_if (decide (a = b))
    | JString a, JString b => cast_if (decide (a = b))
    | JArray a, JArray b => cast_if (@list_eq_dec _ go a b)
    | JObject a, JObject b => cast_if (@list_eq_dec _ (@prod_eq_dec _ _ _ go) a b)
    | _, _ => right _
    end); congruence.
Defined.

#[export] Instance json_error_eq_dec : EqDecision json_error.
Proof. solve_decision. Defined.

(** The kind names [encoding/json] reports in an [UnmarshalTypeError]. *)
Definition json_kind (v : jvalue) : string :=
  match v with
  | JNull => "null"
  | JBool _ => "bool"
  | JNumber _ => "number"
  | JString _ => "string"
  | JArray _ => "array"
  | JObject _ => "object"
  end.

(** ** The decoder interface *)

Class JsonDecoder := json_decode : string -> option jvalue.

(** ** Characters *)

Definition chr (n : nat) : ascii := ascii_of_nat n.
Definition c_quote : ascii := chr 34.
Definition c_bslash : ascii := chr 92.

Definition is_ws (c : ascii) : bool :=
  bool_decide (c = " "%char) || bool_decide (c = chr 9) ||
  bool_decide (c = chr 10) || bool_decide (c = chr 13).

Definition is_digit (c : ascii) : bool :=
  let n := nat_of_ascii c in (48 <=? n)%nat && (n <=? 57)%nat.

Fixpoint skip_ws (s : string) : string :=
  match s with
  | String c s' => if is_ws c then skip_ws s' else s
  | EmptyString => EmptyString
  end.

Fixpoint strip_prefix (p s : string) : option string :=
  match p, s with
  | EmptyString, _ => Some s
  | String c p', String d s' => if decide (c = d) then strip_prefix p' s' else None
  | String _ _, EmptyString => None
  end.

(** ** Numbers: [-? (0 | [1-9][0-9]* ) (. [0-9]+)? ([eE] [+-]? [0-9]+)?] *)

Fixpoint span_digits (s : string) : string * string :=
  match s with
  | String c s' =>
      if is_digit c then let '(ds, r) := span_digits s' in (String c ds, r)
      else (EmptyString, s)
  | EmptyString => (EmptyString, EmptyString)
  end.

Definition pint (s : string) : option (string * string) :=
  match s with
  | String c s' =>
      if decide (c = "0"%char) then Some ("0", s')
      else if is_digit c then let '(ds, r) := span_digits s' in Some (String c ds, r)
      else None
  | EmptyString => None
  end.

Definition pfrac (s : string) : option (string * string) :=
  match s with
  | String c s' =>
      if decide (c = "."%char) then
        let '(ds, r) := span_digits s' in
        if decide (ds = EmptyString) then None else Some (String c ds, r)
      else Some (EmptyString, s)
  | EmptyString => Some (EmptyString, EmptyString)
  end.

Definition pexp (s : string) : option (string * string) :=
  match s with
  | String e s' =>
      if bool_decide (e = "e"%char) || bool_decide (e = "E"%char) then
        let '(sg, s2) :=
          match s' with
          | String c r =>
              if bool_decide (c = "+"%char) || bool_decide (c = "-"%char)
              then (String c EmptyString, r) else (EmptyString, s')
          | EmptyString => (EmptyString, EmptyString)
          end in
        let '(ds, r) := span_digits s2 in
        if decide (ds = EmptyString) then None else Some (String e (sg ++ ds), r)
      else Some (EmptyString, s)
  | EmptyString => Some (EmptyString, EmptyString)
  end.

Definition pnumber (s : string) : option (string * string) :=
  let '(sg, s1) :=
    match s with
    | String c r => if decide (c = "-"%char) then ("-", r) else (EmptyString, s)
    | EmptyString => (EmptyString, EmptyString)
    end in
  match pint s1 with
  | None => None
  | Some (ip, r1) =>
      match pfrac r1 with
      | None => None
      | Some (fp, r2) =>
          match pexp r2 with
          | None => None
          | Some (ep, r3) => Some (sg ++ ip ++ fp ++ ep, r3)
          end
      end
  end.

(** ** Strings *)

Definition hex_val (c : ascii) : option Z :=
  let n := Z.of_nat (nat_of_ascii c) in
  if decide (48 <= n <= 57)%Z then Some (n - 48)%Z
  else if decide (97 <= n <= 102)%Z then Some (n - 87)%Z
  else if decide (65 <= n <= 70)%Z then Some (n - 55)%Z
  else None.

Definition hex4 (a b c d : ascii) : option Z :=
  match hex_val a, hex_val b, hex_val c, hex_val d with
  | Some x, Some y, Some z, Some w =>
      Some (Z.lor (Z.shiftl x 12) (Z.lor (Z.shiftl y 8) (Z.lor (Z.shiftl z 4) w)))
  | _, _, _, _ => None
  end.

Definition byte_chr (z : Z) : ascii := ascii_of_N (Z.to_N z).

(** [utf8.EncodeRune] for a code point below U+110000. *)
Definition utf8_encode (cp : Z) : string :=
  let cont (k : Z) := byte_chr (Z.lor 128 (Z.land (Z.shiftr cp k) 63)) in
  if decide (cp < 128)%Z then String (byte_chr cp) EmptyString
  else if decide (cp < 2048)%Z then
    String (byte_chr (Z.lor 192 (Z.shiftr cp 6))) (String (cont 0%Z) EmptyString)
  else if decide (cp < 65536)%Z then
    String (byte_chr (Z.lor 224 (Z.shiftr cp 12)))
      (String (cont 6%Z) (String (cont 0%Z) EmptyString))
  else
    String (byte_chr (Z.lor 240 (Z.shiftr cp 18)))
      (String (cont 12%Z) (String (cont 6%Z) (String (cont 0%Z) EmptyString))).

Definition replacement_char : Z := 65533.

Definition is_surrogate (cp : Z) : bool := bool_decide (55296 <= cp < 57344)%Z.

(** [utf16.DecodeRune]: the code point of a high/low surrogate pair, or
    U+FFFD. *)
Definition decode_pair (hi lo : Z) : Z :=
  if bool_decide (55296 <= hi < 56320)%Z && bool_decide (56320 <= lo < 57344)%Z
  then (Z.lor (Z.shiftl (hi - 55296) 10) (lo - 56320) + 65536)%Z
  else replacement_char.

Definition simple_escape (e : ascii) : option ascii :=
  if decide (e = c_quote) then Some c_quote
  else if decide (e = c_bslash) then Some c_bslash
  else if decide (e = "/"%char) then Some "/"%char
  else if decide (e = "b"%char) then Some (chr 8)
  else if decide (e = "f"%char) then Some (chr 12)
  else if decide (e = "n"%char) then Some (chr 10)
  else if decide (e = "r"%char) then Some (chr 13)
  else if decide (e = "t"%char) then Some (chr 9)
  else None.

Definition prepend (p : string) (o : option (string * string)) : option (string * string) :=
  match o with
  | Some (str, r) => Some (p ++ str, r)
  | None => None
  end.

(** [utf8.DecodeRune]'s well-formed sequences of two, three and four
    bytes, by their lead byte: the second byte's range excludes overlong
    forms, surrogates and code points above U+10FFFF. *)
Definition byte_in (lo hi : nat) (c : ascii) : bool :=
  (lo <=? nat_of_ascii c)%nat && (nat_of_ascii c <=? hi)%nat.

Definition cont_byte : ascii -> bool := byte_in 128 191.

Definition utf8_2 (c1 c2 : ascii) : bool := byte_in 194 223 c1 && cont_byte c2.

Definition utf8_3 (c1 c2 c3 : ascii) : bool :=
  ((byte_in 224 224 c1 && byte_in 160 191 c2) || (byte_in 225 236 c1 && cont_byte c2) ||
   (byte_in 237 237 c1 && byte_in 128 159 c2) || (byte_in 238 239 c1 && cont_byte c2))
  && cont_byte c3.

Definition utf8_4 (c1 c2 c3 c4 : ascii) : bool :=
  ((byte_in 240 240 c1 && byte_in 144 191 c2) || (byte_in 241 243 c1 && cont_byte c2) ||
   (byte_in 244 244 c1 && byte_in 128 143 c2))
  && cont_byte c3 && cont_byte c4.

(** The body of a string literal, after its opening quote: the decoded
    contents and the text after the closing quote.  A byte that does not
    start a well-formed UTF-8 sequence is replaced by U+FFFD and the
    decoding goes on with the next byte ([unquoteBytes]: "coerce to
    well-formed UTF-8"). *)
Fixpoint pstring (s : string) : option (string * string) :=
  match s with
  | EmptyString => None
  | String c r =>
      if decide (c = c_quote) then Some (EmptyString, r)
      else if decide (c = c_bslash) then
        match r with
        | String e r' =>
            match simple_escape e with
            | Some d => prepend (String d EmptyString) (pstring r')
            | None =>
                if decide (e = "u"%char) then
                  match r' with
                  | String h1 (String h2 (String h3 (String h4 r2))) =>
                      match hex4 h1 h2 h3 h4 with
                      | None => None
                      | Some cp =>
                          if is_surrogate cp then
                            match r2 with
                            | String b (String u (String k1 (String k2 (String k3 (String k4 r3))))) =>
                                let lo := if bool_decide (b = c_bslash) && bool_decide (u = "u"%char)
                                          then hex4 k1 k2 k3 k4 else None in
                                match lo with
                                | Some lo' =>
                                    if decide (decode_pair cp lo' = replacement_char)
                                    then prepend (utf8_encode replacement_char) (pstring r2)
                                    else prepend (utf8_encode (decode_pair cp lo')) (pstring r3)
                                | None => prepend (utf8_encode replacement_char) (pstring r2)
                                end
                            | _ => prepend (utf8_encode replacement_char) (pstring r2)
                            end
                          else prepend (utf8_encode cp) (pstring r2)
                      end
                  | _ => None
                  end
                else None
            end
        | EmptyString => None
        end
      else if (nat_of_ascii c <? 32)%nat then None
      else if (nat_of_ascii c <? 128)%nat then prepend (String c EmptyString) (pstring r)
      else
        let bad := prepend (utf8_encode replacement_char) (pstring r) in
        match r with
        | String c2 r2 =>
            if utf8_2 c c2 then prepend (String c (String c2 EmptyString)) (pstring r2)
            else match r2 with
                 | String c3 r3 =>
                     if utf8_3 c c2 c3 then prepend (String c (String c2 (String c3 EmptyString))) (pstring r3)
                     else match r3 with
                          | String c4 r4 =>
                              if utf8_4 c c2 c3 c4
                              then prepend (String c (String c2 (String c3 (String c4 EmptyString)))) (pstring r4)
                              else bad
                          | EmptyString => bad
                          end
                 | EmptyString => bad
                 end
        | EmptyString => bad
        end
  end.

(** Well-formed UTF-8 text. *)
Fixpoint utf8_ok (s : string) : bool :=
  match s with
  | EmptyString => true
  | String c r =>
      if (nat_of_ascii c <? 128)%nat then utf8_ok r
      else match r with
           | String c2 r2 =>
               if utf8_2 c c2 then utf8_ok r2
               else match r2 with
                    | String c3 r3 =>
                        if utf8_3 c c2 c3 then utf8_ok r3
                        else match r3 with
                             | String c4 r4 => utf8_4 c c2 c3 c4 && utf8_ok r4
                             | EmptyString => false
                             end
                    | EmptyString => false
                    end
           | EmptyString => false
           end
  end.

(** ** Values, arrays and objects *)

Fixpoint pvalue (fuel : nat) (s : string) : option (jvalue * string) :=
  match fuel with
  | O => None
  | S f =>
      let s := skip_ws s in
      match s with
      | EmptyString => None
      | String c r =>
          if decide (c = "{"%char) then
            match skip_ws r with
            | String d r' =>
                if decide (d = "}"%char) then Some (JObject [], r')
                else match pmembers f (skip_ws r) with
                     | Some (kvs, r'') => Some (JObject kvs, r'')
                     | None => None
                     end
            | EmptyString => None
            end
          else if decide (c = "["%char) then
            match skip_ws r with
            | String d r' =>
                if decide (d = "]"%char) then Some (JArray [], r')
                else match pelems f (skip_ws r) with
                     | Some (vs, r'') => Some (JArray vs, r'')
                     | None => None
                     end
            | EmptyString => None
            end
          else if decide (c = c_quote) then
            match pstring r with
            | Some (str, r') => Some (JString str, r')
            | None => None
            end
          else if decide (c = "t"%char) then
            match strip_prefix "rue" r with Some r' => Some (JBool true, r') | None => None end
          else if decide (c = "f"%char) then
            match strip_prefix "alse" r with Some r' => Some (JBool false, r') | None => None end
          else if decide (c = "n"%char) then
            match strip_prefix "ull" r with Some r' => Some (JNull, r') | None => None end
          else if bool_decide (c = "-"%char) || is_digit c then
            match pnumber s with
            | Some (lit, r') => Some (JNumber lit, r')
            | None => None
            end
          else None
      end
  end
with pelems (fuel : nat) (s : string) : option (list jvalue * string) :=
  match fuel with
  | O => None
  | S f =>
      match pvalue f s with
      | None => None
      | Some (v, r) =>
          match skip_ws r with
          | String d r' =>
              if decide (d = ","%char) then
                match pelems f r' with
                | Some (vs, r'') => Some (v :: vs, r'')
                | None => None
                end
              else if decide (d = "]"%char) then Some ([v], r')
              else None
          | EmptyString => None
          end
      end
  end
with pmembers (fuel : nat) (s : string) : option (list (string * jvalue) * string) :=
  match fuel with
  | O => None
  | S f =>
      match skip_ws s with
      | String q r =>
          if decide (q = c_quote) then
            match pstring r with
            | None => None
            | Some (k, r1) =>
                match skip_ws r1 with
                | String col r2 =>
                    if decide (col = ":"%char) then
                      match pvalue f r2 with
                      | None => None
                      | Some (v, r3) =>
                          match skip_ws r3 with
                          | String d r4 =>
                              if decide (d = ","%char) then
                                match pmembers f r4 with
                                | Some (kvs, r5) => Some ((k, v) :: kvs, r5)
                                | None => None
                                end
                              else if decide (d = "}"%char) then Some ([(k, v)], r4)
                              else None
                          | EmptyString => None
                          end
                      end
                    else None
                | EmptyString => None
                end
            end
          else None
      | EmptyString => None
      end
  end.

(** The whole body must be one value, with white space around it. *)
Definition parse_json (s : string) : option jvalue :=
  match pvalue (S (length s)) s with
  | Some (v, r) => match skip_ws r with EmptyString => Some v | String _ _ => None end
  | None => None
  end.

#[export] Instance go_json : JsonDecoder := parse_json.

(** ** [json.Unmarshal] into [map[string]interface{}] *)

(** Members are stored in order, so a later duplicate key overwrites. *)
Definition go_map {A} (kvs : list (string * A)) : gmap string A :=
  foldl (fun m kv => <[kv.1 := kv.2]> m) ∅ kvs.

(** ** [strconv.ParseFloat(s, 64)] on the literals ([convertNumber]) *)

Definition digit_val (c : ascii) : Z := (Z.of_nat (nat_of_ascii c) - 48)%Z.

(** A literal [-?I(.F)?([eE]...)?] read left to right: [m] is the integer
    of all its digits, [nd] the number of digits of [m] (leading zeros are
    not counted), [nf] the number of fraction digits; the result ends with
    the text after [e] or [E]. *)
Fixpoint scan_mant (s : string) (m nd nf : Z) (frac : bool) : Z * Z * Z * string :=
  match s with
  | EmptyString => (m, nd, nf, EmptyString)
  | String c r =>
      if is_digit c then
        let m' := (10 * m + digit_val c)%Z in
        scan_mant r m' (if decide (m' = 0%Z) then nd else (nd + 1)%Z)
          (if frac then (nf + 1)%Z else nf) frac
      else if decide (c = "."%char) then scan_mant r m nd nf true
      else if decide (c = "-"%char) then scan_mant r m nd nf frac
      else (m, nd, nf, r)
  end.

Fixpoint digits_val (s : string) (acc : Z) : Z :=
  match s with
  | String c r => digits_val r (10 * acc + digit_val c)%Z
  | EmptyString => acc
  end.

(** The exponent [[+-]?D], or 0 when the literal has none. *)
Definition scan_exp (s : string) : Z :=
  match s with
  | String c r =>
      if decide (c = "-"%char) then (- digits_val r 0)%Z
      else if decide (c = "+"%char) then digits_val r 0
      else digits_val s 0
  | EmptyString => 0%Z
  end.

(** The least magnitude that [ParseFloat] rounds to infinity: half-way
    between the largest float64, [(2^53 - 1) * 2^971], and [2^1024]; the
    tie goes to the even [2^1024], which is out of range. *)
Definition float64_overflow_bound : Z := (2 ^ 1024 - 2 ^ 970)%Z.

(** The literal's value [m * 10^k] reaches the bound, computed exactly. *)
Definition overflows_ref (m k : Z) : bool :=
  if decide (0 <= k)%Z then bool_decide (float64_overflow_bound <= m * 10 ^ k)%Z
  else bool_decide (float64_overflow_bound * 10 ^ (- k) <= m)%Z.

(** The same test without the power of ten when the decimal point of the
    value is far from the bound's: with [nd] digits, [m * 10^k] lies in
    [[10^(nd+k-1), 10^(nd+k))], and [10^308 <= bound < 10^309].  An
    exponent of millions of digits is thus never raised. *)
Definition overflows_fast (m nd k : Z) : bool :=
  if decide (m = 0%Z) then false
  else if decide (nd + k <= 308)%Z then false
  else if decide (310 <= nd + k)%Z then true
  else overflows_ref m k.

(** [strconv.ParseFloat(lit, 64)] returns [ErrRange] for the literal (an
    underflow rounds to zero without error). *)
Definition float_overflows (lit : string) : bool :=
  let '(m, nd, nf, e) := scan_mant lit 0 0 0 false in
  overflows_fast m nd (scan_exp e - nf).

(** The first literal, in document order, that [convertNumber] rejects.
    Decoding goes on after the error ([d.saveError] keeps the first one),
    so every number of the document is converted, also under a duplicate
    key that a later member overwrites. *)
Fixpoint number_error (v : jvalue) : option string :=
  match v with
  | JNumber lit => if float_overflows lit then Some lit else None
  | JArray vs =>
      (fix go (vs : list jvalue) : option string :=
         match vs with
         | [] => None
         | w :: ws => match number_error w with Some l => Some l | None => go ws end
         end) vs
  | JObject kvs =>
      (fix go (kvs : list (string * jvalue)) : option string :=
         match kvs with
         | [] => None
         | (_, w) :: ws => match number_error w with Some l => Some l | None => go ws end
         end) kvs
  | _ => None
  end.

(** A top-level object is decoded member by member into the map; its
    first number error is the error [json.Unmarshal] returns. *)
Definition unmarshal_map `{JsonDecoder} (body : string)
  : result (gmap string jvalue) json_error :=
  match json_decode body with
  | None => Err SyntaxError
  | Some JNull => Ok ∅
  | Some (JObject kvs) =>
      match number_error (JObject kvs) with
      | Some lit => Err (UnmarshalNumberError lit)
      | None => Ok (go_map kvs)
      end
  | Some v => Err (UnmarshalTypeError (json_kind v))
  end.

(** JSON text written with single quotes for readability: [sq] turns every
    ['] into a double quote. *)
Fixpoint sq (s : string) : string :=
  match s with
  | String c r => String (if decide (c = "'"%char) then c_quote else c) (sq r)
  | EmptyString => EmptyString
  end.

(** ** The range test of [convertNumber] *)

Section Float64.
Local Open Scope Z_scope.

Lemma digit_val_range c : is_digit c = true -> 0 <= digit_val c <= 9.
Proof.
  unfold is_digit, digit_val. intros Hc.
  apply andb_prop in Hc as [H1 H2]. apply Nat.leb_le in H1, H2. lia.
Qed.

Lemma bound_range : 10 ^ 308 <= float64_overflow_bound < 10 ^ 309.
Proof. split; [apply Z.leb_le | apply Z.ltb_lt]; vm_compute; reflexivity. Qed.

(** [nd] counts the digits of [m]. *)
Definition ndigits (m nd : Z) : Prop :=
  (m = 0 /\ nd = 0) \/ (1 <= nd /\ 10 ^ (nd - 1) <= m < 10 ^ nd).

Lemma ndigits_digit m nd d :
  ndigits m nd -> 0 <= d <= 9 ->
  ndigits (10 * m + d) (if decide (10 * m + d = 0) then nd else nd + 1).
Proof.
  intros [[-> ->] | (Hnd & Hlo & Hhi)] Hd; case_decide as Hz.
  - by left.
  - right. cbn. lia.
  - lia.
  - right. replace (nd + 1 - 1) with (Z.succ (nd - 1)) by lia.
    replace (nd + 1) with (Z.succ (Z.succ (nd - 1))) by lia.
    replace nd with (Z.succ (nd - 1)) in Hhi by lia.
    rewrite !Z.pow_succ_r in * by lia. lia.
Qed.

Lemma scan_mant_ndigits s m nd nf frac :
  ndigits m nd ->
  let '(m', nd', _, _) := scan_mant s m nd nf frac in ndigits m' nd'.
Proof.
  revert m nd nf frac. induction s as [|c s IH]; intros m nd nf frac Hm; simpl; [done|].
  destruct (is_digit c) eqn:Hc.
  - apply IH, ndigits_digit; [done|]. by apply digit_val_range.
  - repeat case_decide; first [apply IH | idtac]; done.
Qed.

Lemma pow10_mul a b : 0 <= a -> 0 <= b -> 10 ^ a * 10 ^ b = 10 ^ (a + b).
Proof. intros. by rewrite Z.pow_add_r. Qed.

Lemma pow10_le a b : 0 <= a <= b -> 10 ^ a <= 10 ^ b.
Proof. intros. apply Z.pow_le_mono_r; lia. Qed.

Lemma pow10_pos a : 0 <= a -> 0 < 10 ^ a.
Proof. intros. apply Z.pow_pos_nonneg; lia. Qed.

(** Below the bound's decade the value is in range ... *)
Lemma overflows_ref_small m nd k :
  1 <= nd -> m < 10 ^ nd -> nd + k <= 308 -> overflows_ref m k = false.
Proof.
  intros Hnd Hm HL. pose proof bound_range. unfold overflows_ref.
  case_decide as Hk; apply bool_decide_eq_false_2.
  - pose proof (pow10_mul nd k ltac:(lia) Hk). pose proof (pow10_le (nd + k) 308).
    pose proof (pow10_pos k Hk). nia.
  - pose proof (pow10_mul 308 (- k) ltac:(lia) ltac:(lia)).
    pose proof (pow10_le nd (308 + - k)). pose proof (pow10_pos (- k)). nia.
Qed.

(** ... and above it, out of range. *)
Lemma overflows_ref_large m nd k :
  1 <= nd -> 10 ^ (nd - 1) <= m -> 310 <= nd + k -> overflows_ref m k = true.
Proof.
  intros Hnd Hm HL. pose proof bound_range. unfold overflows_ref.
  case_decide as Hk; apply bool_decide_eq_true_2.
  - pose proof (pow10_mul (nd - 1) k ltac:(lia) Hk).
    pose proof (pow10_le 309 (nd - 1 + k)). pose proof (pow10_pos k Hk). nia.
  - pose proof (pow10_mul 309 (- k) ltac:(lia) ltac:(lia)).
    pose proof (pow10_le (309 + - k) (nd - 1)). pose proof (pow10_pos (- k)). nia.
Qed.

Lemma overflows_ref_zero k : overflows_ref 0 k = false.
Proof.
  pose proof bound_range. unfold overflows_ref.
  case_decide as Hk; apply bool_decide_eq_false_2.
  - lia.
  - pose proof (pow10_pos (- k)). nia.
Qed.

Lemma overflows_fast_ref m nd k :
  ndigits m nd -> overflows_fast m nd k = overflows_ref m k.
Proof.
  unfold overflows_fast. intros [[-> ->] | (Hnd & Hlo & Hhi)].
  - by rewrite overflows_ref_zero.
  - repeat case_decide; try lia.
    + symmetry. by apply (overflows_ref_small m nd).
    + symmetry. by apply (overflows_ref_large m nd).
    + done.
Qed.

(** The range test of [convertNumber] is exact: [float_overflows]
    rejects a literal exactly when its decimal value [m * 10^k] ([m] the
    integer of its digits, [k] its exponent less its number of fraction
    digits) reaches the float64 overflow bound, although it only
    multiplies by a power of ten when the value has 309 integer digits. *)
Theorem float_overflows_exact lit :
  float_overflows lit =
    let '(m, _, nf, e) := scan_mant lit 0 0 0 false in overflows_ref m (scan_exp e - nf).
Proof.
  unfold float_overflows.
  pose proof (scan_mant_ndigits lit 0 0 0 false (or_introl (conj eq_refl eq_refl))).
  destruct (scan_mant lit 0 0 0 false) as [[[m nd] nf] e]. by apply overflows_fast_ref.
Qed.

End Float64.
