(* ===== verification/Utf8.v ===== *)
(** * Utf8: well-formed UTF-8 text and the decoder's string literals

    [utf8] is well-formed UTF-8 text as an inductive predicate, one
    constructor per sequence length, with the byte ranges of
    [utf8.DecodeRune] ([utf8_2], [utf8_3], [utf8_4] of [Json]); the
    checker [utf8_ok] decides it ([utf8_ok_sound]).  The last lemmas show
    how [pstring] reads a well-formed multi-byte sequence: copied as it
    is, which [JsonPrint] needs to read printed strings back. *)

From S2P Require Import Prelude Json.
From Stdlib Require Import Ascii String.

Local Open Scope string_scope.

Inductive utf8 : string -> Prop :=
| utf8_nil : utf8 EmptyString
| utf8_one c s : (nat_of_ascii c < 128)%nat -> utf8 s -> utf8 (String c s)
| utf8_two c1 c2 s : utf8_2 c1 c2 = true -> utf8 s -> utf8 (String c1 (String c2 s))
| utf8_three c1 c2 c3 s :
    utf8_3 c1 c2 c3 = true -> utf8 s -> utf8 (String c1 (String c2 (String c3 s)))
| utf8_four c1 c2 c3 c4 s :
    utf8_4 c1 c2 c3 c4 = true -> utf8 s -> utf8 (String c1 (String c2 (String c3 (String c4 s)))).

#[export] Hint Constructors utf8 : heb.

(** ** Byte ranges *)

(** Unfolds the byte classes into bounds on the bytes' codes. *)
Ltac bytes_to_nat :=
  unfold utf8_2, utf8_3, utf8_4, cont_byte, byte_in in *;
  repeat match goal with
  | H : (_ && _)%bool = true |- _ => apply andb_prop in H as [? ?]
  | H : (_ || _)%bool = true |- _ => apply orb_prop in H as [? | ?]
  | H : (_ <=? _)%nat = true |- _ => apply Nat.leb_le in H
  | H : (_ <? _)%nat = true |- _ => apply Nat.ltb_lt in H
  | H : (_ <? _)%nat = false |- _ => apply Nat.ltb_ge in H
  end.

Lemma utf8_2_lead c1 c2 : utf8_2 c1 c2 = true -> (194 <= nat_of_ascii c1 <= 223)%nat.
Proof. intros H. bytes_to_nat. lia. Qed.

Lemma utf8_3_lead c1 c2 c3 : utf8_3 c1 c2 c3 = true -> (224 <= nat_of_ascii c1 <= 239)%nat.
Proof. intros H. bytes_to_nat; lia. Qed.

Lemma utf8_4_lead c1 c2 c3 c4 : utf8_4 c1 c2 c3 c4 = true -> (240 <= nat_of_ascii c1 <= 244)%nat.
Proof. intros H. bytes_to_nat; lia. Qed.

Lemma utf8_2_false c1 c2 : ~ (194 <= nat_of_ascii c1 <= 223)%nat -> utf8_2 c1 c2 = false.
Proof. intros Hc. apply not_true_iff_false. intros H. apply Hc, (utf8_2_lead _ _ H). Qed.

Lemma utf8_3_false c1 c2 c3 : ~ (224 <= nat_of_ascii c1 <= 239)%nat -> utf8_3 c1 c2 c3 = false.
Proof. intros Hc. apply not_true_iff_false. intros H. apply Hc, (utf8_3_lead _ _ _ H). Qed.

Lemma utf8_4_false c1 c2 c3 c4 : ~ (240 <= nat_of_ascii c1 <= 244)%nat -> utf8_4 c1 c2 c3 c4 = false.
Proof. intros Hc. apply not_true_iff_false. intros H. apply Hc, (utf8_4_lead _ _ _ _ H). Qed.

(** ** The checker *)

Lemma utf8_ok_sound s : utf8_ok s = true -> utf8 s.
Proof.
  induction s as [s IH] using (induction_ltof1 _ String.length); unfold ltof in IH.
  destruct s as [|c r]; [constructor|]. simpl.
  destruct (nat_of_ascii c <? 128)%nat eqn:Ha.
  { intros H. apply Nat.ltb_lt in Ha. constructor; [done|]. apply IH; [simpl; lia|done]. }
  destruct r as [|c2 r2]; [done|].
  destruct (utf8_2 c c2) eqn:H2.
  { intros H. constructor; [done|]. apply IH; [simpl; lia|done]. }
  destruct r2 as [|c3 r3]; [done|].
  destruct (utf8_3 c c2 c3) eqn:H3.
  { intros H. constructor; [done|]. apply IH; [simpl; lia|done]. }
  destruct r3 as [|c4 r4]; [done|].
  intros [H4 H]%andb_prop. constructor; [done|]. apply IH; [simpl; lia|done].
Qed.

(** ** Decoding well-formed text *)

(** A byte from 128 up is neither a quote, a backslash nor a control
    character, and is not ASCII. *)
Lemma high_byte c : (128 <= nat_of_ascii c)%nat ->
  c <> c_quote /\ c <> c_bslash /\ (nat_of_ascii c <? 32)%nat = false /\
  (nat_of_ascii c <? 128)%nat = false.
Proof.
  intros Hc. split_and!; [intros ->; vm_compute in Hc; lia|intros ->; vm_compute in Hc; lia|
    apply Nat.ltb_ge; lia|apply Nat.ltb_ge; lia].
Qed.

Ltac high_byte_dispatch c1 :=
  destruct (high_byte c1 ltac:(lia)) as (Hq & Hb & H32 & H128);
  cbn [pstring]; rewrite (decide_False _ _ Hq), (decide_False _ _ Hb), H32, H128.

Lemma pstring_two c1 c2 t : utf8_2 c1 c2 = true ->
  pstring (String c1 (String c2 t)) = prepend (String c1 (String c2 EmptyString)) (pstring t).
Proof. intros H. pose proof (utf8_2_lead _ _ H) as Hl. high_byte_dispatch c1. by rewrite H. Qed.

Lemma pstring_three c1 c2 c3 t : utf8_3 c1 c2 c3 = true ->
  pstring (String c1 (String c2 (String c3 t))) =
    prepend (String c1 (String c2 (String c3 EmptyString))) (pstring t).
Proof.
  intros H. pose proof (utf8_3_lead _ _ _ H) as Hl. high_byte_dispatch c1.
  by rewrite (utf8_2_false c1 c2), H by lia.
Qed.

Lemma pstring_four c1 c2 c3 c4 t : utf8_4 c1 c2 c3 c4 = true ->
  pstring (String c1 (String c2 (String c3 (String c4 t)))) =
    prepend (String c1 (String c2 (String c3 (String c4 EmptyString)))) (pstring t).
Proof.
  intros H. pose proof (utf8_4_lead _ _ _ _ H) as Hl. high_byte_dispatch c1.
  by rewrite (utf8_2_false c1 c2), (utf8_3_false c1 c2 c3), H by lia.
Qed.
