(* ===== verification/JsonPrint.v ===== *)
(** * JsonPrint: JSON text for every document, and the parser reading it back

    The body the program decodes at line 108 is JSON text sent by the
    server.  [print_json] writes a document [jvalue] as compact JSON text
    (the form [json.Marshal] produces: no white space; inside strings the
    quote, the backslash and the control characters are escaped), and
    [parse_json_print] shows that the parser [go_json] reads every
    well-formed document back:
    decoding is a left inverse of printing.  [Check] uses it to state the
    program's decision on every document the server can send, not only on
    the example bodies.

    A document is well formed ([json_wf]) when each of its number literals
    is one that the JSON number grammar reads whole and each of its
    strings, member names included, is well-formed UTF-8 (a byte that is
    not would be read back as U+FFFD).  The parser's fuel
    [S (length s)] suffices because [jsize v], the fuel a document needs,
    is at most the length of its text ([jsize_print]). *)

From S2P Require Import Prelude Json Utf8.
From Stdlib Require Import Ascii String.

Local Open Scope string_scope.

(** ** Printing *)

Definition hex_digit (n : nat) : ascii :=
  if (n <? 10)%nat then chr (48 + n) else chr (87 + n).

(** One character inside a string literal. *)
Definition escape_char (c : ascii) : string :=
  if decide (c = c_quote) then String c_bslash (String c_quote EmptyString)
  else if decide (c = c_bslash) then String c_bslash (String c_bslash EmptyString)
  else
    let n := nat_of_ascii c in
    if (n <? 32)%nat then
      "\u00" ++ String (hex_digit (n / 16)) (String (hex_digit (n mod 16)) EmptyString)
    else String c EmptyString.

Fixpoint escape (s : string) : string :=
  match s with
  | EmptyString => EmptyString
  | String c r => escape_char c ++ escape r
  end.

Definition print_string (s : string) : string :=
  String c_quote (escape s ++ String c_quote EmptyString).

Fixpoint print_json (v : jvalue) : string :=
  match v with
  | JNull => "null"
  | JBool true => "true"
  | JBool false => "false"
  | JNumber lit => lit
  | JString s => print_string s
  | JArray vs => "[" ++ String.concat "," (map print_json vs) ++ "]"
  | JObject kvs =>
      "{" ++ String.concat "," (map (fun kv => print_string kv.1 ++ ":" ++ print_json kv.2) kvs)
      ++ "}"
  end.

(** Every number literal of the document is read whole by the grammar,
    and every string, member names included, is well-formed UTF-8. *)
Fixpoint json_wf (v : jvalue) : bool :=
  match v with
  | JNumber lit => bool_decide (pnumber lit = Some (lit, EmptyString))
  | JString s => utf8_ok s
  | JArray vs => forallb json_wf vs
  | JObject kvs => forallb (fun kv => utf8_ok kv.1 && json_wf kv.2) kvs
  | _ => true
  end.

(** The fuel the parser needs: one unit per value, array element and
    object member. *)
Fixpoint jsize (v : jvalue) : nat :=
  match v with
  | JArray vs => S (sum_list_with (fun w => S (jsize w)) vs)
  | JObject kvs => S (sum_list_with (fun kv => S (jsize kv.2)) kvs)
  | _ => 1
  end.

(** What may follow a value in printed text: nothing, a comma, or the
    end of the enclosing array or object. *)
Definition delim_ok (r : string) : bool :=
  match r with
  | EmptyString => true
  | String c _ => bool_decide (c = ","%char) || bool_decide (c = "]"%char) || bool_decide (c = "}"%char)
  end.

(** The characters a printed value can start with. *)
Definition value_head (c : ascii) : bool :=
  bool_decide (c = "-"%char) || is_digit c || bool_decide (c = c_quote) ||
  bool_decide (c = "["%char) || bool_decide (c = "{"%char) ||
  bool_decide (c = "n"%char) || bool_decide (c = "t"%char) || bool_decide (c = "f"%char).

(** ** Induction on documents *)

Lemma jvalue_ind' (P : jvalue -> Prop) :
  P JNull -> (forall b, P (JBool b)) -> (forall l, P (JNumber l)) -> (forall s, P (JString s)) ->
  (forall vs, Forall P vs -> P (JArray vs)) ->
  (forall kvs, Forall (fun kv => P kv.2) kvs -> P (JObject kvs)) ->
  forall v, P v.
Proof.
  intros Hn Hb Hl Hs Ha Ho. fix IH 1. intros [| | | |vs|kvs].
  - exact Hn.
  - apply Hb.
  - apply Hl.
  - apply Hs.
  - apply Ha. induction vs as [|w ws IHvs]; constructor; [apply IH|exact IHvs].
  - apply Ho. induction kvs as [|[k w] ws IHkvs]; constructor; [apply IH|exact IHkvs].
Qed.

(** ** Strings *)


(** Each escaped ASCII character is decoded back by [pstring], whatever
    follows; a byte from 128 up is not escaped. *)
Lemma pstring_escape_char c t : (nat_of_ascii c < 128)%nat ->
  pstring (escape_char c ++ t) = prepend (String c EmptyString) (pstring t).
Proof.
  destruct c as [[] [] [] [] [] [] [] []]; intros Hc; first [reflexivity | vm_compute in Hc; lia].
Qed.

Lemma escape_char_high c : (128 <= nat_of_ascii c)%nat -> escape_char c = String c EmptyString.
Proof.
  intros Hc. destruct (high_byte c Hc) as (Hq & Hb & H32 & _).
  unfold escape_char. by rewrite (decide_False _ _ Hq), (decide_False _ _ Hb), H32.
Qed.

(** The bytes of a multi-byte sequence are copied by the printer. *)
Lemma escape_seq2 c1 c2 s : utf8_2 c1 c2 = true ->
  escape (String c1 (String c2 s)) = String c1 (String c2 (escape s)).
Proof. intros H. cbn [escape]. rewrite !escape_char_high; [done|..]; bytes_to_nat; lia. Qed.

Lemma escape_seq3 c1 c2 c3 s : utf8_3 c1 c2 c3 = true ->
  escape (String c1 (String c2 (String c3 s))) = String c1 (String c2 (String c3 (escape s))).
Proof. intros H. cbn [escape]. rewrite !escape_char_high; [done|..]; bytes_to_nat; lia. Qed.

Lemma escape_seq4 c1 c2 c3 c4 s : utf8_4 c1 c2 c3 c4 = true ->
  escape (String c1 (String c2 (String c3 (String c4 s)))) =
    String c1 (String c2 (String c3 (String c4 (escape s)))).
Proof. intros H. cbn [escape]. rewrite !escape_char_high; [done|..]; bytes_to_nat; lia. Qed.

(** Well-formed UTF-8 text is decoded back from its escaped form. *)
Lemma pstring_escape s r : utf8 s -> pstring (escape s ++ String c_quote r) = Some (s, r).
Proof.
  induction 1 as [|c s Hc _ IH|c1 c2 s H _ IH|c1 c2 c3 s H _ IH|c1 c2 c3 c4 s H _ IH];
    [reflexivity|..].
  - cbn [escape]. by rewrite sapp_assoc, pstring_escape_char, IH.
  - by rewrite escape_seq2, !sapp_cons, pstring_two, IH.
  - by rewrite escape_seq3, !sapp_cons, pstring_three, IH.
  - by rewrite escape_seq4, !sapp_cons, pstring_four, IH.
Qed.

(** The facts the parser's dispatch needs about the first character of a
    printed value and about what may follow it. *)
Lemma value_head_not_ws c : value_head c = true -> is_ws c = false.
Proof. destruct c as [[] [] [] [] [] [] [] []]; done. Qed.

Lemma value_head_not_close c : value_head c = true -> c <> "]"%char /\ c <> "}"%char.
Proof. destruct c as [[] [] [] [] [] [] [] []]; done. Qed.

Lemma delim_not_ws c r : delim_ok (String c r) = true -> is_ws c = false.
Proof. destruct c as [[] [] [] [] [] [] [] []]; done. Qed.

Lemma delim_not_digit c r : delim_ok (String c r) = true -> is_digit c = false.
Proof. destruct c as [[] [] [] [] [] [] [] []]; done. Qed.

Lemma skip_ws_head c r : is_ws c = false -> skip_ws (String c r) = String c r.
Proof. intros Hc. simpl. by rewrite Hc. Qed.

Lemma delim_not_num c r :
  delim_ok (String c r) = true ->
  is_digit c = false /\ c <> "."%char /\ c <> "e"%char /\ c <> "E"%char /\
  c <> "+"%char /\ c <> "-"%char.
Proof. destruct c as [[] [] [] [] [] [] [] []]; intros H; try discriminate H; repeat split; discriminate. Qed.

(** ** Numbers: each part of the grammar stops where the printed text
    puts a delimiter *)

(** A parser [p] reads [s] the same way when a suffix [r] is appended,
    provided [r] begins with a delimiter wherever [p] read [s] whole. *)
Definition suffix_stable (p : string -> option (string * string)) : Prop :=
  forall s r x t, p s = Some (x, t) -> (t = EmptyString -> delim_ok r = true) ->
    p (s ++ r) = Some (x, t ++ r).

Lemma span_digits_app s r ds t :
  span_digits s = (ds, t) -> (t = EmptyString -> delim_ok r = true) ->
  span_digits (s ++ r) = (ds, t ++ r).
Proof.
  revert ds t. induction s as [|c s IH]; intros ds t Hs Ht; simpl in Hs.
  - invc Hs. specialize (Ht eq_refl). destruct r as [|c r]; [done|].
    destruct (delim_not_num c r Ht) as [Hd _]. simpl. by rewrite Hd.
  - rewrite sapp_cons. simpl. destruct (is_digit c).
    + destruct (span_digits s) as [ds' t'] eqn:E. invc Hs. by rewrite (IH _ _ eq_refl Ht).
    + by invc Hs.
Qed.

Lemma pint_app : suffix_stable pint.
Proof.
  intros [|c s] r x t; simpl; [discriminate|].
  destruct (decide (c = "0"%char)); [by intros [= <- <-]|].
  destruct (is_digit c); [|discriminate].
  destruct (span_digits s) as [ds t'] eqn:E. intros [= <- <-] Ht.
  by rewrite (span_digits_app _ _ _ _ E Ht).
Qed.

Lemma pfrac_app : suffix_stable pfrac.
Proof.
  intros [|c s] r x t; simpl.
  - intros [= <- <-] Ht. specialize (Ht eq_refl). destruct r as [|c r]; [done|].
    destruct (delim_not_num c r Ht) as (_ & Hdot & _). simpl. by rewrite decide_False.
  - destruct (decide (c = "."%char)); [|by intros [= <- <-]].
    destruct (span_digits s) as [ds t'] eqn:E.
    case_decide; [discriminate|]. intros [= <- <-] Ht.
    rewrite (span_digits_app _ _ _ _ E Ht). simpl. by rewrite decide_False.
Qed.

Lemma pexp_app : suffix_stable pexp.
Proof.
  intros [|e s] r x t; simpl.
  - intros [= <- <-] Ht. specialize (Ht eq_refl). destruct r as [|c r]; [done|].
    destruct (delim_not_num c r Ht) as (_ & _ & He & HE & _). simpl.
    by rewrite !bool_decide_false.
  - destruct (bool_decide (e = "e"%char) || bool_decide (e = "E"%char)); [|by intros [= <- <-]].
    destruct s as [|c s]; simpl; [discriminate|].
    destruct (bool_decide (c = "+"%char) || bool_decide (c = "-"%char)).
    + destruct (span_digits s) as [ds t'] eqn:E. case_decide; [discriminate|].
      intros [= <- <-] Ht. rewrite (span_digits_app _ _ _ _ E Ht). simpl.
      by rewrite decide_False.
    + destruct (span_digits (String c s)) as [ds t'] eqn:E. case_decide; [discriminate|].
      intros [= <- <-] Ht. rewrite (span_digits_app _ _ _ _ E Ht). simpl.
      by rewrite decide_False.
Qed.

Lemma pnumber_app : suffix_stable pnumber.
Proof.
  intros s r x t. unfold pnumber.
  assert (Hsg : s <> EmptyString -> exists sg s1,
             (match s with
              | String c r0 => if decide (c = "-"%char) then ("-", r0) else (EmptyString, s)
              | EmptyString => (EmptyString, EmptyString) end) = (sg, s1) /\
             (match s ++ r with
              | String c r0 => if decide (c = "-"%char) then ("-", r0) else (EmptyString, s ++ r)
              | EmptyString => (EmptyString, EmptyString) end) = (sg, s1 ++ r)).
  { destruct s as [|c s]; [done|]. intros _. simpl.
    destruct (decide (c = "-"%char)); eauto. }
  destruct s as [|c s0]; [done|]. destruct (Hsg ltac:(done)) as (sg & s1 & -> & ->).
  destruct (pint s1) as [[ip r1]|] eqn:E1; [|discriminate].
  destruct (pfrac r1) as [[fp r2]|] eqn:E2; [|discriminate].
  destruct (pexp r2) as [[ep r3]|] eqn:E3; [|discriminate].
  intros [= <- <-] Ht.
  assert (H2 : r2 = EmptyString -> delim_ok r = true)
    by (intros ->; simpl in E3; injection E3 as <- <-; auto).
  assert (H1 : r1 = EmptyString -> delim_ok r = true)
    by (intros ->; simpl in E2; injection E2 as <- <-; auto).
  by rewrite (pint_app _ _ _ _ E1 H1), (pfrac_app _ _ _ _ E2 H2), (pexp_app _ _ _ _ E3 Ht).
Qed.

(** A number starts with a minus sign or a digit. *)
Lemma pnumber_head s x t :
  pnumber s = Some (x, t) ->
  exists c s', s = String c s' /\ (c = "-"%char \/ is_digit c = true).
Proof.
  destruct s as [|c s']; [done|]. intros Hs. exists c, s'. split; [done|].
  destruct (decide (c = "-"%char)); [by left|right].
  unfold pnumber in Hs. simpl in Hs. rewrite decide_False in Hs by done. simpl in Hs.
  destruct (decide (c = "0"%char)) as [->|]; [done|]. by destruct (is_digit c).
Qed.

Lemma num_head_dispatch c :
  c = "-"%char \/ is_digit c = true ->
  c <> "{"%char /\ c <> "["%char /\ c <> c_quote /\ c <> "t"%char /\ c <> "f"%char /\
  c <> "n"%char /\ value_head c = true.
Proof.
  destruct c as [[] [] [] [] [] [] [] []]; intros [H|H]; try discriminate H;
    repeat split; first [discriminate | reflexivity].
Qed.

Lemma num_char_cases c :
  c = "-"%char \/ is_digit c = true ->
  c = "-"%char \/ c = "0"%char \/ c = "1"%char \/ c = "2"%char \/ c = "3"%char \/
  c = "4"%char \/ c = "5"%char \/ c = "6"%char \/ c = "7"%char \/ c = "8"%char \/ c = "9"%char.
Proof.
  destruct c as [[] [] [] [] [] [] [] []]; intros [H|H]; try discriminate H;
    repeat (first [left; reflexivity | right]); reflexivity.
Qed.

#[local] Arguments pnumber : simpl never.

(** The parser's dispatch on a number. *)
Lemma pvalue_number f s x r :
  pnumber s = Some (x, r) -> pvalue (S f) s = Some (JNumber x, r).
Proof.
  intros Hs. destruct (pnumber_head _ _ _ Hs) as (c & s' & -> & Hc).
  pose proof (num_char_cases c Hc) as Hcs. destruct_or! Hcs; subst c; simpl; by rewrite Hs.
Qed.

(** ** Documents *)

Definition print_member (kv : string * jvalue) : string :=
  print_string kv.1 ++ ":" ++ print_json kv.2.

Lemma print_object kvs :
  print_json (JObject kvs) = "{" ++ String.concat "," (map print_member kvs) ++ "}".
Proof. reflexivity. Qed.

Lemma concat_cons (x : string) xs :
  String.concat "," (x :: xs) =
    x ++ match xs with [] => EmptyString | _ => "," ++ String.concat "," xs end.
Proof. destruct xs; simpl; [by rewrite sapp_nil_r|done]. Qed.

(** A printed value starts with a character of [value_head]. *)
Lemma print_head v :
  json_wf v = true -> exists c t, print_json v = String c t /\ value_head c = true.
Proof.
  destruct v as [|[]|lit|s|vs|kvs]; simpl; intros Hwf; try (eexists _, _; split; reflexivity).
  apply bool_decide_eq_true in Hwf.
  destruct (pnumber_head _ _ _ Hwf) as (c & s' & -> & Hc). exists c, s'.
  split; [done|]. apply num_head_dispatch, Hc.
Qed.

(** [v] is read back from its text followed by any delimiter, with
    enough fuel. *)
Definition reads_back (v : jvalue) : Prop :=
  forall f r, (jsize v <= f)%nat -> delim_ok r = true ->
    pvalue f (print_json v ++ r) = Some (v, r).

Lemma concat_head (xs : list string) :
  Forall (fun x => exists c t, x = String c t /\ value_head c = true) xs -> xs <> [] ->
  exists c t, String.concat "," xs = String c t /\ value_head c = true.
Proof.
  intros Hall Hne. destruct xs as [|x xs]; [done|]. inversion Hall as [|? ? (c & t & -> & Hc) _]; subst.
  rewrite concat_cons. eexists _, _. split; [reflexivity|done].
Qed.

(** The parser's dispatch on [[] and [{] once the first element or
    member is known to start with a value character. *)
Lemma pvalue_open f (o : ascii) c t :
  value_head c = true -> (o = "["%char \/ o = "{"%char) ->
  pvalue (S f) (String o (String c t)) =
    if decide (o = "{"%char) then
      match pmembers f (String c t) with Some (kvs, r'') => Some (JObject kvs, r'') | None => None end
    else
      match pelems f (String c t) with Some (vs, r'') => Some (JArray vs, r'') | None => None end.
Proof.
  intros Hc Ho. pose proof (value_head_not_ws c Hc) as Hw.
  destruct (value_head_not_close c Hc) as [Hb1 Hb2].
  destruct Ho as [-> | ->]; simpl; rewrite Hw; by rewrite decide_False.
Qed.

Lemma pelems_print vs :
  Forall (fun w => json_wf w = true -> reads_back w) vs -> forallb json_wf vs = true ->
  vs <> [] -> forall f r, (sum_list_with (fun w => S (jsize w)) vs <= f)%nat -> delim_ok r = true ->
  pelems f (String.concat "," (map print_json vs) ++ String "]" r) = Some (vs, r).
Proof.
  induction vs as [|w ws IH]; [done|]. intros Hall Hwf _ f r Hf Hr.
  inversion Hall as [|? ? Hw Hws]; subst. apply andb_true_iff in Hwf as [Hw1 Hws1].
  destruct f as [|f]; [simpl in Hf; lia|]. simpl in Hf.
  change (map print_json (w :: ws)) with (print_json w :: map print_json ws).
  rewrite concat_cons, sapp_assoc. destruct ws as [|w' ws'].
  - simpl. rewrite sapp_nil_l, (Hw Hw1 f (String "]" r)) by (done || lia). done.
  - simpl. rewrite (Hw Hw1 f) by (done || lia). simpl.
    rewrite IH by (done || simpl in *; lia). done.
Qed.

Lemma print_member_app k w s :
  print_member (k, w) ++ s =
    String c_quote (escape k ++ String c_quote (String ":"%char (print_json w ++ s))).
Proof. unfold print_member, print_string. simpl. by autorewrite with heb. Qed.

Lemma pmembers_print kvs :
  Forall (fun kv => json_wf kv.2 = true -> reads_back kv.2) kvs ->
  forallb (fun kv => utf8_ok kv.1 && json_wf kv.2) kvs = true -> kvs <> [] ->
  forall f r, (sum_list_with (fun kv => S (jsize kv.2)) kvs <= f)%nat -> delim_ok r = true ->
  pmembers f (String.concat "," (map print_member kvs) ++ String "}" r) = Some (kvs, r).
Proof.
  induction kvs as [|[k w] kvs IH]; [done|]. intros Hall Hwf _ f r Hf Hr.
  inversion Hall as [|? ? Hw Hws]; subst. apply andb_true_iff in Hwf as [Hw1 Hws1].
  simpl in Hw, Hw1. apply andb_true_iff in Hw1 as [Hk Hw1].
  destruct f as [|f]; [simpl in Hf; lia|]. simpl in Hf.
  change (map print_member ((k, w) :: kvs)) with (print_member (k, w) :: map print_member kvs).
  rewrite concat_cons, sapp_assoc, print_member_app. simpl.
  rewrite pstring_escape by (by apply utf8_ok_sound). simpl.
  destruct kvs as [|kv kvs'].
  - rewrite sapp_nil_l, (Hw Hw1 f (String "}" r)) by (done || lia). done.
  - rewrite (Hw Hw1 f) by (done || lia). simpl.
    rewrite IH by (done || simpl in *; lia). done.
Qed.

Lemma print_heads vs :
  forallb json_wf vs = true ->
  Forall (fun x => exists c t, x = String c t /\ value_head c = true) (map print_json vs).
Proof.
  induction vs as [|w ws IH]; simpl; [constructor|]. intros H.
  apply andb_true_iff in H as [H1 H2]. constructor; [by apply print_head|by apply IH].
Qed.

Lemma member_heads kvs :
  Forall (fun x => exists c t, x = String c t /\ value_head c = true) (map print_member kvs).
Proof.
  induction kvs as [|[k w] kvs IH]; simpl; constructor; [|done].
  eexists _, _. split; [reflexivity|done].
Qed.

(** Every well-formed document is read back from its text. *)
Lemma pvalue_print v : json_wf v = true -> reads_back v.
Proof.
  induction v as [| b | lit | s | vs IH | kvs IH] using jvalue_ind'; intros Hwf f r Hf Hr;
    (destruct f as [|f]; [simpl in Hf; lia|]).
  - reflexivity.
  - destruct b; reflexivity.
  - simpl in Hwf |- *. apply bool_decide_eq_true in Hwf.
    apply pvalue_number, (pnumber_app _ _ _ _ Hwf). auto.
  - unfold print_string. simpl. autorewrite with heb. simpl.
    by rewrite pstring_escape by (by apply utf8_ok_sound).
  - simpl in Hwf, Hf. simpl print_json. autorewrite with heb.
    destruct vs as [|w ws]; [reflexivity|].
    destruct (concat_head _ (print_heads _ Hwf) ltac:(done)) as (c & t & Hct & Hc).
    rewrite Hct, sapp_cons, pvalue_open by auto. simpl.
    rewrite <- sapp_cons, <- Hct, pelems_print by (done || lia). done.
  - simpl in Hwf, Hf. rewrite print_object. autorewrite with heb.
    destruct kvs as [|kv kvs]; [reflexivity|].
    destruct (concat_head _ (member_heads (kv :: kvs)) ltac:(done)) as (c & t & Hct & Hc).
    rewrite Hct, sapp_cons, pvalue_open by auto. simpl.
    rewrite <- sapp_cons, <- Hct, pmembers_print by (done || lia). done.
Qed.

(** ** Fuel *)

Lemma concat_length_bound {A} (g : A -> nat) (pr : A -> string) xs :
  Forall (fun x => g x <= String.length (pr x))%nat xs ->
  (sum_list_with (fun x => S (g x)) xs <= String.length (String.concat "," (map pr xs)) + 1)%nat.
Proof.
  induction xs as [|x xs IH]; intros Hall; [simpl; lia|].
  inversion Hall as [|? ? Hx Hxs]; subst. specialize (IH Hxs).
  cbn [map sum_list_with]. rewrite concat_cons, length_sapp.
  destruct xs as [|y ys]; [simpl; lia|]. cbn [map] in IH |- *.
  rewrite length_sapp. cbn [sum_list_with String.length] in IH |- *. lia.
Qed.

(** The fuel a document needs is at most the length of its text. *)
Lemma jsize_print v : json_wf v = true -> (jsize v <= String.length (print_json v))%nat.
Proof.
  induction v as [| b | lit | s | vs IH | kvs IH] using jvalue_ind'; intros Hwf;
    cbn [json_wf] in Hwf.
  - simpl. lia.
  - destruct b; simpl; lia.
  - apply bool_decide_eq_true in Hwf. destruct (pnumber_head _ _ _ Hwf) as (c & s' & -> & _).
    simpl. lia.
  - simpl. lia.
  - cbn [jsize print_json]. rewrite !length_sapp. cbn [String.length].
    enough (sum_list_with (fun w => S (jsize w)) vs <=
              String.length (String.concat "," (map print_json vs)) + 1)%nat by lia.
    apply concat_length_bound. rewrite Forall_forall in IH |- *. intros w Hw.
    apply IH; [done|]. apply (proj1 (forallb_forall _ _) Hwf). by apply list_elem_of_In.
  - cbn [jsize]. rewrite print_object, !length_sapp. cbn [String.length].
    enough (sum_list_with (fun kv => S (jsize kv.2)) kvs <=
              String.length (String.concat "," (map print_member kvs)) + 1)%nat by lia.
    apply concat_length_bound. rewrite Forall_forall in IH |- *. intros [k w] Hkw.
    assert (jsize w <= String.length (print_json w))%nat
      by (apply (IH (k, w)); [done|];
          apply (andb_prop _ _ (proj1 (forallb_forall _ _) Hwf (k, w) ltac:(by apply list_elem_of_In)))).
    unfold print_member, print_string. simpl. rewrite !length_sapp. simpl. lia.
Qed.

(** Decoding is a left inverse of printing on well-formed documents. *)
Lemma parse_json_print v : json_wf v = true -> parse_json (print_json v) = Some v.
Proof.
  intros Hwf. unfold parse_json. pose proof (jsize_print v Hwf) as Hs.
  pose proof (pvalue_print v Hwf (S (String.length (print_json v))) EmptyString) as Hp.
  rewrite sapp_nil_r in Hp. by rewrite Hp by (done || lia).
Qed.
