(* ===== verification/Console.v ===== *)
(** * Console: the program's observable actions

    Everything the process does that can be observed from outside is an
    [event] of the run's trace: a line printed by [fmt.Print]/[fmt.Println]
    (a [logline], with the literal text of the source's format strings), a
    one-second [time.Sleep], the start of an [http.Get], the close of a
    response body, a call into the audio library, and the calls into the
    [os/signal] package. *)

From S2P Require Import Prelude Json.

Local Open Scope string_scope.

(** The value passed as [err.Error()]: a transport or I/O message, or an
    error of [encoding/json]. *)
Inductive go_err : Type :=
| EMsg (msg : string)
| EJson (e : json_error).

(** One printed line. *)
Inductive logline : Type :=
| LTime (now : string)                 (** [fmt.Print(time.Now(), " -- ")] *)
| LErr (prefix : string) (e : go_err)  (** [fmt.Println(prefix, err.Error())] *)
| LMsg (text : string)                 (** [fmt.Println(text)] *)
| LNoSlots (body : string)             (** [fmt.Println("no slots (", string(body), ")")] *)
| LFound (items : list jvalue).        (** [fmt.Println("********************** ", items)] *)

(** What the operating system did with a SIGINT/SIGTERM. *)
Inductive sig_fate : Type :=
| SigDelivered   (** sent on the registered channel to a waiting receiver *)
| SigDropped     (** registered, but nobody was receiving: the send is skipped *)
| SigKilled.     (** not registered: the default action ends the process *)

Inductive event : Type :=
| EvPrint (l : logline)
| EvSleep                          (** [time.Sleep(time.Second)] *)
| EvGet                            (** [http.Get(...)] is issued *)
| EvClose (body : nat)             (** [resp.Body.Close()] of the [body]-th response *)
| EvSpeakerInit (rate : Z) (buf : Z) (** [speaker.Init(rate, buf)] *)
| EvPlay                           (** [speaker.Play(streamer)] *)
| EvNotify                         (** [signal.Notify(signalStream, ...)] *)
| EvStop                           (** [signal.Stop(signalStream)] *)
| EvCloseChan                      (** [close(signalStream)] *)
| EvCancel                         (** the [CancelFunc] is called *)
| EvSignal (f : sig_fate).         (** a termination signal arrives *)

#[export] Instance go_err_eq_dec : EqDecision go_err.
Proof. solve_decision. Defined.
#[export] Instance logline_eq_dec : EqDecision logline.
Proof. solve_decision. Defined.
#[export] Instance sig_fate_eq_dec : EqDecision sig_fate.
Proof. solve_decision. Defined.
#[export] Instance event_eq_dec : EqDecision event.
Proof. solve_decision. Defined.

(** Boolean recognisers used to count events of a trace. *)
Definition is_get (e : event) : bool := match e with EvGet => true | _ => false end.
Definition is_sleep (e : event) : bool := match e with EvSleep => true | _ => false end.
Definition is_cancel (e : event) : bool := match e with EvCancel => true | _ => false end.
Definition is_stop (e : event) : bool := match e with EvStop => true | _ => false end.
Definition is_close (e : event) : bool := match e with EvClose _ => true | _ => false end.
Definition is_play (e : event) : bool := match e with EvPlay => true | _ => false end.
Definition is_print (e : event) : bool := match e with EvPrint _ => true | _ => false end.
Definition is_no_slots (e : event) : bool :=
  match e with EvPrint (LNoSlots _) => true | _ => false end.
Definition is_closechan (e : event) : bool := match e with EvCloseChan => true | _ => false end.
Definition is_delivered (e : event) : bool :=
  match e with EvSignal SigDelivered => true | _ => false end.
Definition is_dropped (e : event) : bool :=
  match e with EvSignal SigDropped => true | _ => false end.

(** The events a goroutine of the poll loop can produce: console output,
    sleeps, fetches, body closes and audio calls. *)
Definition poll_event (e : event) : bool :=
  match e with
  | EvPrint _ | EvSleep | EvGet | EvClose _ | EvSpeakerInit _ _ | EvPlay => true
  | _ => false
  end.

Lemma poll_events_uncounted (p : event -> bool) l :
  (forall e, poll_event e = true -> p e = false) ->
  Forall (fun e => poll_event e = true) l -> count_ev p l = 0%nat.
Proof.
  intros Hp Hl. apply count_ev_none. eapply Forall_impl; [exact Hl|]. auto.
Qed.
