(* ===== verification/Sound.v ===== *)
(** * Sound: the notification trigger [playSound] (lines 54-66)

    [playSound] opens ["167.wav"], returns silently if that fails, decodes
    it with [wav.Decode] and prints the error if that fails, and otherwise
    initialises the speaker with the stream's sample rate and a buffer of
    [format.SampleRate.N(time.Second/10)] samples (ignoring the error of
    [speaker.Init]) and starts playback without waiting for it.

    The file system and the WAV decoder are external: their answers are the
    [audio_env] input.  [SampleRate.N] of the audio library computes
    [int(d * time.Duration(sr) / time.Second)] on int64 durations; it is
    written out here with the int64 wrap-around of the product, because the
    buffer size is the only arithmetic of the function that can overflow. *)

From S2P Require Import Prelude Json Console.

Local Open Scope Z_scope.

(** ** int64 arithmetic *)

Definition int64_min : Z := - 2 ^ 63.
Definition int64_max : Z := 2 ^ 63 - 1.

(** Two's-complement wrap-around of a 64-bit signed product. *)
Definition wrap64 (z : Z) : Z := (z + 2 ^ 63) mod 2 ^ 64 - 2 ^ 63.

Lemma wrap64_range z : int64_min <= wrap64 z <= int64_max.
Proof.
  unfold wrap64, int64_min, int64_max.
  pose proof (Z.mod_pos_bound (z + 2 ^ 63) (2 ^ 64)). lia.
Qed.

Lemma wrap64_small z : int64_min <= z <= int64_max -> wrap64 z = z.
Proof.
  unfold wrap64, int64_min, int64_max. intros Hz.
  rewrite Z.mod_small; lia.
Qed.

(** [time.Second] and [time.Second/10] in nanoseconds. *)
Definition second_ns : Z := 1000000000.
Definition tenth_ns : Z := Z.quot second_ns 10.

(** [beep.SampleRate.N(d)]: [int(d * time.Duration(sr) / time.Second)]; Go's
    integer division truncates toward zero ([Z.quot]). *)
Definition sample_rate_N (sr d : Z) : Z := Z.quot (wrap64 (d * sr)) second_ns.

(** The buffer size passed to [speaker.Init] on line 64. *)
Definition buffer_size (sr : Z) : Z := sample_rate_N sr tenth_ns.

(** ** [playSound] *)

Record wav_format := mk_format { sample_rate : Z }.

(** The answers of the outside world to [playSound]'s calls: [os.Open]
    succeeds or fails with a message, and [wav.Decode] of the opened file
    gives a format or an error message. *)
Record audio_env := mk_audio_env {
  open_result : result unit string;
  decode_result : result wav_format string
}.

Definition playSound (env : audio_env) : list event :=
  match open_result env with
  | Err _ => []
  | Ok _ =>
      match decode_result env with
      | Err msg => [EvPrint (LErr "wav.Decode err: " (EMsg msg))]
      | Ok fmt =>
          [EvSpeakerInit (sample_rate fmt) (buffer_size (sample_rate fmt)); EvPlay]
      end
  end%string.

(** ** Properties *)

(** C29 The speaker buffer is a tenth of a second of samples, [sr / 10],
    for every sample rate up to the int64 limit of the product
    [100000000 * sr]. *)
Theorem buffer_size_tenth (sr : Z) :
  0 <= sr <= 92233720368 -> buffer_size sr = sr / 10.
Proof.
  intros Hsr. unfold buffer_size, sample_rate_N, tenth_ns, second_ns.
  change (Z.quot 1000000000 10) with 100000000.
  rewrite wrap64_small by (unfold int64_min, int64_max; lia).
  rewrite Z.quot_div_nonneg by lia.
  change 1000000000 with (100000000 * 10).
  apply Z.div_mul_cancel_l; lia.
Qed.

Lemma buffer_size_tenth_witness : buffer_size 44100 = 4410.
Proof. apply (buffer_size_tenth 44100). lia. Defined.

(** Past the limit the int64 product wraps and the buffer size is
    negative. *)
Example buffer_size_wraps : buffer_size 92233720369 = -9223372036.
Proof. vm_compute. reflexivity. Qed.

(** Playback starts exactly when both the file and its decoding succeed. *)
Lemma playSound_plays (env : audio_env) :
  count_ev is_play (playSound env) =
    match open_result env, decode_result env with
    | Ok _, Ok _ => 1%nat
    | _, _ => 0%nat
    end.
Proof.
  unfold playSound. by destruct (open_result env), (decode_result env).
Qed.
