(* ===== verification/Check.v ===== *)
(** * Check: one iteration's fetch, decode, inspect and act (lines 89-132)

    After the wait phase, an iteration prints the time (line 89), issues the
    [http.Get] (line 91), and then takes exactly one of seven branches:
    transport error, read error, decode error, missing [items], [items] not
    an array, empty array, or non-empty array (which calls [playSound] and
    prints the items).  Every error branch prints one line and [continue]s.

    The answers of the outside world are inputs: the [get_result] of
    [http.Get] (with the [ioutil.ReadAll] result of its body), the time
    string, and the [audio_env] of [playSound].  The decoder is the
    [JsonDecoder] interface, so the theorems hold for any decoder; the
    witnesses run the parser [go_json]. *)

From S2P Require Import Prelude Json JsonPrint Console Sound.

Local Open Scope string_scope.

(** The response of a successful [http.Get]: what [ioutil.ReadAll] of its
    body returns. *)
Record response := mk_response { resp_read : result string string }.

(** [resp, err := http.Get(...)]. *)
Definition get_result := result response string.

(** The branch an iteration takes. *)
Inductive outcome : Type :=
| OGetErr (msg : string)          (** lines 92-95 *)
| OReadErr (msg : string)         (** lines 102-105 *)
| OUnmarshalErr (e : json_error)  (** lines 109-112 *)
| OItemsMissing                   (** lines 115-118 *)
| OTypeAssertFailed               (** lines 121-124 *)
| ONoSlots (body : string)        (** lines 126-129 *)
| OFound (items : list jvalue).   (** lines 131-132 *)

Section Check.
Context `{JsonDecoder}.

(** Lines 107-129: decode the body and look at its [items] member. *)
Definition inspect (body : string) : outcome :=
  match unmarshal_map body with
  | Err e => OUnmarshalErr e
  | Ok result =>
      match result !! "items" with
      | None => OItemsMissing
      | Some (JArray items) =>
          if decide (length items = 0%nat) then ONoSlots body else OFound items
      | Some _ => OTypeAssertFailed
      end
  end.

(** Lines 91-129 without the side effects: the branch taken. *)
Definition check (g : get_result) : outcome :=
  match g with
  | Err msg => OGetErr msg
  | Ok resp =>
      match resp_read resp with
      | Err msg => OReadErr msg
      | Ok body => inspect body
      end
  end.

(** What each branch prints and does; the decode-error branch reuses the
    read-error prefix (line 110). *)
Definition outcome_events (aenv : audio_env) (o : outcome) : list event :=
  match o with
  | OGetErr m => [EvPrint (LErr "http.Get err: " (EMsg m))]
  | OReadErr m => [EvPrint (LErr "ioutil.ReadAll err: " (EMsg m))]
  | OUnmarshalErr e => [EvPrint (LErr "ioutil.ReadAll err: " (EJson e))]
  | OItemsMissing => [EvPrint (LMsg "items missing from response")]
  | OTypeAssertFailed => [EvPrint (LMsg "type assertion failed")]
  | ONoSlots b => [EvPrint (LNoSlots b)]
  | OFound items => (playSound aenv ++ [EvPrint (LFound items)])%list
  end.

(** Lines 89-132: one check-and-act sequence. *)
Definition iteration_events (now : string) (g : get_result) (aenv : audio_env)
  : list event :=
  EvPrint (LTime now) :: EvGet :: outcome_events aenv (check g).

(** Line 97: a successful [http.Get] registers a deferred
    [resp.Body.Close()]. *)
Definition opens_body (g : get_result) : bool :=
  match g with Ok _ => true | Err _ => false end.
End Check.

(** ** The member a Go map keeps *)

(** The value of the last member named [k], which is the one
    [json.Unmarshal] stores. *)
Fixpoint assoc_last (k : string) (kvs : list (string * jvalue)) : option jvalue :=
  match kvs with
  | [] => None
  | (k', v) :: kvs' =>
      match assoc_last k kvs' with
      | Some w => Some w
      | None => if decide (k = k') then Some v else None
      end
  end.

Lemma go_map_foldl_lookup (m : gmap string jvalue) kvs k :
  foldl (fun m kv => <[kv.1 := kv.2]> m) m kvs !! k =
    match assoc_last k kvs with Some w => Some w | None => m !! k end.
Proof.
  revert m. induction kvs as [|[k' v] kvs IH]; intros m; simpl; [done|].
  rewrite IH. destruct (assoc_last k kvs); [done|].
  case_decide as Hk; subst.
  - by rewrite lookup_insert_eq.
  - by rewrite lookup_insert_ne.
Qed.

(** [go_map] implements the association-list reading of the object. *)
Lemma go_map_lookup kvs k : go_map kvs !! k = assoc_last k kvs.
Proof.
  unfold go_map. rewrite go_map_foldl_lookup.
  destruct (assoc_last k kvs); [done|]. by rewrite lookup_empty.
Qed.

#[export] Hint Rewrite go_map_lookup : heb.

(** ** Properties of an iteration *)

Section CheckProps.
Context `{JsonDecoder}.

(** The branch taken on a body that decodes to an object depends only
    on the last [items] member. *)
Lemma inspect_object body kvs :
  json_decode body = Some (JObject kvs) -> number_error (JObject kvs) = None ->
  inspect body =
    match assoc_last "items" kvs with
    | None => OItemsMissing
    | Some (JArray items) =>
        if decide (length items = 0%nat) then ONoSlots body else OFound items
    | Some _ => OTypeAssertFailed
    end.
Proof.
  intros Hd Hn. unfold inspect, unmarshal_map. rewrite Hd, Hn, go_map_lookup. done.
Qed.

Lemma iteration_body now body aenv :
  iteration_events now (Ok (mk_response (Ok body))) aenv =
    EvPrint (LTime now) :: EvGet :: outcome_events aenv (inspect body).
Proof. done. Qed.

(** C1 The notification decision: a body leads to [playSound] exactly
    when it decodes to an object whose numbers all fit a float64 and whose
    [items] member (the last one, if repeated) is a non-empty array. *)
Theorem inspect_found_iff body items :
  inspect body = OFound items <->
  exists kvs, json_decode body = Some (JObject kvs) /\
              number_error (JObject kvs) = None /\
              assoc_last "items" kvs = Some (JArray items) /\ items <> [].
Proof.
  split.
  - unfold inspect, unmarshal_map.
    destruct (json_decode body) as [[| | | | |kvs]|] eqn:Hd; try discriminate.
    destruct (number_error (JObject kvs)) eqn:Hn; [discriminate|].
    rewrite go_map_lookup.
    destruct (assoc_last "items" kvs) as [[| | | |vs|]|] eqn:Hi; try discriminate.
    case_decide as Hl; [discriminate|]. intros [= <-].
    exists kvs. split_and!; [done..|]. intros ->. by apply Hl.
  - intros (kvs & Hd & Hn & Hi & Hne). rewrite (inspect_object _ _ Hd Hn), Hi.
    case_decide as Hl; [|done]. destruct items; [done|discriminate].
Qed.

(** C25 An object whose [items] member is an empty array prints the
    empty-result line with the raw body and does not notify. *)
Theorem iteration_no_slots now body aenv kvs :
  json_decode body = Some (JObject kvs) -> number_error (JObject kvs) = None ->
  assoc_last "items" kvs = Some (JArray []) ->
  iteration_events now (Ok (mk_response (Ok body))) aenv =
    [EvPrint (LTime now); EvGet; EvPrint (LNoSlots body)].
Proof.
  intros Hd Hn Hi. rewrite iteration_body, (inspect_object _ _ Hd Hn), Hi. done.
Qed.

(** C24 A non-empty [items] array runs [playSound] once and then prints
    the items. *)
Theorem iteration_found now body aenv kvs items :
  json_decode body = Some (JObject kvs) -> number_error (JObject kvs) = None ->
  assoc_last "items" kvs = Some (JArray items) -> items <> [] ->
  iteration_events now (Ok (mk_response (Ok body))) aenv =
    ([EvPrint (LTime now); EvGet] ++ playSound aenv ++ [EvPrint (LFound items)])%list.
Proof.
  intros Hd Hn Hi Hne. rewrite iteration_body, (inspect_object _ _ Hd Hn), Hi.
  case_decide as Hl; [destruct items; [done|discriminate]|]. done.
Qed.

(** C27 A body without an [items] member (an object lacking it, or
    [null]) prints the missing-field line and does not notify. *)
Theorem iteration_items_missing now body aenv :
  (json_decode body = Some JNull \/
   exists kvs, json_decode body = Some (JObject kvs) /\
               number_error (JObject kvs) = None /\ assoc_last "items" kvs = None) ->
  iteration_events now (Ok (mk_response (Ok body))) aenv =
    [EvPrint (LTime now); EvGet; EvPrint (LMsg "items missing from response")].
Proof.
  intros [Hd | (kvs & Hd & Hn & Hi)]; rewrite iteration_body.
  - unfold inspect, unmarshal_map. rewrite Hd, lookup_empty. done.
  - rewrite (inspect_object _ _ Hd Hn), Hi. done.
Qed.

(** C28 An [items] member that is not an array fails the type assertion
    and does not notify. *)
Theorem iteration_type_assert now body aenv kvs v :
  json_decode body = Some (JObject kvs) -> number_error (JObject kvs) = None ->
  assoc_last "items" kvs = Some v -> (forall vs, v <> JArray vs) ->
  iteration_events now (Ok (mk_response (Ok body))) aenv =
    [EvPrint (LTime now); EvGet; EvPrint (LMsg "type assertion failed")].
Proof.
  intros Hd Hn Hi Hv. rewrite iteration_body, (inspect_object _ _ Hd Hn), Hi.
  destruct v; try done. by destruct (Hv vs).
Qed.

(** C26 A body that is not JSON text is reported and the iteration ends
    without notifying; the line carries the [ioutil.ReadAll] prefix of
    the read-error branch, so the two failures print alike. *)
Theorem iteration_decode_error now body aenv :
  json_decode body = None ->
  iteration_events now (Ok (mk_response (Ok body))) aenv =
    [EvPrint (LTime now); EvGet;
     EvPrint (LErr "ioutil.ReadAll err: " (EJson SyntaxError))].
Proof.
  intros Hd. rewrite iteration_body. unfold inspect, unmarshal_map. by rewrite Hd.
Qed.

(** C17 An object holding a number out of float64 range, anywhere and
    even under a key a later member overwrites, is reported with the
    first such literal on the line-110 branch, whatever its [items]
    member says, and the iteration does not notify. *)
Theorem iteration_number_error now body aenv kvs lit :
  json_decode body = Some (JObject kvs) -> number_error (JObject kvs) = Some lit ->
  iteration_events now (Ok (mk_response (Ok body))) aenv =
    [EvPrint (LTime now); EvGet;
     EvPrint (LErr "ioutil.ReadAll err: " (EJson (UnmarshalNumberError lit)))].
Proof.
  intros Hd Hn. rewrite iteration_body. unfold inspect, unmarshal_map. by rewrite Hd, Hn.
Qed.

(** Only the non-empty-items branch can start playback. *)
Lemma iteration_plays now g aenv :
  count_ev is_play (iteration_events now g aenv) =
    match check g with
    | OFound _ => count_ev is_play (playSound aenv)
    | _ => 0%nat
    end.
Proof.
  unfold iteration_events. rewrite !count_ev_cons. simpl.
  destruct (check g); simpl; try done.
  rewrite count_ev_app, count_ev_cons, count_ev_nil. simpl. lia.
Qed.

(** An iteration issues exactly one fetch. *)
Lemma iteration_gets now g aenv :
  count_ev is_get (iteration_events now g aenv) = 1%nat.
Proof.
  unfold iteration_events. rewrite !count_ev_cons. simpl.
  destruct (check g); simpl; try done.
  rewrite count_ev_app, count_ev_cons, count_ev_nil.
  unfold playSound.
  destruct (open_result aenv), (decode_result aenv); done.
Qed.

End CheckProps.

(** ** The specification's examples, on the parser [go_json] *)

Definition body_empty : string := sq "{'items': []}".
Definition body_slot : string := sq "{'items': [{'slot': '9am'}]}".
Definition body_other : string := sq "{'other': 1}".
Definition body_truncated : string := sq "{'items': [{'slot'".
Definition body_null_items : string := sq "{'items': null}".
Definition body_dup : string := sq "{'items': [], 'items': [1]}".
Definition body_overflow : string := sq "{'items': [{'slot': '9am'}], 'store': -1e400}".

(** An audio environment in which the sound plays. *)
Definition audio_ok : audio_env := mk_audio_env (Ok tt) (Ok (mk_format 44100)).

Lemma inspect_found_iff_witness :
  inspect body_dup = OFound [JNumber "1"].
Proof.
  apply (proj2 (inspect_found_iff body_dup [JNumber "1"])).
  exists [("items", JArray []); ("items", JArray [JNumber "1"])].
  vm_compute. split_and!; [reflexivity..|discriminate].
Defined.

Lemma iteration_no_slots_witness :
  iteration_events "t" (Ok (mk_response (Ok body_empty))) audio_ok =
    [EvPrint (LTime "t"); EvGet; EvPrint (LNoSlots body_empty)].
Proof.
  apply (iteration_no_slots _ _ _ [("items", JArray [])]); vm_compute; reflexivity.
Defined.

Lemma iteration_found_witness :
  iteration_events "t" (Ok (mk_response (Ok body_slot))) audio_ok =
    ([EvPrint (LTime "t"); EvGet] ++ playSound audio_ok ++
     [EvPrint (LFound [JObject [("slot", JString "9am")]])])%list.
Proof.
  apply (iteration_found _ _ _ [("items", JArray [JObject [("slot", JString "9am")]])]);
    vm_compute; [reflexivity|reflexivity|reflexivity|discriminate].
Defined.

Lemma iteration_items_missing_witness :
  iteration_events "t" (Ok (mk_response (Ok body_other))) audio_ok =
    [EvPrint (LTime "t"); EvGet; EvPrint (LMsg "items missing from response")].
Proof.
  apply iteration_items_missing. right.
  exists [("other", JNumber "1")]. vm_compute. split_and!; reflexivity.
Defined.

Lemma iteration_type_assert_witness :
  iteration_events "t" (Ok (mk_response (Ok body_null_items))) audio_ok =
    [EvPrint (LTime "t"); EvGet; EvPrint (LMsg "type assertion failed")].
Proof.
  apply (iteration_type_assert _ _ _ [("items", JNull)] JNull);
    [vm_compute; reflexivity..|discriminate].
Defined.

Lemma iteration_decode_error_witness :
  iteration_events "t" (Ok (mk_response (Ok body_truncated))) audio_ok =
    [EvPrint (LTime "t"); EvGet;
     EvPrint (LErr "ioutil.ReadAll err: " (EJson SyntaxError))].
Proof. apply iteration_decode_error. vm_compute. reflexivity. Defined.

(** ** Every document the server can send *)

(** C16 The decision on every well-formed document, sent as JSON text
    and decoded by [go_json]: [null] and objects without [items] take the
    missing-field branch, any other value that is not an object is an
    unmarshal type error, an object holding a number out of float64 range
    is an unmarshal error naming the first such literal, an [items]
    member that is not an array fails the type assertion, and an [items]
    array leads to [playSound] exactly when it is non-empty (the last
    [items] member counting). *)
Theorem inspect_document v :
  json_wf v = true ->
  inspect (print_json v) =
    match v with
    | JNull => OItemsMissing
    | JObject kvs =>
        match number_error v with
        | Some lit => OUnmarshalErr (UnmarshalNumberError lit)
        | None =>
            match assoc_last "items" kvs with
            | None => OItemsMissing
            | Some (JArray []) => ONoSlots (print_json v)
            | Some (JArray items) => OFound items
            | Some _ => OTypeAssertFailed
            end
        end
    | _ => OUnmarshalErr (UnmarshalTypeError (json_kind v))
    end.
Proof.
  intros Hwf. unfold inspect, unmarshal_map, json_decode, go_json.
  rewrite parse_json_print by done.
  destruct v as [| | | | |kvs]; try done.
  destruct (number_error (JObject kvs)); [done|].
  rewrite go_map_lookup. destruct (assoc_last "items" kvs) as [[| | | |[|w ws]|]|]; done.
Qed.

(** A document announcing one slot. *)
Definition doc_slot : jvalue :=
  JObject [("store", JNumber "659"); ("items", JArray [JObject [("slot", JString "9am")]])].

Lemma inspect_document_witness :
  json_wf doc_slot = true /\
  inspect (print_json doc_slot) = OFound [JObject [("slot", JString "9am")]].
Proof.
  assert (Hwf : json_wf doc_slot = true) by reflexivity.
  split; [exact Hwf|]. rewrite (inspect_document doc_slot Hwf). reflexivity.
Defined.

Lemma iteration_number_error_witness :
  iteration_events "t" (Ok (mk_response (Ok body_overflow))) audio_ok =
    [EvPrint (LTime "t"); EvGet;
     EvPrint (LErr "ioutil.ReadAll err: " (EJson (UnmarshalNumberError "-1e400")))].
Proof.
  apply (iteration_number_error _ _ _
           [("items", JArray [JObject [("slot", JString "9am")]]); ("store", JNumber "-1e400")]);
    vm_compute; reflexivity.
Defined.
