(* ===== verification/PollLoop.v ===== *)
(** * PollLoop: the poll goroutine of [main] (lines 73-134)

    The goroutine is a machine with one program point per statement that
    reads shared state or acts on the outside world:
    - [PStart]: [timeout := 0] (line 77);
    - [PWaitTest]: the test [i < timeout] of the wait loop (line 79);
    - [PSelect]: the [select] of lines 80-85, the only place the context is
      read: [return] if [ctx.Done()] is ready, otherwise sleep one second
      and [i++];
    - [PDraw]: [timeout = 25 + rand.Intn(10)] (line 87);
    - [PFetch]: lines 89-132, one check-and-act sequence ([Check]); a
      successful [http.Get] pushes a deferred [resp.Body.Close()]
      (line 97); every branch ends the iteration, and the next one
      restarts the wait loop with [i := 0];
    - [PReturn]: the [return] of line 82 runs the deferred closes, last
      registered first (and then [wg.Done()], which [Main] performs);
    - [PDone]: the goroutine has exited.

    [poll_step ctx_done inp p] is one step; [ctx_done] is what the [select]
    reads and [inp] the answers of the outside world to a fetch.  The
    random source and the JSON decoder are the interfaces of [Interval] and
    [Json]. *)

From S2P Require Import Prelude Interval Json Console Sound Check.

Local Open Scope Z_scope.

Inductive ppc : Type :=
| PStart | PWaitTest | PSelect | PDraw | PFetch | PReturn | PDone.

#[export] Instance ppc_eq_dec : EqDecision ppc.
Proof. solve_decision. Defined.

(** The answers of the outside world to one iteration: the time printed,
    the result of [http.Get] and [ioutil.ReadAll], and what [playSound]
    meets. *)
Record fetch_input := mk_fetch_input {
  fi_now : string;
  fi_get : get_result;
  fi_audio : audio_env
}.

Section PollLoop.
Context {R : Type} `{IntnSource R} `{JsonDecoder}.

(** The goroutine's state: program point, the locals [timeout] and [i],
    the deferred closes (most recent first, each naming its response),
    the number of responses obtained so far, and the random source. *)
Record poll := mk_poll {
  p_pc : ppc;
  p_timeout : Z;
  p_i : Z;
  p_defers : list nat;
  p_nresp : nat;
  p_rng : R
}.

Definition poll_init (r : R) : poll := mk_poll PStart 0 0 [] 0 r.

Definition poll_step (ctx_done : bool) (inp : fetch_input) (p : poll)
  : option (poll * list event) :=
  let 'mk_poll pc t i ds n r := p in
  match pc with
  | PStart => Some (mk_poll PWaitTest 0 0 ds n r, [])
  | PWaitTest =>
      if decide (i < t) then Some (mk_poll PSelect t i ds n r, [])
      else Some (mk_poll PDraw t i ds n r, [])
  | PSelect =>
      if ctx_done then Some (mk_poll PReturn t i ds n r, [])
      else Some (mk_poll PWaitTest t (i + 1) ds n r, [EvSleep])
  | PDraw =>
      let '(t', r') := next_timeout r in Some (mk_poll PFetch t' i ds n r', [])
  | PFetch =>
      let g := fi_get inp in
      Some (mk_poll PWaitTest t 0
              (if opens_body g then n :: ds else ds)
              (if opens_body g then S n else n) r,
            iteration_events (fi_now inp) g (fi_audio inp))
  | PReturn => Some (mk_poll PDone t i ds n r, map EvClose ds)
  | PDone => None
  end.

(** Runs the machine on a list of inputs, one step per input, with the
    context's state fixed; it stops at [PDone]. *)
Fixpoint poll_exec (ctx_done : bool) (ins : list fetch_input) (p : poll)
  : poll * list event :=
  match ins with
  | [] => (p, [])
  | inp :: ins' =>
      match poll_step ctx_done inp p with
      | None => (p, [])
      | Some (p', evs) =>
          let '(p'', tr) := poll_exec ctx_done ins' p' in (p'', evs ++ tr)
      end
  end%list.

(** ** The invariant *)

(** The timeout is 0 only before the first draw; afterwards it is a
    drawn value. *)
Definition timeout_ok (p : poll) : Prop :=
  (p_pc p = PStart /\ p_nresp p = 0%nat /\ p_i p = 0 /\ p_timeout p = 0)
  \/ (p_timeout p = 0 /\ p_i p = 0 /\ p_nresp p = 0%nat /\
      (p_pc p = PWaitTest \/ p_pc p = PDraw))
  \/ (p_pc p <> PStart /\ 25 <= p_timeout p <= 34).

(** The wait loop's counter stays in range. *)
Definition counter_ok (p : poll) : Prop :=
  0 <= p_i p /\
  (p_pc p = PWaitTest -> p_i p <= p_timeout p) /\
  (p_pc p = PSelect -> p_i p < p_timeout p).

(** Every response obtained is still waiting for its deferred close, the
    latest first. *)
Definition defers_ok (p : poll) : Prop :=
  p_defers p = rev (seq 0 (p_nresp p)).

Definition poll_inv (p : poll) : Prop :=
  timeout_ok p /\ counter_ok p /\ defers_ok p.

(** ** Budgets when the context is done *)

(** How many more fetches the goroutine can start once [ctx.Done()] is
    ready: one if it has not yet reached the [select] of its current
    wait phase, none otherwise. *)
Definition fetch_budget (p : poll) : nat :=
  match p_pc p with
  | PStart | PDraw | PFetch => 1
  | PWaitTest => if decide (p_i p < p_timeout p) then 0 else 1
  | PSelect | PReturn | PDone => 0
  end.

(** An upper bound on the goroutine's remaining steps once [ctx.Done()]
    is ready. *)
Definition steps_left (p : poll) : nat :=
  match p_pc p with
  | PDone => 0
  | PReturn => 1
  | PSelect => 2
  | PWaitTest => if decide (p_i p < p_timeout p) then 3 else 6
  | PFetch => 4
  | PDraw => 5
  | PStart => 7
  end.
End PollLoop.

Arguments poll R : clear implicits.

(** ** Sleep gaps between fetches

    [sleep_gaps tr] lists, for every fetch of the trace, the number of
    one-second sleeps since the previous fetch (or since the start);
    [pending_sleeps tr] counts the sleeps after the last fetch. *)
Fixpoint gaps_from (k : nat) (tr : list event) : list nat :=
  match tr with
  | [] => []
  | EvGet :: tr' => k :: gaps_from 0 tr'
  | EvSleep :: tr' => gaps_from (S k) tr'
  | _ :: tr' => gaps_from k tr'
  end.

Fixpoint pending_from (k : nat) (tr : list event) : nat :=
  match tr with
  | [] => k
  | EvGet :: tr' => pending_from 0 tr'
  | EvSleep :: tr' => pending_from (S k) tr'
  | _ :: tr' => pending_from k tr'
  end.

Definition sleep_gaps (tr : list event) : list nat := gaps_from 0 tr.
Definition pending_sleeps (tr : list event) : nat := pending_from 0 tr.

Lemma gaps_from_app k l1 l2 :
  gaps_from k (l1 ++ l2) = gaps_from k l1 ++ gaps_from (pending_from k l1) l2.
Proof.
  revert k. induction l1 as [|e l1 IH]; intros k; [done|].
  destruct e; simpl; rewrite ?IH; done.
Qed.

Lemma pending_from_app k l1 l2 :
  pending_from k (l1 ++ l2) = pending_from (pending_from k l1) l2.
Proof.
  revert k. induction l1 as [|e l1 IH]; intros k; [done|].
  destruct e; simpl; rewrite ?IH; done.
Qed.

(** Events without sleeps and fetches leave both counts alone. *)
Definition quiet (e : event) : Prop := e <> EvSleep /\ e <> EvGet.

Lemma gaps_from_quiet k l : Forall quiet l -> gaps_from k l = [].
Proof.
  induction 1 as [|e l [H1 H2] _ IH]; [done|]. destruct e; simpl; congruence.
Qed.

Lemma pending_from_quiet k l : Forall quiet l -> pending_from k l = k.
Proof.
  induction 1 as [|e l [H1 H2] _ IH]; [done|]. destruct e; simpl; congruence.
Qed.

Lemma playSound_quiet aenv : Forall quiet (playSound aenv).
Proof.
  unfold playSound, quiet.
  destruct (open_result aenv), (decode_result aenv); repeat constructor; discriminate.
Qed.

Lemma outcome_events_quiet `{JsonDecoder} aenv o : Forall quiet (outcome_events aenv o).
Proof.
  unfold quiet. destruct o; simpl; repeat constructor; try discriminate.
  apply Forall_app. split; [apply playSound_quiet|]. repeat constructor; discriminate.
Qed.

Lemma iteration_gaps `{JsonDecoder} k now g aenv :
  gaps_from k (iteration_events now g aenv) = [k] /\
  pending_from k (iteration_events now g aenv) = 0%nat.
Proof.
  unfold iteration_events. simpl.
  rewrite gaps_from_quiet, pending_from_quiet by apply outcome_events_quiet. done.
Qed.

Lemma closes_quiet ds : Forall quiet (map EvClose ds).
Proof. apply Forall_forall. intros e He. apply list_elem_of_In, in_map_iff in He.
  destruct He as (? & <- & _). split; discriminate. Qed.

(** The shape of the gaps: the first fetch comes with no sleep before
    it, and every later one after 25 to 34 sleeps. *)
Definition gaps_ok (gs : list nat) : Prop :=
  match gs with
  | [] => True
  | g0 :: gs' => g0 = 0%nat /\ Forall (fun g => 25 <= g <= 34)%nat gs'
  end.

Lemma gaps_from_length k tr : length (gaps_from k tr) = count_ev is_get tr.
Proof.
  revert k. induction tr as [|e tr IH]; intros k; [done|].
  rewrite count_ev_cons. destruct e; simpl; rewrite ?IH; done.
Qed.

Lemma gaps_ok_snoc gs x :
  gaps_ok gs -> (gs = [] -> x = 0%nat) -> (gs <> [] -> 25 <= x <= 34)%nat ->
  gaps_ok (gs ++ [x]).
Proof.
  destruct gs as [|g0 gs]; simpl; [intros _ H _; by rewrite H|].
  intros [-> Hf] _ Hx. split; [done|]. apply Forall_app. split; [done|].
  constructor; [apply Hx; discriminate|constructor].
Qed.

(** ** Closes of response bodies *)

Definition is_close_of (k : nat) (e : event) : bool := bool_decide (e = EvClose k).

Lemma count_close_of_le k l : (count_ev (is_close_of k) l <= count_ev is_close l)%nat.
Proof.
  induction l as [|e l IH]; [done|]. rewrite !count_ev_cons.
  unfold is_close_of at 1. case_bool_decide; subst; simpl; [lia|].
  destruct (is_close e); lia.
Qed.

Lemma count_close_of_defers k n :
  count_ev (is_close_of k) (map EvClose (rev (seq 0 n))) =
    if decide (k < n)%nat then 1%nat else 0%nat.
Proof.
  induction n as [|n IH]; [done|].
  rewrite seq_S, rev_app_distr. simpl. rewrite count_ev_cons, IH.
  unfold is_close_of. case_bool_decide as Hk; [injection Hk as ->|];
    repeat case_decide; try lia.
  assert (k <> n) by congruence. lia.
Qed.

Section PollLoopProps.
Context {R : Type} `{IntnLaws R} `{JsonDecoder}.

(** Case analysis on one step: the program point, the tests it makes, and
    the equation of the step. *)
Ltac poll_step_cases :=
  match goal with
  | Hs : poll_step ?cd _ ?p = Some _ |- _ =>
      destruct p as [[] t i ds n r]; cbn [poll_step] in Hs;
      [ invc Hs
      | destruct (decide (i < t)); invc Hs
      | destruct cd; invc Hs
      | let E := fresh "E" in destruct (next_timeout r) eqn:E; invc Hs
      | invc Hs
      | invc Hs
      | discriminate ]
  end.

Ltac counter_tac := repeat split; intros; try discriminate; lia.
Ltac timeout_tac :=
  solve [left; repeat split; done | right; left; repeat split; auto
        | right; right; split; [discriminate|lia]].

Lemma poll_init_inv (r : R) : poll_inv (poll_init r).
Proof.
  unfold poll_inv, timeout_ok, counter_ok, defers_ok. simpl. split; [by left|].
  repeat split; try lia; try (intros [=]); done.
Qed.

(** Every step keeps the invariant. *)
Lemma poll_step_inv cd inp (p p' : poll R) evs :
  poll_inv p -> poll_step cd inp p = Some (p', evs) -> poll_inv p'.
Proof.
  unfold poll_inv, timeout_ok, counter_ok, defers_ok.
  destruct p as [pc t i ds n r]; simpl.
  intros (Ht & (Hi0 & Hiw & His) & Hd) Hs.
  destruct pc; simpl in Hs.
  - invc Hs; simpl.
    destruct Ht as [(_ & -> & -> & ->)|[(_ & _ & _ & [])|[]]]; try discriminate; try congruence.
    split; [timeout_tac|]. split; [counter_tac|done].
  - case_decide as Hlt; invc Hs; simpl.
    + split; [destruct Ht as [[]|[(-> & -> & _)|[_ ?]]]; [discriminate|lia|timeout_tac]|].
      split; [counter_tac|done].
    + split; [destruct Ht as [[]|[(? & ? & ? & _)|[_ ?]]]; [discriminate|timeout_tac|timeout_tac]|].
      split; [counter_tac|done].
  - specialize (His eq_refl).
    destruct Ht as [[]|[(-> & _ & _ & [])|[_ ?]]]; try discriminate; try lia;
      destruct cd; invc Hs; simpl; (split; [timeout_tac|split; [counter_tac|done]]).
  - destruct (next_timeout r) as [t' r'] eqn:E. invc Hs; simpl.
    apply next_timeout_bounds in E. split; [timeout_tac|]. split; [counter_tac|done].
  - destruct Ht as [[]|[(_ & _ & _ & [])|[_ ?]]]; try discriminate. invc Hs; simpl.
    split; [timeout_tac|]. split; [counter_tac|].
    destruct (opens_body (fi_get inp)); [|done].
    rewrite seq_S, rev_app_distr. done.
  - destruct Ht as [[]|[(_ & _ & _ & [])|[_ ?]]]; try discriminate. invc Hs; simpl.
    split; [timeout_tac|]. split; [counter_tac|done].
  - discriminate.
Qed.

(** A step fetches exactly when it is the [PFetch] step. *)
Lemma poll_step_gets cd inp (p p' : poll R) evs :
  poll_step cd inp p = Some (p', evs) ->
  count_ev is_get evs = if decide (p_pc p = PFetch) then 1%nat else 0%nat.
Proof.
  intros Hs. poll_step_cases; try done.
  - apply iteration_gets.
  - apply count_ev_none. apply Forall_forall. intros e He.
    apply list_elem_of_In, in_map_iff in He. by destruct He as (? & <- & _).
Qed.

(** Every program point but [PDone] can step, whatever the inputs. *)
Lemma poll_step_progress cd inp (p : poll R) :
  p_pc p <> PDone -> exists p' evs, poll_step cd inp p = Some (p', evs).
Proof.
  destruct p as [[] t i ds n r]; simpl; intros Hpc; try congruence.
  all: try case_decide; try destruct cd; try destruct (next_timeout r); eauto.
Qed.

(** Once the context is done, a step never raises the fetch budget, and
    a fetch consumes it. *)
Lemma poll_step_budget inp (p p' : poll R) evs :
  poll_inv p -> poll_step true inp p = Some (p', evs) ->
  (count_ev is_get evs + fetch_budget p' <= fetch_budget p)%nat.
Proof.
  intros Hinv Hs. pose proof (poll_step_gets _ _ _ _ _ Hs) as Hg.
  destruct Hinv as (Ht & _ & _). unfold timeout_ok in Ht.
  poll_step_cases; rewrite Hg; unfold fetch_budget; simpl; repeat case_decide; try lia.
  all: destruct Ht as [[]|[(_ & _ & _ & [])|[_ ?]]]; simpl in *; try discriminate; lia.
Qed.

(** Once the context is done, every step brings the goroutine closer to
    its exit. *)
Lemma poll_step_steps_left inp (p p' : poll R) evs :
  poll_inv p -> poll_step true inp p = Some (p', evs) ->
  (steps_left p' < steps_left p)%nat.
Proof.
  intros Hinv Hs. destruct Hinv as (Ht & _ & _). unfold timeout_ok in Ht.
  poll_step_cases; unfold steps_left; simpl; repeat case_decide; try lia.
  all: destruct Ht as [[]|[(_ & _ & _ & [])|[_ ?]]]; simpl in *; try discriminate; lia.
Qed.

(** C12 Termination after cancellation: once [ctx.Done()] is ready, the
    poll goroutine exits within [steps_left p <= 7] of its own steps,
    whatever the network and audio answers, and starts at most
    [fetch_budget p <= 1] more fetch on the way. *)
Theorem poll_exits_after_cancel (p : poll R) (ins : list fetch_input) :
  poll_inv p -> (steps_left p <= length ins)%nat ->
  p_pc (poll_exec true ins p).1 = PDone /\
  (count_ev is_get (poll_exec true ins p).2 <= fetch_budget p)%nat.
Proof.
  revert p. induction ins as [|inp ins IH]; intros p Hinv Hlen; simpl.
  - destruct p as [[] t i ? ? ?]; unfold steps_left in Hlen; simpl in Hlen; try case_decide; try lia.
    split; [done|]. unfold count_ev. simpl. lia.
  - destruct (decide (p_pc p = PDone)) as [Hd|Hd].
    + destruct p as [pc ? ? ? ? ?]; simpl in Hd; subst pc. simpl. done.
    + destruct (poll_step_progress true inp p Hd) as (p' & evs & Hs).
      rewrite Hs.
      pose proof (poll_step_steps_left _ _ _ _ Hinv Hs).
      pose proof (poll_step_budget _ _ _ _ Hinv Hs).
      destruct (IH p') as [IH1 IH2]; [by eapply poll_step_inv|simpl in Hlen; lia|].
      destruct (poll_exec true ins p') as [p'' tr] eqn:Ex. simpl in *.
      split; [done|]. rewrite count_ev_app. lia.
Qed.

(** Runs of the goroutine, the trace growing at the end; each step reads
    its own [ctx.Done()] value and inputs. *)
Inductive prun (p : poll R) : list event -> poll R -> Prop :=
| prun_refl : prun p [] p
| prun_snoc tr p' cd inp p'' evs :
    prun p tr p' -> poll_step cd inp p' = Some (p'', evs) -> prun p (tr ++ evs) p''.

(** How the trace so far relates to the locals: the sleeps since the last
    fetch are [i]; the timeout is 0 exactly before the first fetch; at the
    draw [i] has reached the timeout; at the fetch, [i] is the length of
    the wait just done. *)
Definition gaps_inv (p : poll R) (tr : list event) : Prop :=
  gaps_ok (sleep_gaps tr) /\
  (p_pc p <> PReturn -> p_pc p <> PDone -> pending_sleeps tr = Z.to_nat (p_i p)) /\
  (p_pc p <> PFetch -> (count_ev is_get tr = 0%nat <-> p_timeout p = 0)) /\
  (p_pc p = PDraw -> p_i p = p_timeout p) /\
  (p_pc p = PFetch ->
     (count_ev is_get tr = 0%nat -> p_i p = 0) /\
     (count_ev is_get tr <> 0%nat -> 25 <= p_i p <= 34)).

(** The fetch step appends the wait just done to the gaps. *)
Lemma gaps_inv_fetch t i ds n (r : R) ds' n' tr now g aenv :
  timeout_ok (mk_poll PFetch t i ds n r) -> gaps_inv (mk_poll PFetch t i ds n r) tr ->
  gaps_inv (mk_poll PWaitTest t 0 ds' n' r) (tr ++ iteration_events now g aenv).
Proof.
  unfold timeout_ok, gaps_inv, sleep_gaps, pending_sleeps; simpl.
  intros Ht (G1 & G2 & _ & _ & G3). pose proof (gaps_from_length 0 tr) as Hlen.
  destruct (G3 eq_refl) as [G3a G3b].
  specialize (G2 ltac:(discriminate) ltac:(discriminate)).
  destruct (iteration_gaps (pending_from 0 tr) now g aenv) as [Hg Hp].
  rewrite gaps_from_app, pending_from_app, count_ev_app, Hg, Hp, iteration_gets.
  destruct Ht as [[]|[(_ & _ & _ & [])|[_ Ht]]]; try discriminate.
  repeat split; try done; intros; try discriminate; try lia.
  apply gaps_ok_snoc; [done| |]; intros Hgs; rewrite G2.
  - rewrite Hgs in Hlen. simpl in Hlen. rewrite G3a; [done|lia].
  - destruct (gaps_from 0 tr); [done|]. simpl in Hlen.
    specialize (G3b ltac:(lia)). lia.
Qed.

(** The deferred closes add no sleep and no fetch. *)
Lemma gaps_inv_return t i ds n (r : R) tr :
  gaps_inv (mk_poll PReturn t i ds n r) tr ->
  gaps_inv (mk_poll PDone t i ds n r) (tr ++ map EvClose ds).
Proof.
  unfold gaps_inv, sleep_gaps, pending_sleeps; simpl. intros (G1 & _ & G5 & _).
  specialize (G5 ltac:(discriminate)).
  rewrite gaps_from_app, count_ev_app, (gaps_from_quiet _ (map EvClose ds)), app_nil_r
    by apply closes_quiet.
  rewrite (count_ev_none _ (map EvClose ds)).
  - rewrite Nat.add_0_r. split; [done|]. split; [intros _ Hf; by destruct Hf|].
    split; [intros _; exact G5|]. split; intros; discriminate.
  - eapply Forall_impl; [apply closes_quiet|]. intros [] []; simpl; congruence.
Qed.

Lemma gaps_inv_step (p p' : poll R) tr cd inp evs :
  poll_inv p -> gaps_inv p tr -> poll_step cd inp p = Some (p', evs) ->
  gaps_inv p' (tr ++ evs).
Proof.
  intros Hinv HG Hs. destruct p as [pc t i ds n r].
  destruct pc; cbn [poll_step] in Hs;
    [| | | |invc Hs; by apply (gaps_inv_fetch t i ds n r); [apply Hinv|]
     |invc Hs; by apply gaps_inv_return|discriminate].
  all: destruct Hinv as (Ht & (Hi0 & Hiw & His) & _), HG as (G1 & G2 & G5 & G4 & G3).
  all: unfold timeout_ok, gaps_inv, sleep_gaps, pending_sleeps in *; simpl in *.
  - (* PStart *)
    invc Hs. rewrite app_nil_r. simpl.
    destruct Ht as [(_ & _ & -> & ->)|[(_ & _ & _ & [])|[]]]; try congruence.
    specialize (G5 ltac:(discriminate)).
    repeat split; try done; intros; try discriminate.
    + by apply G2.
    + by apply G5.
  - (* PWaitTest *)
    specialize (G2 ltac:(discriminate) ltac:(discriminate)).
    specialize (G5 ltac:(discriminate)).
    destruct (decide (i < t)); invc Hs; rewrite app_nil_r; simpl.
    + repeat split; try done; intros; try discriminate; by apply G5.
    + repeat split; try done; intros; try discriminate; try by apply G5.
      specialize (Hiw eq_refl). lia.
  - (* PSelect *)
    specialize (G5 ltac:(discriminate)).
    destruct cd; invc Hs; simpl.
    + rewrite app_nil_r. repeat split; try done; intros; try discriminate; by apply G5.
    + specialize (G2 ltac:(discriminate) ltac:(discriminate)).
      rewrite gaps_from_app, pending_from_app, count_ev_app, G2. simpl.
      rewrite app_nil_r, Nat.add_0_r.
      repeat split; try done; intros; try discriminate; try by apply G5.
      lia.
  - (* PDraw *)
    destruct (next_timeout r) as [t' r'] eqn:E. invc Hs. rewrite app_nil_r. simpl.
    specialize (G4 eq_refl). specialize (G5 ltac:(discriminate)). subst i.
    split; [done|]. split; [intros; by apply G2|]. split; [intros Hf; by destruct Hf|].
    split; [intros; discriminate|]. intros _. split.
    + intros Hc0. by apply G5.
    + intros Hc0. destruct Ht as [[]|[(Ht0 & _ & _ & _)|[_ ?]]]; try discriminate; [|done].
      exfalso. apply Hc0. by apply G5.
Qed.

Lemma prun_inv (r : R) tr (p : poll R) :
  prun (poll_init r) tr p -> poll_inv p /\ gaps_inv p tr.
Proof.
  induction 1 as [|tr p' cd inp p'' evs Hrun [Hinv Hg] Hs].
  - split; [apply poll_init_inv|].
    unfold gaps_inv; simpl. repeat split; done.
  - split; [by eapply poll_step_inv|]. by eapply gaps_inv_step.
Qed.

(** C2 The randomized interval, on the trace: the first fetch is issued
    with no sleep before it (the wait of the first iteration is empty),
    and every later fetch follows the previous one after 25 to 34
    one-second sleeps, whatever the context does. *)
Theorem poll_fetch_gaps (r : R) tr (p : poll R) :
  prun (poll_init r) tr p -> gaps_ok (sleep_gaps tr).
Proof. intros Hrun. apply (prun_inv _ _ _ Hrun). Qed.

Lemma poll_exec_prun cd ins (p : poll R) :
  prun p (poll_exec cd ins p).2 (poll_exec cd ins p).1.
Proof.
  enough (forall p0 tr0, prun p0 tr0 p ->
            prun p0 (tr0 ++ (poll_exec cd ins p).2) (poll_exec cd ins p).1) as Hgen.
  { pose proof (Hgen p [] (prun_refl _)) as H'. by rewrite app_nil_l in H'. }
  revert p. induction ins as [|inp ins IH]; intros p p0 tr0 Hrun; simpl.
  - by rewrite app_nil_r.
  - destruct (poll_step cd inp p) as [[p' evs]|] eqn:Hs; simpl.
    + pose proof (IH p' p0 (tr0 ++ evs) (prun_snoc _ _ _ _ _ _ _ Hrun Hs)) as H'.
      destruct (poll_exec cd ins p'). simpl in *. by rewrite app_assoc.
    + by rewrite app_nil_r.
Qed.

(** Only the return step closes bodies. *)
Lemma poll_step_no_close cd inp (p p' : poll R) evs :
  poll_step cd inp p = Some (p', evs) -> p_pc p <> PReturn ->
  count_ev is_close evs = 0%nat.
Proof.
  intros Hs Hpc. poll_step_cases; try done; try congruence.
  apply count_ev_none. unfold iteration_events.
  pose proof (outcome_events_quiet (fi_audio inp) (check (fi_get inp))) as Hq.
  repeat constructor.
  unfold outcome_events in *. destruct (check (fi_get inp)); simpl;
    repeat constructor.
  apply Forall_app. split; [|repeat constructor].
  unfold playSound. destruct (open_result (fi_audio inp)), (decode_result (fi_audio inp));
    repeat constructor.
Qed.

Definition closes_inv (p : poll R) (tr : list event) : Prop :=
  (p_pc p <> PDone -> count_ev is_close tr = 0%nat) /\
  (p_pc p = PDone -> forall k,
     count_ev (is_close_of k) tr = if decide (k < p_nresp p)%nat then 1%nat else 0%nat).

Lemma prun_closes (r : R) tr (p : poll R) :
  prun (poll_init r) tr p -> closes_inv p tr.
Proof.
  intros Hrun. induction Hrun as [|tr p' cd inp p'' evs Hrun [C1 C2] Hs].
  { split; [done|]. simpl. congruence. }
  destruct (prun_inv _ _ _ Hrun) as [(_ & _ & Hd) _].
  destruct (decide (p_pc p' = PReturn)) as [Hret|Hret].
  - destruct p' as [pc t i ds n r']; simpl in *; subst pc. invc Hs.
    unfold defers_ok in Hd. simpl in Hd. subst ds.
    split; [simpl; congruence|]. intros _ k. simpl.
    rewrite count_ev_app, count_close_of_defers.
    pose proof (count_close_of_le k tr). rewrite C1 in * by congruence. lia.
  - pose proof (poll_step_no_close _ _ _ _ _ Hs Hret) as Hn.
    assert (p_pc p' <> PDone) as Hnd.
    { intros Hd'. destruct p' as [[] ? ? ? ? ?]; simpl in *; congruence. }
    assert (p_pc p'' <> PDone) as Hnd''.
    { clear C1 C2 Hn Hnd Hd Hrun r. poll_step_cases; simpl in *; congruence. }
    split; [|congruence]. intros _. rewrite count_ev_app, Hn, C1; done.
Qed.

(** C4 Response bodies are closed exactly once each, but only when the
    goroutine returns: before that, no body of the run has been closed
    and every response obtained is still pending in the defer stack
    (the [defer] of line 97 sits inside the loop). *)
Theorem poll_bodies_closed_at_return (r : R) tr (p : poll R) :
  prun (poll_init r) tr p ->
  (p_pc p <> PDone ->
     count_ev is_close tr = 0%nat /\ p_defers p = rev (seq 0 (p_nresp p))) /\
  (p_pc p = PDone -> forall k,
     count_ev (is_close_of k) tr = if decide (k < p_nresp p)%nat then 1%nat else 0%nat).
Proof.
  intros Hrun. destruct (prun_closes _ _ _ Hrun) as [C1 C2].
  destruct (prun_inv _ _ _ Hrun) as [(_ & _ & Hd) _].
  split; [|done]. intros Hnd. split; [by apply C1|done].
Qed.

Lemma prun_trans (p p' p'' : poll R) tr tr' :
  prun p tr p' -> prun p' tr' p'' -> prun p (tr ++ tr') p''.
Proof.
  intros Hr1 Hr2. induction Hr2 as [|tr2 q' cd inp q'' evs Hr2 IH Hs].
  - by rewrite app_nil_r.
  - rewrite app_assoc. eapply prun_snoc; eauto.
Qed.

(** The server has no slot for this fetch: the body is an empty [items]
    list. *)
Definition no_slots_input (inp : fetch_input) : Prop :=
  exists b, check (fi_get inp) = ONoSlots b.

Lemma poll_step_no_slots cd inp (p p' : poll R) evs :
  no_slots_input inp -> poll_step cd inp p = Some (p', evs) ->
  count_ev is_play evs = 0%nat /\ count_ev is_no_slots evs = count_ev is_get evs.
Proof.
  intros [b Hb] Hs. poll_step_cases; try done.
  - unfold iteration_events. rewrite Hb. done.
  - induction ds as [|d ds IH]; [done|]. cbn [map]. rewrite !count_ev_cons. simpl. lia.
Qed.

(** C18 Through the loop: however many iterations run, if the server
    answers every fetch with an empty [items] list, the goroutine never
    starts playback and logs exactly one no-slots line per [http.Get]. *)
Theorem poll_exec_no_slots cd ins (p : poll R) :
  Forall no_slots_input ins ->
  count_ev is_play (poll_exec cd ins p).2 = 0%nat /\
  count_ev is_no_slots (poll_exec cd ins p).2 = count_ev is_get (poll_exec cd ins p).2.
Proof.
  intros Hins. revert p. induction Hins as [|inp ins Hi _ IH]; intros p; [done|].
  cbn [poll_exec]. destruct (poll_step cd inp p) as [[p' evs]|] eqn:Hs; [|done].
  destruct (poll_exec cd ins p') as [p'' tr] eqn:He. cbn [snd].
  destruct (IH p') as [IH1 IH2]. rewrite He in IH1, IH2.
  destruct (poll_step_no_slots _ _ _ _ _ Hi Hs) as [Hp Hn].
  rewrite !count_ev_app. cbn [snd] in IH1, IH2. lia.
Qed.
End PollLoopProps.

(** ** Runs on concrete inputs *)

(** A fetch whose body has an empty [items] array, and a failed fetch. *)
Definition inp_empty : fetch_input :=
  mk_fetch_input "t" (Ok (mk_response (Ok body_empty))) audio_ok.
Definition inp_down : fetch_input :=
  mk_fetch_input "t" (Err "connection refused") audio_ok.

(** Three iterations with the context never done: draws 3 and 7 give
    timeouts 28 and 32. *)
Definition run3 : poll tape * list event :=
  poll_exec false (replicate 130 inp_empty) (poll_init [3; 7]%Z).

Example run3_gaps : sleep_gaps run3.2 = [0; 28; 32]%nat.
Proof. vm_compute. reflexivity. Qed.

Example run3_bodies_open :
  p_defers run3.1 = [2; 1; 0]%nat /\ count_ev is_close run3.2 = 0%nat.
Proof. vm_compute. split; reflexivity. Qed.

Lemma poll_fetch_gaps_witness : gaps_ok (sleep_gaps run3.2).
Proof. exact (poll_fetch_gaps _ _ _ (poll_exec_prun _ _ _)). Defined.

Lemma poll_exec_no_slots_witness :
  count_ev is_play run3.2 = 0%nat /\ count_ev is_no_slots run3.2 = count_ev is_get run3.2.
Proof.
  apply poll_exec_no_slots. apply Forall_replicate.
  exists body_empty. vm_compute. reflexivity.
Defined.

Lemma poll_exits_after_cancel_witness :
  p_pc (poll_exec true (replicate 7 inp_down) (poll_init ([3]%Z : tape))).1 = PDone /\
  (count_ev is_get (poll_exec true (replicate 7 inp_down) (poll_init ([3]%Z : tape))).2
     <= fetch_budget (poll_init ([3]%Z : tape)))%nat.
Proof. apply poll_exits_after_cancel; [apply poll_init_inv|vm_compute; lia]. Defined.

(** After the three iterations above the context is cancelled: the
    goroutine reaches its [select], returns and closes the three bodies,
    last first. *)
Definition run3_cancelled : poll tape * list event :=
  let '(p, tr) := run3 in
  let '(p', tr') := poll_exec true (replicate 4 inp_empty) p in (p', tr ++ tr').

Example run3_cancelled_closes :
  p_pc run3_cancelled.1 = PDone /\
  drop (length run3_cancelled.2 - 3) run3_cancelled.2 = [EvClose 2; EvClose 1; EvClose 0].
Proof. vm_compute. split; reflexivity. Qed.

Lemma poll_bodies_closed_at_return_witness :
  p_pc (poll_exec true (replicate 4 inp_empty) run3.1).1 = PDone /\
  count_ev (is_close_of 1)
    (run3.2 ++ (poll_exec true (replicate 4 inp_empty) run3.1).2) =
    if decide (1 < p_nresp (poll_exec true (replicate 4 inp_empty) run3.1).1)%nat
    then 1%nat else 0%nat.
Proof.
  assert (Hd : p_pc (poll_exec true (replicate 4 inp_empty) run3.1).1 = PDone)
    by (vm_compute; reflexivity).
  split; [exact Hd|].
  exact (proj2 (poll_bodies_closed_at_return [3; 7]%Z _ _
           (prun_trans _ _ _ _ _ (poll_exec_prun _ _ _) (poll_exec_prun _ _ _))) Hd 1%nat).
Defined.

(** The poll goroutine only prints, sleeps, fetches, closes bodies and
    plays sound. *)
Lemma outcome_events_local `{JsonDecoder} aenv o :
  Forall (fun e => poll_event e = true) (outcome_events aenv o).
Proof.
  destruct o; simpl; repeat constructor.
  apply Forall_app. split; [|repeat constructor].
  unfold playSound. destruct (open_result aenv), (decode_result aenv); repeat constructor.
Qed.

Lemma poll_step_events `{IntnSource R} `{JsonDecoder} cd inp (p p' : poll R) evs :
  poll_step cd inp p = Some (p', evs) -> Forall (fun e => poll_event e = true) evs.
Proof.
  destruct p as [[] t i ds n r]; cbn [poll_step]; intros Hs.
  - by invc Hs.
  - destruct (decide (i < t)); by invc Hs.
  - destruct cd; invc Hs; by repeat constructor.
  - destruct (next_timeout r); by invc Hs.
  - invc Hs. unfold iteration_events. constructor; [done|]. constructor; [done|].
    apply outcome_events_local.
  - invc Hs. apply Forall_forall. intros e He. apply list_elem_of_In, in_map_iff in He.
    by destruct He as (? & <- & _).
  - discriminate.
Qed.

Lemma fetch_budget_le1 {R} (p : poll R) : (fetch_budget p <= 1)%nat.
Proof. unfold fetch_budget. destruct (p_pc p); try case_decide; lia. Qed.
