(* ===== verification/PollSpec.v ===== *)
(** * PollSpec: the poll goroutine against an abstract poller

    An abstract specification of what the poll goroutine of lines 73-134
    does, written with no program counter, no [timeout]/[i] pair and no
    defer stack: a state is the number [k] of one-second sleeps left
    before the next check and the number [nb] of response bodies obtained
    so far, or the final state.  Its steps are
    - [a_sleep]: one sleep of the wait, when [k > 0];
    - [a_check]: one check-and-act sequence ([Check]) when the wait is
      over, after which the next wait is between 25 and 34 sleeps, and a
      body is obtained when the [http.Get] succeeded;
    - [a_exit]: the goroutine returns while a wait is under way (the
      cancellation is seen only before a sleep), closing every body
      obtained, the latest first.
    The abstract poller starts with no wait: the first check is not
    delayed.

    [poll_refines_spec] is the refinement: every trace of the machine
    [poll_step] from its initial state is a trace of the abstract poller,
    through the abstraction [abs_poll] of the machine's states; the
    internal steps of the machine (the loop test, the draw, the [select]
    taking [ctx.Done()]) are stuttering steps. *)

From S2P Require Import Prelude Interval Json Console Sound Check PollLoop.

Local Open Scope Z_scope.

Inductive astate : Type :=
| AWaiting (k : nat) (nb : nat)
| ADone.

#[export] Instance astate_eq_dec : EqDecision astate.
Proof. solve_decision. Defined.

Section PollSpec.
Context {R : Type} `{IntnLaws R} `{JsonDecoder}.

Inductive astep : astate -> list event -> astate -> Prop :=
| a_sleep k nb : astep (AWaiting (S k) nb) [EvSleep] (AWaiting k nb)
| a_check nb now g aenv k :
    (25 <= k <= 34)%nat ->
    astep (AWaiting 0 nb) (iteration_events now g aenv)
          (AWaiting k (if opens_body g then S nb else nb))
| a_exit k nb : astep (AWaiting (S k) nb) (map EvClose (rev (seq 0 nb))) ADone.

Inductive arun (a0 : astate) : list event -> astate -> Prop :=
| arun_refl : arun a0 [] a0
| arun_step tr a a' evs : arun a0 tr a -> astep a evs a' -> arun a0 (tr ++ evs) a'.

(** The abstraction of the machine's states. *)
Definition abs_poll (p : poll R) : astate :=
  match p_pc p with
  | PStart | PDraw | PFetch => AWaiting 0 (p_nresp p)
  | PWaitTest | PSelect | PReturn => AWaiting (Z.to_nat (p_timeout p - p_i p)) (p_nresp p)
  | PDone => ADone
  end.

(** The [return] of line 82 is only reached from a [select] of a wait
    under way. *)
Definition ret_ok (p : poll R) : Prop := p_pc p = PReturn -> p_i p < p_timeout p.

Lemma poll_init_ret_ok (r : R) : ret_ok (poll_init r).
Proof. done. Qed.

(** One step of the machine is a stuttering step or one step of the
    abstract poller with the same events. *)
Lemma poll_step_simulates cd inp (p p' : poll R) evs :
  poll_inv p -> ret_ok p -> poll_step cd inp p = Some (p', evs) ->
  ret_ok p' /\
  ((evs = [] /\ abs_poll p' = abs_poll p) \/ astep (abs_poll p) evs (abs_poll p')).
Proof.
  unfold poll_inv, timeout_ok, counter_ok, defers_ok, ret_ok, abs_poll.
  destruct p as [pc t i ds n r]; simpl.
  intros (Ht & (Hi0 & Hiw & His) & Hd) Hr Hs.
  destruct pc; simpl in Hs.
  - invc Hs; simpl. split; [done|]. left.
    destruct Ht as [(_ & -> & -> & ->)|[(_ & _ & -> & _)|[[] _]]]; done.
  - destruct (decide (i < t)); invc Hs; simpl; (split; [done|]); left; split; try done.
    specialize (Hiw eq_refl). by replace (t - i) with 0 by lia.
  - specialize (His eq_refl). destruct cd; invc Hs; simpl; (split; [intros Hp; simpl in *; first [lia | discriminate]|]).
    + by left.
    + right. replace (Z.to_nat (t - i)) with (S (Z.to_nat (t - (i + 1)))) by lia. constructor.
  - destruct (next_timeout r) as [t' r'] eqn:E. invc Hs; simpl. split; [done|]. by left.
  - invc Hs; simpl. split; [done|]. right.
    destruct Ht as [(Hpc & _)|[(_ & _ & _ & [Hpc|Hpc])|[_ Ht]]]; try discriminate Hpc.
    replace (Z.to_nat (t - 0)) with (Z.to_nat t) by lia.
    apply a_check. lia.
  - invc Hs; simpl. split; [done|]. right. specialize (Hr eq_refl).
    replace (Z.to_nat (t - i)) with (S (Z.to_nat (t - i - 1))) by lia.
    constructor.
  - discriminate.
Qed.

(** C7 Refinement: every trace of the poll goroutine, whatever the
    context reads and the outside world answers, is a trace of the
    abstract poller from its initial state (no wait before the first
    check, each later wait 25 to 34 sleeps, return only before a sleep,
    with every body closed then). *)
Theorem poll_refines_spec (r : R) tr (p : poll R) :
  prun (poll_init r) tr p -> arun (AWaiting 0 0) tr (abs_poll p).
Proof.
  intros Hrun. enough (ret_ok p /\ arun (AWaiting 0 0) tr (abs_poll p)) by tauto.
  induction Hrun as [|tr p' cd inp p'' evs Hrun IH Hs]; [split; [done|constructor]|].
  destruct IH as [Hr Ha]. destruct (prun_inv _ _ _ Hrun) as [Hinv _].
  destruct (poll_step_simulates _ _ _ _ _ Hinv Hr Hs) as [Hr' [[-> Habs]|Hst]];
    split; try done.
  - rewrite app_nil_r, Habs. exact Ha.
  - eapply arun_step; eauto.
Qed.
End PollSpec.

Lemma poll_refines_spec_witness :
  prun (poll_init ([3; 7]%Z : tape)) run3.2 run3.1 /\
  arun (AWaiting 0 0) run3.2 (abs_poll run3.1).
Proof.
  pose proof (poll_exec_prun false (replicate 130 inp_empty) (poll_init ([3; 7]%Z : tape))) as Hp.
  split; [exact Hp|]. exact (poll_refines_spec _ _ _ Hp).
Defined.

