(* ===== verification/Fmt.v ===== *)
(** * Fmt: the text the program writes to standard output

    Every line the program logs goes through [fmt.Print] (line 89) or
    [fmt.Println] (lines 61, 93, 103, 110, 116, 122, 127, 132), which
    format each operand with the verb [%v].  This file writes out what
    those calls print:
    - [fmt_Print] and [fmt_Println] are [doPrint] and [doPrintln] of the
      [fmt] package: [Print] puts a space between two operands only when
      neither is a string, [Println] always puts one and ends the line;
    - [fmt_v] is [%v] on the dynamic values [encoding/json] stores in an
      [interface{}]: [<nil>], [true]/[false], the number, the raw string,
      [[e1 e2 ...]] for a slice and [map[k1:v1 k2:v2 ...]] for a map,
      whose entries [fmt] prints sorted by key (byte-wise order,
      [String.le]); a JSON object is printed through the Go map
      [go_map] the decoder builds from it, so a duplicate key shows its
      last value once;
    - [render] is the text of each [logline], with the operands of the
      source's call, and [console] the text of a trace.

    Two things are not computed here and are fields of the class
    [GoText]: the shortest decimal form [strconv] gives a [float64]
    ([fmt_float], applied to the number's literal) and the message of a
    [json.SyntaxError], which names the offending byte and its offset.
    The value of [time.Now()] is already its text in [LTime]. *)

From S2P Require Import Prelude Interval Json JsonPrint Console Sound Check PollLoop.
From stdpp Require Import sorting.
From Stdlib Require Import Ascii String.

Local Open Scope string_scope.

(** ** [fmt.Print] and [fmt.Println] *)

(** An operand of a print call, already formatted with [%v], with
    whether its dynamic type is [string]: [Print]'s spacing depends on it. *)
Inductive operand : Type :=
| OStr (s : string)
| OVal (s : string).

Definition operand_text (o : operand) : string :=
  match o with OStr s | OVal s => s end.

Definition is_string_op (o : operand) : bool :=
  match o with OStr _ => true | OVal _ => false end.

(** [doPrint]: [prev] is [None] before the first operand, and otherwise
    whether the previous operand was a string. *)
Fixpoint do_print (prev : option bool) (ops : list operand) : string :=
  match ops with
  | [] => ""
  | o :: ops' =>
      (if bool_decide (prev = Some false) && negb (is_string_op o) then " " else "")
      ++ operand_text o ++ do_print (Some (is_string_op o)) ops'
  end.

Definition fmt_Print (ops : list operand) : string := do_print None ops.

(** [doPrintln]: a space between any two operands, then a newline. *)
Definition nl : string := String (chr 10) EmptyString.

Definition fmt_Println (ops : list operand) : string :=
  String.concat " " (map operand_text ops) ++ nl.

(** ** [%v] of a decoded value *)

Class GoText := {
  fmt_float : string -> string;
  syntax_error_text : string
}.

(** A map entry [k:v], and the order [fmt] sorts map entries by. *)
Definition fmt_entry (kv : string * string) : string := kv.1 ++ ":" ++ kv.2.

Definition key_le (a b : string * string) : Prop := String.le a.1 b.1.

#[export] Instance key_le_dec : RelDecision key_le.
Proof. intros a b. unfold key_le. apply _. Defined.

Definition fmt_map (m : gmap string string) : string :=
  "map[" ++ String.concat " " (map fmt_entry (merge_sort key_le (map_to_list m))) ++ "]".

Section Verb.
Context `{GoText}.

Fixpoint fmt_v (v : jvalue) : string :=
  match v with
  | JNull => "<nil>"
  | JBool b => if b then "true" else "false"
  | JNumber lit => fmt_float lit
  | JString s => s
  | JArray vs => "[" ++ String.concat " " (map fmt_v vs) ++ "]"
  | JObject kvs => fmt_map (go_map (map (fun '(k, w) => (k, fmt_v w)) kvs))
  end.

(** ** The printed lines *)

(** [err.Error()] of the errors the program prints. *)
Definition json_error_text (e : json_error) : string :=
  match e with
  | SyntaxError => syntax_error_text
  | UnmarshalTypeError kind =>
      "json: cannot unmarshal " ++ kind ++ " into Go value of type map[string]interface {}"
  | UnmarshalNumberError lit =>
      "json: cannot unmarshal number " ++ lit ++ " into Go value of type float64"
  end.

Definition go_err_text (e : go_err) : string :=
  match e with EMsg m => m | EJson e => json_error_text e end.

Definition render (l : logline) : string :=
  match l with
  | LTime now => fmt_Print [OVal now; OStr " -- "]
  | LErr prefix e => fmt_Println [OStr prefix; OStr (go_err_text e)]
  | LMsg text => fmt_Println [OStr text]
  | LNoSlots body => fmt_Println [OStr "no slots ("; OStr body; OStr ")"]
  | LFound items => fmt_Println [OStr "********************** "; OVal (fmt_v (JArray items))]
  end.

(** The text standard output receives from a trace. *)
Fixpoint console (tr : list event) : string :=
  match tr with
  | [] => ""
  | EvPrint l :: tr' => render l ++ console tr'
  | _ :: tr' => console tr'
  end.

End Verb.

(** Lines of text: the number of newlines, and text that ends a line
    (or is empty), so that what is printed next starts a new line. *)
Fixpoint count_nl (s : string) : nat :=
  match s with
  | EmptyString => 0
  | String c s' => (if Ascii.eqb c (chr 10) then 1 else 0) + count_nl s'
  end.

Definition ends_nl (s : string) : Prop := s = "" \/ exists t, s = t ++ nl.

(** ** Lemmas *)

Lemma count_nl_app a b : count_nl (a ++ b) = (count_nl a + count_nl b)%nat.
Proof. induction a as [|c a IH]; [done|]. rewrite sapp_cons. simpl. lia. Qed.

Lemma count_nl_nl : count_nl nl = 1%nat.
Proof. done. Qed.

#[export] Hint Rewrite count_nl_app count_nl_nl : heb.

Lemma ends_nl_app a b : ends_nl a -> ends_nl b -> ends_nl (a ++ b).
Proof.
  intros Ha [->|[t ->]]; [by rewrite sapp_nil_r|].
  right. exists (a ++ t). by rewrite sapp_assoc.
Qed.

Lemma ends_nl_line t : ends_nl (t ++ nl).
Proof. right. by exists t. Qed.

#[export] Hint Resolve ends_nl_app ends_nl_line : heb.

Section Console.
Context `{GoText}.

Lemma console_app tr1 tr2 : console (tr1 ++ tr2) = console tr1 ++ console tr2.
Proof.
  induction tr1 as [|[] tr1 IH]; simpl; rewrite ?IH, ?sapp_assoc; done.
Qed.

Lemma console_no_print tr : Forall (fun e => is_print e = false) tr -> console tr = "".
Proof. induction 1 as [|[] tr Hp _ IH]; simpl in *; done. Qed.

(** Each branch of an iteration ends its line. *)
Lemma console_outcome aenv o : exists t, console (outcome_events aenv o) = t ++ nl.
Proof.
  destruct o; simpl; rewrite ?sapp_nil_r; try (eexists; reflexivity).
  rewrite console_app. simpl. rewrite sapp_nil_r.
  eexists. unfold fmt_Println. by rewrite <- sapp_assoc.
Qed.

End Console.

Section Objects.
Context `{GoText}.

(** Line 132: [fmt.Println("********************** ", items)]. *)
Lemma render_found items :
  render (LFound items) =
    "**********************  [" ++ String.concat " " (map fmt_v items) ++ "]" ++ nl.
Proof.
  unfold render, fmt_Println. cbn [map operand_text String.concat fmt_v].
  by rewrite !sapp_assoc.
Qed.

End Objects.

(** ** The text of an iteration and of a run *)

Section Output.
Context `{GoText} `{JsonDecoder}.

(** [fmt.Print(time.Now(), " -- ")]: no space, as [" -- "] is a string. *)
Lemma render_time now : render (LTime now) = now ++ " -- ".
Proof. cbn. by rewrite sapp_nil_r. Qed.

Lemma console_iteration now g aenv :
  console (iteration_events now g aenv) =
    now ++ " -- " ++ console (outcome_events aenv (check g)).
Proof. cbn [iteration_events console]. by rewrite render_time, sapp_assoc. Qed.

Lemma console_iteration_body now body aenv :
  console (iteration_events now (Ok (mk_response (Ok body))) aenv) =
    now ++ " -- " ++ console (outcome_events aenv (inspect body)).
Proof. by rewrite console_iteration. Qed.

Lemma console_iteration_nl now g aenv :
  exists t, console (iteration_events now g aenv) = t ++ nl.
Proof.
  rewrite console_iteration. destruct (console_outcome aenv (check g)) as [t ->].
  exists (now ++ " -- " ++ t). by rewrite !sapp_assoc.
Qed.

(** What one step of the poll goroutine prints: nothing and no fetch, or
    one iteration, whose one fetch is followed by lines ending with a
    [Println]. *)
Lemma poll_step_output {R} `{IntnSource R} cd inp (p p' : poll R) evs :
  poll_step cd inp p = Some (p', evs) ->
  (console evs = "" /\ count_ev is_get evs = 0%nat) \/
  (exists t, console evs = t ++ nl /\ count_ev is_get evs = 1%nat).
Proof.
  destruct p as [[] t i ds n r]; cbn [poll_step]; intros Hs.
  - invc Hs. by left.
  - destruct (decide (i < t)%Z); invc Hs; by left.
  - destruct cd; invc Hs; by left.
  - destruct (next_timeout r); invc Hs. by left.
  - invc Hs. right. destruct (console_iteration_nl (fi_now inp) (fi_get inp) (fi_audio inp)) as [t' ->].
    exists t'. split; [done|]. apply iteration_gets.
  - invc Hs. left. split.
    + apply console_no_print, Forall_fmap, Forall_true. done.
    + apply count_ev_none, Forall_fmap, Forall_true. done.
  - discriminate.
Qed.

(** C19 Standard output stays line-oriented: after every step of every
    run of the poll goroutine the text printed so far is empty or ends
    with a newline, so each check's timestamp starts a new line. *)
Theorem poll_console_lines {R} `{IntnSource R} (p0 p : poll R) tr :
  prun p0 tr p -> ends_nl (console tr).
Proof.
  induction 1 as [|tr p' cd inp p'' evs Hrun IH Hs]; [by left|].
  rewrite console_app. apply ends_nl_app; [done|].
  destruct (poll_step_output _ _ _ _ _ Hs) as [[-> _]|(t & -> & _)]; [by left|apply ends_nl_line].
Qed.

(** C20 Every check is logged: on every run of the poll goroutine,
    standard output has received at least as many complete lines as
    [http.Get] calls were issued, since every branch of an iteration,
    errors included, ends with a [Println]. *)
Theorem poll_checks_logged {R} `{IntnSource R} (p0 p : poll R) tr :
  prun p0 tr p -> (count_ev is_get tr <= count_nl (console tr))%nat.
Proof.
  induction 1 as [|tr p' cd inp p'' evs Hrun IH Hs]; [done|].
  rewrite console_app, count_ev_app, count_nl_app.
  destruct (poll_step_output _ _ _ _ _ Hs) as [[-> ->]|(t & -> & ->)];
    rewrite ?count_nl_app, ?count_nl_nl; lia.
Qed.

(** C21 The text of a check that finds slots: the timestamp, then what
    [playSound] printed (a [wav.Decode] error takes the timestamp's line,
    leaving the matched items on a line without one), then the items,
    two spaces after the stars. *)
Theorem iteration_text_found now body aenv kvs items :
  json_decode body = Some (JObject kvs) -> number_error (JObject kvs) = None ->
  assoc_last "items" kvs = Some (JArray items) -> items <> [] ->
  console (iteration_events now (Ok (mk_response (Ok body))) aenv) =
    now ++ " -- " ++ console (playSound aenv) ++
    "**********************  [" ++ String.concat " " (map fmt_v items) ++ "]" ++ nl.
Proof.
  intros Hd Hn Hi Hne. rewrite console_iteration_body.
  rewrite (inspect_object _ _ Hd Hn), Hi.
  case_decide as Hl; [destruct items; [done|discriminate]|].
  cbn [outcome_events]. rewrite console_app. cbn [console].
  by rewrite render_found, sapp_nil_r.
Qed.

(** C23 A body that decodes to a value that is neither an object nor
    [null] prints [encoding/json]'s type error, under the
    [ioutil.ReadAll] prefix of the read-error branch. *)
Theorem iteration_text_unmarshal now body aenv v :
  json_decode body = Some v -> v <> JNull -> (forall kvs, v <> JObject kvs) ->
  console (iteration_events now (Ok (mk_response (Ok body))) aenv) =
    now ++ " -- ioutil.ReadAll err:  json: cannot unmarshal " ++ json_kind v ++
    " into Go value of type map[string]interface {}" ++ nl.
Proof.
  intros Hd Hn Ho. rewrite console_iteration_body.
  unfold inspect, unmarshal_map. rewrite Hd.
  destruct v as [| | | | |kvs]; try done. by destruct (Ho kvs).
Qed.

(** C22 The empty-result line prints the body verbatim between
    [no slots (] and [)]; a body holding newlines (JSON text that is
    pretty-printed) spreads the line over as many more lines. *)
Theorem no_slots_lines now body aenv kvs :
  json_decode body = Some (JObject kvs) -> number_error (JObject kvs) = None ->
  assoc_last "items" kvs = Some (JArray []) ->
  let out := console (iteration_events now (Ok (mk_response (Ok body))) aenv) in
  out = now ++ " -- no slots ( " ++ body ++ " )" ++ nl /\
  count_nl out = (count_nl now + count_nl body + 1)%nat.
Proof.
  intros Hd Hn Hi out. subst out. rewrite console_iteration_body.
  rewrite (inspect_object _ _ Hd Hn), Hi, decide_True by done.
  cbn [outcome_events console render]. unfold fmt_Println. cbn [map operand_text String.concat].
  rewrite sapp_nil_r, !sapp_assoc. split; [reflexivity|].
  rewrite !count_nl_app. simpl count_nl. lia.
Qed.

End Output.

(** ** Examples *)

(** The text [%v] gives for the number literals the examples use: an
    integer below 10^6 prints as written. *)
#[local] Instance example_text : GoText := {|
  fmt_float := fun lit => lit;
  syntax_error_text := "unexpected end of JSON input"
|}.

Definition audio_bad_wav : audio_env := mk_audio_env (Ok tt) (Err "not a wav file").

Definition body_pretty : string := sq "{'items':" ++ nl ++ " []}".

Lemma poll_console_lines_witness :
  prun (poll_init ([3; 7]%Z : tape)) run3.2 run3.1 /\ ends_nl (console run3.2).
Proof.
  pose proof (poll_exec_prun false (replicate 130 inp_empty) (poll_init ([3; 7]%Z : tape))) as Hp.
  split; [exact Hp|]. exact (poll_console_lines _ _ _ Hp).
Defined.

Lemma poll_checks_logged_witness :
  prun (poll_init ([3; 7]%Z : tape)) run3.2 run3.1 /\
  (count_ev is_get run3.2 <= count_nl (console run3.2))%nat.
Proof.
  pose proof (poll_exec_prun false (replicate 130 inp_empty) (poll_init ([3; 7]%Z : tape))) as Hp.
  split; [exact Hp|]. exact (poll_checks_logged _ _ _ Hp).
Defined.

Lemma iteration_text_found_witness :
  console (iteration_events "t" (Ok (mk_response (Ok body_slot))) audio_bad_wav) =
    "t -- wav.Decode err:  not a wav file" ++ nl ++ "**********************  [map[slot:9am]]" ++ nl.
Proof.
  rewrite (iteration_text_found _ _ _ [("items", JArray [JObject [("slot", JString "9am")]])]
             [JObject [("slot", JString "9am")]]);
    vm_compute; [reflexivity|reflexivity|reflexivity|reflexivity|discriminate].
Defined.

Lemma iteration_text_unmarshal_witness :
  console (iteration_events "t" (Ok (mk_response (Ok (sq "[1]")))) audio_ok) =
    "t -- ioutil.ReadAll err:  json: cannot unmarshal array into Go value of type map[string]interface {}" ++ nl.
Proof.
  rewrite (iteration_text_unmarshal _ _ _ (JArray [JNumber "1"])); vm_compute;
    [reflexivity|reflexivity|discriminate|discriminate].
Defined.

Lemma no_slots_lines_witness :
  count_nl (console (iteration_events "t" (Ok (mk_response (Ok body_pretty))) audio_ok)) = 2%nat.
Proof.
  rewrite (proj2 (no_slots_lines "t" body_pretty audio_ok [("items", JArray [])]
                     eq_refl eq_refl eq_refl)).
  reflexivity.
Defined.
