(* ===== verification/Watcher.v ===== *)
(** * Watcher: the signal-watcher goroutine [translateInterruptToCancel]
    (lines 33-52)

    The caller runs [wg.Add(1)] (line 34) and starts the goroutine
    (line 35), which
    - makes the unbuffered channel [signalStream] (line 38) and registers
      the deferred [signal.Stop(signalStream); close(signalStream)]
      (lines 39-42) after the deferred [wg.Done()] (line 36);
    - calls [signal.Notify(signalStream, os.Interrupt, syscall.SIGTERM)]
      (line 43);
    - enters the [select] of lines 44-50: it returns at once if
      [ctx.Done()] is ready, otherwise it blocks until a signal is received
      on [signalStream] (then [cancel()], line 46) or [ctx.Done()] becomes
      ready;
    - on either [return] the deferred calls run, last registered first:
      [signal.Stop] and [close], then [wg.Done()].

    [watch_step ctx_done w] is one step of the goroutine, returning its
    next program point, the action it performs on the shared state
    ([waction]) and its events; the reception of a signal is not a step of
    the goroutine but of the operating system ([Main]), which moves a
    goroutine blocked in [WBlocked] to [WCancel]. *)

From S2P Require Import Prelude Console.

Inductive wpc : Type :=
| WIdle      (** not started yet *)
| WStart     (** line 38 *)
| WNotify    (** line 43 *)
| WSelect    (** line 44, entering the [select] *)
| WBlocked   (** parked in the [select] *)
| WCancel    (** line 46 *)
| WRelease   (** lines 40-41, the deferred [signal.Stop] and [close] *)
| WWgDone    (** line 36, the deferred [wg.Done()] *)
| WExit.

#[export] Instance wpc_eq_dec : EqDecision wpc.
Proof. solve_decision. Defined.

(** What a step does to the state shared with the other goroutines. *)
Inductive waction : Type :=
| WANone
| WARegister   (** [signal.Notify] *)
| WACancel     (** [cancel()] *)
| WARelease    (** [signal.Stop] *)
| WAWgDone.    (** [wg.Done()] *)

#[export] Instance waction_eq_dec : EqDecision waction.
Proof. solve_decision. Defined.

Definition watch_step (ctx_done : bool) (w : wpc) : option (wpc * waction * list event) :=
  match w with
  | WIdle => None
  | WStart => Some (WNotify, WANone, [])
  | WNotify => Some (WSelect, WARegister, [EvNotify])
  | WSelect => Some (if ctx_done then WRelease else WBlocked, WANone, [])
  | WBlocked => if ctx_done then Some (WRelease, WANone, []) else None
  | WCancel => Some (WRelease, WACancel, [EvCancel])
  | WRelease => Some (WWgDone, WARelease, [EvStop; EvCloseChan])
  | WWgDone => Some (WExit, WAWgDone, [])
  | WExit => None
  end.

(** The program points at which the goroutine holds the signal
    registration, and those after its release. *)
Definition registered_at (w : wpc) : bool :=
  match w with WSelect | WBlocked | WCancel | WRelease => true | _ => false end.

Definition released_at (w : wpc) : bool :=
  match w with WWgDone | WExit => true | _ => false end.

(** The program points after the call of [cancel()]. *)
Definition past_cancel (w : wpc) : bool :=
  match w with WRelease | WWgDone | WExit => true | _ => false end.

(** The goroutine is counted in the wait group from its start to its
    [wg.Done()]. *)
Definition watcher_live (w : wpc) : bool :=
  match w with WIdle | WExit => false | _ => true end.

(** An upper bound on the goroutine's remaining steps once [ctx.Done()] is
    ready. *)
Definition watch_left (w : wpc) : nat :=
  match w with
  | WIdle => 6 | WStart => 5 | WNotify => 4 | WSelect | WBlocked | WCancel => 3
  | WRelease => 2 | WWgDone => 1 | WExit => 0
  end.

(** ** Properties of one step *)

(** Every step goes from one program point to a later one, and the
    registration changes only at [signal.Notify] and [signal.Stop]. *)
Lemma watch_step_registration cd w w' a evs :
  watch_step cd w = Some (w', a, evs) ->
  registered_at w' =
    match a with
    | WARegister => true
    | WARelease => false
    | _ => registered_at w
    end.
Proof. destruct w; simpl; try destruct cd; intros Hs; invc Hs; done. Qed.

(** [signal.Stop] and [close(signalStream)] are the events of the release
    step, and of no other step. *)
Lemma watch_step_stop cd w w' a evs :
  watch_step cd w = Some (w', a, evs) ->
  count_ev is_stop evs = (if released_at w' then 1 else 0) - (if released_at w then 1 else 0).
Proof. destruct w; simpl; try destruct cd; intros Hs; invc Hs; done. Qed.

Lemma watch_step_cancel cd w w' a evs :
  watch_step cd w = Some (w', a, evs) ->
  count_ev is_cancel evs = if decide (a = WACancel) then 1 else 0.
Proof. destruct w; simpl; try destruct cd; intros Hs; invc Hs; done. Qed.

(** The action of a step is determined by its program point. *)
Lemma watch_step_action cd w w' a evs :
  watch_step cd w = Some (w', a, evs) ->
  (a = WACancel <-> w = WCancel) /\ (a = WAWgDone <-> w = WWgDone) /\
  (a = WARegister <-> w = WNotify) /\ (a = WARelease <-> w = WRelease).
Proof.
  destruct w; simpl; try destruct cd; intros Hs; invc Hs;
    repeat split; intros; congruence.
Qed.

(** Once [ctx.Done()] is ready, every step of the goroutine brings it
    closer to its exit, and it is never blocked. *)
Lemma watch_step_left w w' a evs :
  watch_step true w = Some (w', a, evs) -> watch_left w' < watch_left w.
Proof. destruct w; simpl; intros Hs; invc Hs; simpl; lia. Qed.

Lemma watch_step_progress w :
  w <> WIdle -> w <> WExit -> exists w' a evs, watch_step true w = Some (w', a, evs).
Proof. destruct w; simpl; intros; try congruence; eauto. Qed.

#[export] Hint Resolve watch_step_left : heb.

(** ** Runs of the goroutine alone *)

(** A run of the watcher: its own steps, whatever [ctx.Done()] reads at
    each, and the reception of a signal while it is parked in the
    [select] (line 45), which the operating system performs. *)
Inductive wrun (w0 : wpc) : list event -> wpc -> Prop :=
| wrun_refl : wrun w0 [] w0
| wrun_step tr w' cd w'' a evs :
    wrun w0 tr w' -> watch_step cd w' = Some (w'', a, evs) -> wrun w0 (tr ++ evs) w''
| wrun_recv tr : wrun w0 tr WBlocked -> wrun w0 tr WCancel.

(** The trace of a run from the start, by the program point reached. *)
Definition trace_ok (w : wpc) (tr : list event) : Prop :=
  match w with
  | WIdle => False
  | WStart | WNotify => tr = []
  | WSelect | WBlocked | WCancel => tr = [EvNotify]
  | WRelease => tr = [EvNotify] \/ tr = [EvNotify; EvCancel]
  | WWgDone | WExit =>
      tr = [EvNotify; EvStop; EvCloseChan] \/ tr = [EvNotify; EvCancel; EvStop; EvCloseChan]
  end.

Lemma wrun_trace_ok w tr : wrun WStart tr w -> trace_ok w tr.
Proof.
  induction 1 as [|tr w' cd w'' a evs Hr IH Hs|tr Hr IH]; simpl; [done| |done].
  destruct w'; simpl in Hs; try destruct cd; invc Hs; simpl in *;
    destruct_or? IH; subst; simpl; auto.
Qed.

(** C8 On both return paths of the goroutine (lines 47 and 49) the
    deferred [signal.Stop] and [close(signalStream)] run exactly once,
    in that order, after [signal.Notify]; [cancel()] runs only on the
    signal path, and before them. *)
Theorem watcher_exit_paths tr :
  wrun WStart tr WExit ->
  tr = [EvNotify; EvStop; EvCloseChan] \/ tr = [EvNotify; EvCancel; EvStop; EvCloseChan].
Proof. apply (wrun_trace_ok WExit). Qed.

(** The signal path: parked in the [select], a signal is received. *)
Lemma run_signal_path : wrun WStart [EvNotify; EvCancel; EvStop; EvCloseChan] WExit.
Proof.
  change [EvNotify; EvCancel; EvStop; EvCloseChan]
    with ((((((([] ++ []) ++ [EvNotify]) ++ []) ++ [EvCancel]) ++ [EvStop; EvCloseChan]) ++ [])).
  apply (wrun_step _ _ WWgDone false _ WAWgDone); [|reflexivity].
  apply (wrun_step _ _ WRelease false _ WARelease); [|reflexivity].
  apply (wrun_step _ _ WCancel false _ WACancel); [|reflexivity].
  apply wrun_recv.
  apply (wrun_step _ _ WSelect false _ WANone); [|reflexivity].
  apply (wrun_step _ _ WNotify false _ WARegister); [|reflexivity].
  apply (wrun_step _ _ WStart false _ WANone); [apply wrun_refl|reflexivity].
Qed.

Lemma watcher_exit_paths_witness :
  wrun WStart [EvNotify; EvCancel; EvStop; EvCloseChan] WExit /\
  ([EvNotify; EvCancel; EvStop; EvCloseChan] = [EvNotify; EvStop; EvCloseChan] \/
   [EvNotify; EvCancel; EvStop; EvCloseChan] = [EvNotify; EvCancel; EvStop; EvCloseChan]).
Proof. split; [exact run_signal_path|]. exact (watcher_exit_paths _ run_signal_path). Defined.
