(* ===== verification/Main.v ===== *)
(** * Main: the whole process (lines 68-71, 73-74, 134-136)

    [main] creates the context (line 69) and the wait group (line 70),
    calls [translateInterruptToCancel] (line 71), which does [wg.Add(1)]
    and starts the watcher, then does [wg.Add(1)] (line 73) and starts the
    poll goroutine (line 74), and finally blocks in [wg.Wait()] (line 136);
    when [main] returns the process exits.

    The system state [sys] holds the shared objects (context, wait group,
    the process's signal registration), the program point of [main], the
    watcher ([Watcher]) and the poll goroutine ([PollLoop]), the process
    status, and the trace.  [sys_step l s] is one step chosen by the
    scheduler label [l]: a step of [main], of the watcher, of the poll
    goroutine (with the outside world's answers to a fetch), or the
    arrival of a termination signal, which the operating system
    - sends on [signalStream] if the watcher is parked in its [select];
    - drops if the channel is registered but nobody is receiving (the
      channel is unbuffered and [signal.Notify] never blocks);
    - handles with the default action, ending the process, if no channel
      is registered (before [signal.Notify] or after [signal.Stop]).
    A [wg.Add]/[wg.Done] that would make the counter negative panics. *)

From S2P Require Import Prelude Sync Interval Json Console Sound Check PollLoop Watcher.

Local Open Scope heb_scope.

Inductive mpc : Type :=
| MAddW    (** line 34, [wg.Add(1)] in [translateInterruptToCancel] *)
| MGoW     (** line 35, [go func() ...] *)
| MAddP    (** line 73 *)
| MGoP     (** line 74 *)
| MWait    (** line 136 *)
| MExit.   (** [main] has returned *)

#[export] Instance mpc_eq_dec : EqDecision mpc.
Proof. solve_decision. Defined.

Inductive status : Type :=
| Running
| Exited     (** [main] returned: exit status 0 *)
| Killed     (** a signal's default action ended the process *)
| Panicked.  (** a negative wait-group counter *)

#[export] Instance status_eq_dec : EqDecision status.
Proof. solve_decision. Defined.

Inductive label : Type :=
| LMain
| LWatch
| LPoll (inp : fetch_input)
| LSignal.

Section Main.
Context {R : Type} `{IntnSource R} `{JsonDecoder}.

Record sys := mk_sys {
  s_status : status;
  s_main : mpc;
  s_ctx : Ctx.ctx;
  s_wg : WaitGroup.wg;
  s_sigreg : bool;
  s_watch : wpc;
  s_pstarted : bool;
  s_poll : poll R;
  s_trace : list event
}.

Definition sys_init (r : R) : sys :=
  mk_sys Running MAddW Ctx.with_cancel WaitGroup.zero false WIdle false (poll_init r) [].

(** [main]'s own steps. *)
Definition main_step (s : sys) : option sys :=
  let 'mk_sys st m c w reg ws ps p tr := s in
  match m with
  | MAddW =>
      match WaitGroup.add 1 w with
      | Some w' => Some (mk_sys st MGoW c w' reg ws ps p tr)
      | None => Some (mk_sys Panicked m c w reg ws ps p tr)
      end
  | MGoW => Some (mk_sys st MAddP c w reg WStart ps p tr)
  | MAddP =>
      match WaitGroup.add 1 w with
      | Some w' => Some (mk_sys st MGoP c w' reg ws ps p tr)
      | None => Some (mk_sys Panicked m c w reg ws ps p tr)
      end
  | MGoP => Some (mk_sys st MWait c w reg ws true p tr)
  | MWait =>
      if WaitGroup.wait_ready w then Some (mk_sys Exited MExit c w reg ws ps p tr)
      else None
  | MExit => None
  end.

(** The wait group after a goroutine's [wg.Done()]. *)
Definition wg_done_sys (w : WaitGroup.wg) (k : WaitGroup.wg -> sys) (panic : sys) : sys :=
  match WaitGroup.done w with Some w' => k w' | None => panic end.

(** A step of the watcher, with its action on the shared state. *)
Definition watch_sys_step (s : sys) : option sys :=
  let 'mk_sys st m c w reg ws ps p tr := s in
  match watch_step (Ctx.done_ready c) ws with
  | None => None
  | Some (ws', a, evs) =>
      let tr' := tr ++ evs in
      Some match a with
           | WANone => mk_sys st m c w reg ws' ps p tr'
           | WARegister => mk_sys st m c w true ws' ps p tr'
           | WACancel => mk_sys st m (Ctx.cancel c) w reg ws' ps p tr'
           | WARelease => mk_sys st m c w false ws' ps p tr'
           | WAWgDone =>
               wg_done_sys w (fun w' => mk_sys st m c w' reg ws' ps p tr')
                 (mk_sys Panicked m c w reg ws ps p tr)
           end
  end.

(** A step of the poll goroutine; its exit runs the deferred closes and
    then the deferred [wg.Done()] (line 75). *)
Definition poll_sys_step (inp : fetch_input) (s : sys) : option sys :=
  let 'mk_sys st m c w reg ws ps p tr := s in
  if ps then
    match poll_step (Ctx.done_ready c) inp p with
    | None => None
    | Some (p', evs) =>
        let tr' := tr ++ evs in
        Some (if decide (p_pc p' = PDone)
              then wg_done_sys w (fun w' => mk_sys st m c w' reg ws ps p' tr')
                     (mk_sys Panicked m c w reg ws ps p tr)
              else mk_sys st m c w reg ws ps p' tr')
    end
  else None.

(** The operating system receives SIGINT or SIGTERM. *)
Definition signal_step (s : sys) : sys :=
  let 'mk_sys st m c w reg ws ps p tr := s in
  if reg then
    if decide (ws = WBlocked) then mk_sys st m c w reg WCancel ps p (tr ++ [EvSignal SigDelivered])
    else mk_sys st m c w reg ws ps p (tr ++ [EvSignal SigDropped])
  else mk_sys Killed m c w reg ws ps p (tr ++ [EvSignal SigKilled]).

Definition sys_step (l : label) (s : sys) : option sys :=
  match s_status s with
  | Running =>
      match l with
      | LMain => main_step s
      | LWatch => watch_sys_step s
      | LPoll inp => poll_sys_step inp s
      | LSignal => Some (signal_step s)
      end
  | _ => None
  end.

Definition sys_rel (s s' : sys) : Prop := exists l, sys_step l s = Some s'.

(** The states a run of the program can reach. *)
Definition reachable (r : R) (s : sys) : Prop := sys_init r ~[sys_rel]~>* s.

(** Runs a schedule; a label whose goroutine cannot move is skipped. *)
Fixpoint sys_run (ls : list label) (s : sys) : sys :=
  match ls with
  | [] => s
  | l :: ls' => sys_run ls' (match sys_step l s with Some s' => s' | None => s end)
  end.
End Main.

Arguments sys R : clear implicits.

(** ** The system invariant *)

Section MainProps.
Context {R : Type} `{IntnLaws R} `{JsonDecoder}.

(** What follows the call of [cancel()] in a trace. *)
Definition after_cancel (tr : list event) : list event :=
  match after is_cancel tr with Some l => l | None => [] end.

(** The goroutines the wait group counts: the watcher from [main]'s
    [wg.Add(1)] of line 34 to its [wg.Done()], the poll goroutine from
    the [wg.Add(1)] of line 73 to its exit. *)
Definition w_acc (s : sys R) : nat :=
  if decide (s_main s = MAddW) then 0 else if decide (s_watch s = WExit) then 0 else 1.

Definition p_acc (s : sys R) : nat :=
  match s_main s with
  | MAddW | MGoW | MAddP => 0
  | _ => if s_pstarted s && bool_decide (p_pc (s_poll s) = PDone) then 0 else 1
  end.

Record sys_inv (s : sys R) : Prop := {
  inv_wg : WaitGroup.counter (s_wg s) = Z.of_nat (w_acc s + p_acc s);
  inv_exit_wg : s_main s = MExit -> WaitGroup.counter (s_wg s) = 0%Z;
  inv_widle : s_watch s = WIdle <-> (s_main s = MAddW \/ s_main s = MGoW);
  inv_pstart : s_pstarted s = false <-> (s_main s <> MWait /\ s_main s <> MExit);
  inv_pinit : s_pstarted s = false -> p_pc (s_poll s) = PStart;
  inv_exited : s_status s = Exited <-> s_main s = MExit;
  inv_nopanic : s_status s <> Panicked;
  inv_reg : s_sigreg s = registered_at (s_watch s);
  inv_stop : count_ev is_stop (s_trace s) = if released_at (s_watch s) then 1%nat else 0%nat;
  inv_closechan :
    count_ev is_closechan (s_trace s) = if released_at (s_watch s) then 1%nat else 0%nat;
  inv_ctx : Ctx.cancelled (s_ctx s) = past_cancel (s_watch s);
  inv_cancel :
    count_ev is_cancel (s_trace s) = if past_cancel (s_watch s) then 1%nat else 0%nat;
  inv_delivered : s_watch s = WCancel \/ past_cancel (s_watch s) = true ->
    (1 <= count_ev is_delivered (s_trace s))%nat;
  inv_poll : poll_inv (s_poll s);
  inv_fetch : Ctx.cancelled (s_ctx s) = true ->
    (count_ev is_get (after_cancel (s_trace s)) + fetch_budget (s_poll s) <= 1)%nat
}.

Lemma sys_init_inv (r : R) : sys_inv (sys_init r).
Proof.
  constructor; unfold w_acc, p_acc; simpl; try done.
  - split; intros; auto.
  - intros [Hw|Hw]; discriminate.
  - apply poll_init_inv.
Qed.

Ltac split_hyps :=
  repeat match goal with
  | H : _ /\ _ |- _ => destruct H
  | H : _ \/ _ |- _ => destruct H
  | H : exists _, _ |- _ => destruct H
  end.

Ltac inv_close :=
  simpl in *; try done; try lia; try congruence;
  try (intros; split_hyps; simpl in *; first [done | congruence | lia]);
  try (split; intros; split_hyps; simpl in *; first [done | congruence | lia | auto]).

Lemma main_step_inv (s s' : sys R) :
  sys_inv s -> s_status s = Running -> main_step s = Some s' -> sys_inv s'.
Proof.
  destruct s as [st m c w reg ws ps p tr].
  intros [Hwg Hxw Hwi Hps Hpi Hex Hnp Hreg Hstop Hcc Hctx Hcan Hdel Hpoll Hf] Hst Hs.
  simpl in *. subst st. unfold w_acc, p_acc in *; simpl in *.
  destruct m; simpl in Hs.
  - assert (ws = WIdle) as -> by (apply Hwi; auto).
    assert (ps = false) as -> by (apply Hps; split; discriminate).
    rewrite WaitGroup.add_ok in Hs by lia. invc Hs.
    constructor; unfold w_acc, p_acc; inv_close.
  - assert (ws = WIdle) as -> by (apply Hwi; auto).
    assert (ps = false) as -> by (apply Hps; split; discriminate).
    invc Hs. constructor; unfold w_acc, p_acc; inv_close.
  - assert (ps = false) as -> by (apply Hps; split; discriminate).
    assert (ws <> WIdle) by (intros Hw; apply Hwi in Hw; destruct Hw; discriminate).
    rewrite WaitGroup.add_ok in Hs by lia. invc Hs.
    constructor; unfold w_acc, p_acc; inv_close.
  - assert (ps = false) as -> by (apply Hps; split; discriminate).
    assert (ws <> WIdle) by (intros Hw; apply Hwi in Hw; destruct Hw; discriminate).
    pose proof (Hpi eq_refl) as Hp0.
    invc Hs. constructor; unfold w_acc, p_acc; simpl; try rewrite Hp0; inv_close.
  - assert (ws <> WIdle) by (intros Hw; apply Hwi in Hw; destruct Hw; discriminate).
    destruct (WaitGroup.wait_ready w) eqn:Hr; [|discriminate]. invc Hs.
    apply WaitGroup.wait_ready_iff in Hr.
    destruct ps; [|exfalso; destruct (proj1 Hps eq_refl) as [Hc _]; by apply Hc].
    constructor; unfold w_acc, p_acc; inv_close.
  - discriminate.
Qed.

Lemma after_cancel_app tr evs :
  count_ev is_cancel tr = 1%nat ->
  after_cancel (tr ++ evs) = after_cancel tr ++ evs.
Proof.
  intros Hc. destruct (after_some_count is_cancel tr) as [l Hl]; [lia|].
  unfold after_cancel. by rewrite after_app, Hl.
Qed.

Lemma after_cancel_first tr :
  count_ev is_cancel tr = 0%nat -> after_cancel (tr ++ [EvCancel]) = [].
Proof.
  intros Hc. unfold after_cancel. rewrite after_app.
  destruct (after is_cancel tr) eqn:Ha; [|done].
  exfalso. revert Ha Hc. clear. induction tr as [|e tr IH]; simpl; [done|].
  rewrite count_ev_cons. destruct (is_cancel e); [lia|]. simpl. exact IH.
Qed.

Ltac count_simpl := simpl; rewrite ?count_ev_app, ?count_ev_cons, ?count_ev_nil; simpl.

Lemma watch_sys_step_inv (s s' : sys R) :
  sys_inv s -> s_status s = Running -> watch_sys_step s = Some s' -> sys_inv s'.
Proof.
  destruct s as [st m c w reg ws ps p tr].
  intros [Hwg Hxw Hwi Hps Hpi Hex Hnp Hreg Hstop Hcc Hctx Hcan Hdel Hpoll Hf] Hst Hs.
  simpl in *. subst st. unfold w_acc, p_acc in *; simpl in *.
  assert (m <> MExit) as Hm3 by (intros ->; pose proof (proj2 Hex eq_refl); discriminate).
  unfold Ctx.done_ready in Hs. rewrite Hctx in Hs.
  destruct ws; simpl in Hs; try discriminate.
  all: assert (m <> MAddW /\ m <> MGoW) as [Hm1 Hm2]
         by (split; intros ->; [pose proof (proj2 Hwi (or_introl eq_refl))
                               |pose proof (proj2 Hwi (or_intror eq_refl))]; discriminate).
  - invc Hs. rewrite app_nil_r. constructor; unfold w_acc, p_acc; inv_close.
  - invc Hs. constructor; unfold w_acc, p_acc; count_simpl; inv_close.
  - invc Hs. rewrite app_nil_r. constructor; unfold w_acc, p_acc; inv_close.
  - invc Hs. pose proof (fetch_budget_le1 p).
    constructor; unfold w_acc, p_acc; count_simpl; inv_close.
    + intros _. rewrite Nat.add_0_r. apply Hdel. by left.
    + intros _. rewrite after_cancel_first by done. simpl. lia.
  - invc Hs. constructor; unfold w_acc, p_acc; count_simpl; inv_close.
    intros Hc. rewrite after_cancel_app by done. count_simpl. specialize (Hf Hc). lia.
  - unfold wg_done_sys in Hs. rewrite WaitGroup.done_ok in Hs.
    + invc Hs. rewrite app_nil_r. constructor; unfold w_acc, p_acc; inv_close.
      all: revert Hwg Hxw; repeat case_decide; simpl; intros; subst; try congruence; lia.
    + rewrite Hwg. repeat case_decide; try congruence; lia.
Qed.

Lemma poll_step_uncounted cd inp (p p' : poll R) evs (f : event -> bool) :
  (forall e, poll_event e = true -> f e = false) ->
  poll_step cd inp p = Some (p', evs) -> count_ev f evs = 0%nat.
Proof. intros Hf Hs. eapply poll_events_uncounted; [exact Hf|]. by eapply poll_step_events. Qed.

Lemma poll_sys_step_inv inp (s s' : sys R) :
  sys_inv s -> s_status s = Running -> poll_sys_step inp s = Some s' -> sys_inv s'.
Proof.
  destruct s as [st m c w reg ws ps p tr].
  intros [Hwg Hxw Hwi Hps Hpi Hex Hnp Hreg Hstop Hcc Hctx Hcan Hdel Hpoll Hf] Hst Hs.
  simpl in *. subst st. unfold w_acc, p_acc in *; simpl in *.
  assert (m <> MExit) as Hm3 by (intros ->; pose proof (proj2 Hex eq_refl); discriminate).
  destruct ps; [|discriminate].
  assert (m = MWait) as ->.
  { destruct (decide (m = MWait)) as [|Hm]; [done|].
    assert (true = false) by (apply Hps; done). discriminate. }
  assert (ws <> WIdle) as Hnw.
  { intros Hw. apply Hwi in Hw. destruct Hw; discriminate. }
  destruct (poll_step (Ctx.done_ready c) inp p) as [[p' evs]|] eqn:Hp; [|discriminate].
  assert (p_pc p <> PDone) as Hnd.
  { intros Hd. destruct p as [pc ? ? ? ? ?]; simpl in Hd; subst pc. discriminate. }
  pose proof (poll_step_inv _ _ _ _ _ Hpoll Hp) as Hpoll'.
  assert (forall (Hc : Ctx.cancelled c = true),
            (count_ev is_get (after_cancel (tr ++ evs)) + fetch_budget p' <= 1)%nat) as Hf'.
  { intros Hc. rewrite after_cancel_app by (rewrite Hcan, <- Hctx, Hc; done).
    rewrite count_ev_app. unfold Ctx.done_ready in Hp. rewrite Hc in Hp.
    pose proof (poll_step_budget _ _ _ _ Hpoll Hp). specialize (Hf Hc). lia. }
  assert (count_ev is_stop evs = 0%nat) as Z1
    by (eapply poll_step_uncounted; [intros [] ?; done|exact Hp]).
  assert (count_ev is_closechan evs = 0%nat) as Z2
    by (eapply poll_step_uncounted; [intros [] ?; done|exact Hp]).
  assert (count_ev is_cancel evs = 0%nat) as Z3
    by (eapply poll_step_uncounted; [intros [] ?; done|exact Hp]).
  assert (count_ev is_delivered evs = 0%nat) as Z4
    by (eapply poll_step_uncounted; [intros [] ?; done|exact Hp]).
  case_decide as Hd'.
  - unfold wg_done_sys in Hs. rewrite WaitGroup.done_ok in Hs.
    + invc Hs. constructor; unfold w_acc, p_acc; count_simpl;
        rewrite ?Z1, ?Z2, ?Z3, ?Z4, ?Nat.add_0_r; inv_close.
      revert Hwg. rewrite Hd'. case_bool_decide; [done|].
      rewrite bool_decide_true by done. case_decide; simpl; intros; lia.
    + rewrite Hwg. simpl. case_bool_decide; [congruence|]. lia.
  - invc Hs. constructor; unfold w_acc, p_acc; count_simpl;
      rewrite ?Z1, ?Z2, ?Z3, ?Z4, ?Nat.add_0_r; inv_close.
    revert Hwg. repeat case_bool_decide; done.
Qed.

Ltac signal_close :=
  match goal with
  | Hdel : _ -> (1 <= count_ev is_delivered _)%nat,
    Hf : Ctx.cancelled _ = true -> _,
    Hcan : count_ev is_cancel _ = _, Hctx : Ctx.cancelled _ = _ |- _ =>
      constructor; unfold w_acc, p_acc; count_simpl; rewrite ?Nat.add_0_r; inv_close;
      try (intros Hd; specialize (Hdel Hd); lia);
      intros Hc; rewrite after_cancel_app by (rewrite Hcan, <- Hctx, Hc; done);
      count_simpl; specialize (Hf Hc); lia
  end.

Lemma signal_step_inv (s : sys R) :
  sys_inv s -> s_status s = Running -> sys_inv (signal_step s).
Proof.
  destruct s as [st m c w reg ws ps p tr].
  intros [Hwg Hxw Hwi Hps Hpi Hex Hnp Hreg Hstop Hcc Hctx Hcan Hdel Hpoll Hf] Hst.
  simpl in *. subst st. unfold w_acc, p_acc in *; simpl in *.
  assert (m <> MExit) as Hm3 by (intros ->; pose proof (proj2 Hex eq_refl); discriminate).
  unfold signal_step.
  destruct reg; [destruct (decide (ws = WBlocked)) as [->|Hb]|].
  - assert (m <> MAddW /\ m <> MGoW) as [Hm1 Hm2]
      by (split; intros ->; [pose proof (proj2 Hwi (or_introl eq_refl))
                            |pose proof (proj2 Hwi (or_intror eq_refl))]; discriminate).
    constructor; unfold w_acc, p_acc; count_simpl; rewrite ?Nat.add_0_r; inv_close.
  - signal_close.
  - signal_close.
Qed.

(** Every step keeps the invariant. *)
Lemma sys_step_inv l (s s' : sys R) :
  sys_inv s -> sys_step l s = Some s' -> sys_inv s'.
Proof.
  intros Hinv Hs. unfold sys_step in Hs.
  destruct (s_status s) eqn:Hst; try discriminate.
  destruct l.
  - by eapply main_step_inv.
  - by eapply watch_sys_step_inv.
  - by eapply poll_sys_step_inv.
  - invc Hs. by apply signal_step_inv.
Qed.

Lemma reachable_inv (r : R) (s : sys R) : reachable r s -> sys_inv s.
Proof.
  intros Hr. eapply (star_invariant sys_rel sys_inv); [|exact Hr|apply sys_init_inv].
  intros a b Ha [l Hl]. by eapply sys_step_inv.
Qed.

(** ** System theorems *)

(** C3 [main] returns (the process exits with status 0) only after both
    goroutines have returned: the watcher has run its [wg.Done()] and the
    poll goroutine has run its deferred closes and [wg.Done()]. *)
Theorem main_returns_last (r : R) (s : sys R) :
  reachable r s -> s_status s = Exited ->
  s_watch s = WExit /\ s_pstarted s = true /\ p_pc (s_poll s) = PDone.
Proof.
  intros Hr Hex. destruct (reachable_inv r s Hr) as [Hwg Hxw _ _ _ Hexi].
  apply Hexi in Hex. specialize (Hxw Hex). rewrite Hxw in Hwg.
  unfold w_acc, p_acc in Hwg. rewrite Hex in Hwg.
  revert Hwg. case_decide as Hm; [discriminate|]. case_decide as Hw; [|lia].
  destruct (s_pstarted s), (bool_decide (p_pc (s_poll s) = PDone)) eqn:Hb; simpl; try lia.
  intros _. apply bool_decide_eq_true in Hb. done.
Qed.

(** C13 The wait group never panics and counts exactly the goroutines
    started with [wg.Add(1)] that have not yet run [wg.Done()]. *)
Theorem wait_group_counts_live (r : R) (s : sys R) :
  reachable r s ->
  s_status s <> Panicked /\
  WaitGroup.counter (s_wg s) = Z.of_nat (w_acc s + p_acc s).
Proof. intros Hr. destruct (reachable_inv r s Hr). done. Qed.

(** C14 The signal registration of [signal.Notify] is held from that call
    to the deferred [signal.Stop], and [signal.Stop] and
    [close(signalStream)] each run exactly once, before the watcher's
    [wg.Done()], on every exit path of the watcher. *)
Theorem signal_release_once (r : R) (s : sys R) :
  reachable r s ->
  s_sigreg s = registered_at (s_watch s) /\
  count_ev is_stop (s_trace s) = (if released_at (s_watch s) then 1 else 0)%nat /\
  count_ev is_closechan (s_trace s) = (if released_at (s_watch s) then 1 else 0)%nat.
Proof. intros Hr. destruct (reachable_inv r s Hr). done. Qed.

(** C15 [cancel()] is called at most once, the context is cancelled
    exactly when it has been called, and only after a signal was
    received: the [ctx.Done()] branch of the watcher's [select] is never
    the one that ends it. *)
Theorem cancel_once_after_signal (r : R) (s : sys R) :
  reachable r s ->
  (count_ev is_cancel (s_trace s) <= 1)%nat /\
  (Ctx.cancelled (s_ctx s) = true <-> count_ev is_cancel (s_trace s) = 1%nat) /\
  (Ctx.cancelled (s_ctx s) = true -> (1 <= count_ev is_delivered (s_trace s))%nat).
Proof.
  intros Hr. destruct (reachable_inv r s Hr) as [_ _ _ _ _ _ _ _ _ _ Hctx Hcan Hdel].
  rewrite Hcan, Hctx. destruct (past_cancel (s_watch s)) eqn:Hp.
  - repeat split; try lia; intros _; apply Hdel; by right.
  - repeat split; try lia; discriminate.
Qed.

(** C11 Once [cancel()] has been called, the poll goroutine starts at
    most one more [http.Get]: cancellation is observed only at the
    [select] of the wait loop, so a fetch already past its last [select]
    (or the undelayed first fetch) still runs. *)
Theorem at_most_one_fetch_after_cancel (r : R) (s : sys R) :
  reachable r s -> (count_ev is_get (after_cancel (s_trace s)) <= 1)%nat.
Proof.
  intros Hr. destruct (reachable_inv r s Hr) as [_ _ _ _ _ _ _ _ _ _ Hctx Hcan _ _ Hf].
  destruct (past_cancel (s_watch s)) eqn:Hp.
  - specialize (Hf Hctx). lia.
  - unfold after_cancel.
    assert (after is_cancel (s_trace s) = None) as ->; [|unfold count_ev; simpl; lia].
    revert Hcan. clear. induction (s_trace s) as [|e tr IH]; simpl; [done|].
    rewrite count_ev_cons. destruct (is_cancel e); [lia|]. exact IH.
Qed.

(** The context only moves from active to cancelled. *)
Lemma sys_step_ctx l (s s' : sys R) :
  sys_step l s = Some s' -> Ctx.ctx_le (s_ctx s) (s_ctx s').
Proof.
  destruct s as [st m c w reg ws ps p tr]. unfold sys_step; simpl.
  destruct st; try discriminate. intros Hs.
  destruct l; simpl in Hs;
    [unfold main_step in Hs|unfold watch_sys_step, wg_done_sys in Hs
    |unfold poll_sys_step, wg_done_sys in Hs|unfold signal_step in Hs];
    repeat case_match; simplify_eq; simpl; first [reflexivity | apply Ctx.cancel_le].
Qed.

End MainProps.

Section Runs.
Context {R : Type} `{IntnSource R} `{JsonDecoder}.

(** Running a schedule from a reachable state reaches a reachable state. *)
Lemma sys_run_reachable (r : R) ls (s : sys R) : reachable r s -> reachable r (sys_run ls s).
Proof.
  revert s. induction ls as [|l ls IH]; intros s Hr; simpl; [done|]. apply IH.
  destruct (sys_step l s) eqn:Hs; [|done]. eapply star_right; [exact Hr|]. by exists l.
Qed.
End Runs.

(** ** Concrete runs *)

(** A whole run: both goroutines start, one fetch finds no slots, SIGINT
    arrives while the watcher is parked in its [select], the poll
    goroutine sees [ctx.Done()] at its next one-second wait, both return
    and [main] exits. *)
Definition sched_shutdown : list label :=
  [LMain; LMain; LMain; LMain;
   LPoll inp_empty; LPoll inp_empty; LPoll inp_empty; LPoll inp_empty; LPoll inp_empty;
   LWatch; LWatch; LWatch; LSignal; LWatch;
   LPoll inp_empty; LPoll inp_empty; LWatch; LWatch; LMain].

Definition run_shutdown : sys tape := sys_run sched_shutdown (sys_init [3; 7]%Z).

(** SIGINT arrives before the first fetch: the undelayed first [http.Get]
    still runs after [cancel()]. *)
Definition sched_early_signal : list label :=
  [LMain; LMain; LMain; LMain; LWatch; LWatch; LWatch; LSignal; LWatch;
   LPoll inp_empty; LPoll inp_empty; LPoll inp_empty; LPoll inp_empty; LPoll inp_empty;
   LPoll inp_empty; LPoll inp_empty; LWatch; LWatch; LMain].

Definition run_early_signal : sys tape := sys_run sched_early_signal (sys_init [3; 7]%Z).

Lemma run_shutdown_reachable : reachable ([3; 7]%Z : tape) run_shutdown.
Proof. apply sys_run_reachable. constructor. Qed.

Lemma run_early_signal_reachable : reachable ([3; 7]%Z : tape) run_early_signal.
Proof. apply sys_run_reachable. constructor. Qed.

Example run_shutdown_trace :
  s_status run_shutdown = Exited /\
  s_trace run_shutdown =
    [EvPrint (LTime "t"); EvGet; EvPrint (LNoSlots body_empty); EvNotify;
     EvSignal SigDelivered; EvCancel; EvClose 0; EvStop; EvCloseChan].
Proof. vm_compute. split; reflexivity. Qed.

Example run_early_signal_fetch :
  s_status run_early_signal = Exited /\
  count_ev is_get (after_cancel (s_trace run_early_signal)) = 1%nat.
Proof. vm_compute. split; reflexivity. Qed.

Lemma main_returns_last_witness :
  reachable ([3; 7]%Z : tape) run_shutdown /\ s_status run_shutdown = Exited /\
  s_watch run_shutdown = WExit /\ s_pstarted run_shutdown = true /\
  p_pc (s_poll run_shutdown) = PDone.
Proof.
  pose proof run_shutdown_reachable as Hr.
  assert (He : s_status run_shutdown = Exited) by (vm_compute; reflexivity).
  split; [exact Hr|]. split; [exact He|]. exact (main_returns_last _ _ Hr He).
Defined.

Lemma wait_group_counts_live_witness :
  reachable ([3; 7]%Z : tape) run_shutdown /\
  s_status run_shutdown <> Panicked /\
  WaitGroup.counter (s_wg run_shutdown) = Z.of_nat (w_acc run_shutdown + p_acc run_shutdown).
Proof.
  pose proof run_shutdown_reachable as Hr.
  split; [exact Hr|]. exact (wait_group_counts_live _ _ Hr).
Defined.

Lemma signal_release_once_witness :
  reachable ([3; 7]%Z : tape) run_shutdown /\
  s_sigreg run_shutdown = registered_at (s_watch run_shutdown) /\
  count_ev is_stop (s_trace run_shutdown) = (if released_at (s_watch run_shutdown) then 1 else 0)%nat /\
  count_ev is_closechan (s_trace run_shutdown) =
    (if released_at (s_watch run_shutdown) then 1 else 0)%nat.
Proof.
  pose proof run_shutdown_reachable as Hr.
  split; [exact Hr|]. exact (signal_release_once _ _ Hr).
Defined.

Lemma cancel_once_after_signal_witness :
  reachable ([3; 7]%Z : tape) run_shutdown /\
  (count_ev is_cancel (s_trace run_shutdown) <= 1)%nat /\
  (Ctx.cancelled (s_ctx run_shutdown) = true <-> count_ev is_cancel (s_trace run_shutdown) = 1%nat) /\
  (Ctx.cancelled (s_ctx run_shutdown) = true ->
     (1 <= count_ev is_delivered (s_trace run_shutdown))%nat).
Proof.
  pose proof run_shutdown_reachable as Hr.
  split; [exact Hr|]. exact (cancel_once_after_signal _ _ Hr).
Defined.

Lemma at_most_one_fetch_after_cancel_witness :
  reachable ([3; 7]%Z : tape) run_early_signal /\
  (count_ev is_get (after_cancel (s_trace run_early_signal)) <= 1)%nat.
Proof.
  pose proof run_early_signal_reachable as Hr.
  split; [exact Hr|]. exact (at_most_one_fetch_after_cancel _ _ Hr).
Defined.

