(* ===== verification/Shutdown.v ===== *)
(** * Shutdown: termination signals and the exit of the process

    Two questions about the whole program of [Main] (lines 33-52, 68-136).
    - What becomes of a SIGINT/SIGTERM, by where the watcher is when it
      arrives: delivered only to a watcher parked in its [select]; dropped
      while the channel is registered but nobody receives (a signal caught
      between [signal.Notify] and the [select] is lost, and the program
      then runs until a second signal); the default action, killing the
      process, before [signal.Notify] and after [signal.Stop].
    - Whether the program exits by itself once [cancel()] has been called:
      every step of the goroutines decreases [sys_measure], whatever the
      scheduler and the answers of the network, and some step is always
      possible until [main] returns.
    A [quiet_rel] step is a step of [main] or of one of the two goroutines,
    no signal arriving. *)

From stdpp Require Import relations.
From S2P Require Import Prelude Sync Interval Json Console Sound Check PollLoop Watcher Main.

Local Open Scope heb_scope.

(** What the operating system does with a termination signal, by the
    watcher's program point. *)
Definition fate_at (w : wpc) : sig_fate :=
  match w with
  | WBlocked => SigDelivered
  | WSelect | WCancel | WRelease => SigDropped
  | _ => SigKilled
  end.

(** [main]'s remaining steps. *)
Definition main_left (m : mpc) : nat :=
  match m with MAddW => 5 | MGoW => 4 | MAddP => 3 | MGoP => 2 | MWait => 1 | MExit => 0 end.

Section Shutdown.
Context {R : Type} `{IntnLaws R} `{JsonDecoder}.

Definition quiet_rel (s s' : sys R) : Prop :=
  exists l, l <> LSignal /\ sys_step l s = Some s'.

Definition sys_measure (s : sys R) : nat :=
  main_left (s_main s) + watch_left (s_watch s) + steps_left (s_poll s).

Lemma quiet_reachable r (s s' : sys R) :
  reachable r s -> star quiet_rel s s' -> reachable r s'.
Proof.
  intros Hr Hq. eapply star_trans; [exact Hr|].
  eapply star_mono; [|exact Hq]. intros a b [l [_ Hl]]. by exists l.
Qed.

Lemma quiet_enabled l (s : sys R) :
  l <> LSignal -> is_Some (sys_step l s) -> exists s', quiet_rel s s'.
Proof. intros Hl [s' Hs]. exists s'. by exists l. Qed.

(** Once the watcher has started, a step of [main] or of the poll
    goroutine leaves the watcher and the context alone. *)
Lemma sys_step_frame l (s s' : sys R) :
  l <> LWatch -> l <> LSignal -> s_main s <> MGoW -> sys_step l s = Some s' ->
  s_watch s' = s_watch s /\ s_ctx s' = s_ctx s.
Proof.
  destruct s as [st m c w reg ws ps p tr]. unfold sys_step; simpl.
  intros Hw Hsg Hm Hs. destruct st; try discriminate.
  destruct l; try congruence; simpl in Hs;
    [unfold main_step in Hs|unfold poll_sys_step, wg_done_sys in Hs];
    repeat case_match; simplify_eq; first [done | congruence].
Qed.

(** Only a signal kills the process. *)
Lemma quiet_not_killed l (s s' : sys R) :
  l <> LSignal -> sys_step l s = Some s' -> s_status s' <> Killed.
Proof.
  destruct s as [st m c w reg ws ps p tr]. unfold sys_step; simpl.
  intros Hsg Hs. destruct st; try discriminate.
  destruct l; try congruence; simpl in Hs;
    [unfold main_step in Hs|unfold watch_sys_step, wg_done_sys in Hs
    |unfold poll_sys_step, wg_done_sys in Hs];
    repeat case_match; simplify_eq; simpl; discriminate.
Qed.

Lemma quiet_step_status l (s s' : sys R) :
  sys_inv s' -> l <> LSignal -> sys_step l s = Some s' ->
  s_status s' = Running \/ s_status s' = Exited.
Proof.
  intros Hi Hl Hs. pose proof (quiet_not_killed _ _ _ Hl Hs).
  destruct Hi as [_ _ _ _ _ _ Hnp]. destruct (s_status s'); auto; congruence.
Qed.

(** ** Where a signal goes *)

(** The watcher waits in its [select] and the context is active. *)
Definition parked (s : sys R) : Prop :=
  sys_inv s /\ s_status s = Running /\ (s_watch s = WSelect \/ s_watch s = WBlocked).

Lemma parked_uncancelled (s : sys R) : parked s -> Ctx.cancelled (s_ctx s) = false.
Proof. intros [Hi [_ Hw]]. destruct Hi as [_ _ _ _ _ _ _ _ _ _ ->]. by destruct Hw as [-> | ->]. Qed.

Lemma inv_watch_started (s : sys R) : sys_inv s -> s_watch s <> WIdle -> s_main s <> MGoW.
Proof. intros [_ _ Hwi] Hw Hm. apply Hw, Hwi. by right. Qed.

(** The watcher counts in the wait group until its [wg.Done()], so
    [main] cannot return while it is parked. *)
Lemma parked_not_exited (s : sys R) :
  sys_inv s -> (s_watch s = WSelect \/ s_watch s = WBlocked) -> s_status s <> Exited.
Proof.
  intros [Hwg Hxw _ _ _ Hexi] Hw Hex. apply Hexi in Hex. specialize (Hxw Hex).
  rewrite Hxw in Hwg. revert Hwg. unfold w_acc. rewrite Hex.
  destruct Hw as [E|E]; rewrite E; repeat case_decide; try congruence; lia.
Qed.

(** Without a signal, a parked watcher stays parked. *)
Lemma quiet_step_parked (s s' : sys R) : parked s -> quiet_rel s s' -> parked s'.
Proof.
  intros Hp [l [Hl Hs]]. pose proof (parked_uncancelled _ Hp) as Hc.
  destruct Hp as [Hi [Hst Hw]]. pose proof (sys_step_inv _ _ _ Hi Hs) as Hi'.
  assert (Hw' : s_watch s' = WSelect \/ s_watch s' = WBlocked).
  { assert (s_main s <> MGoW) as Hm
      by (apply inv_watch_started; [done|]; destruct Hw as [-> | ->]; done).
    destruct l as [| |inp|]; try congruence;
      try (apply sys_step_frame in Hs as [-> _]; [exact Hw|discriminate|exact Hl|exact Hm]).
    destruct s as [st m c w reg ws ps p tr]; simpl in *. subst st.
    unfold sys_step, watch_sys_step, Ctx.done_ready in Hs; simpl in Hs. rewrite Hc in Hs.
    destruct Hw as [-> | ->]; simpl in Hs; simplify_eq; simpl; auto. }
  split; [done|]. split; [|done].
  destruct (quiet_step_status _ _ _ Hi' Hl Hs) as [|Hex]; [done|].
  by destruct (parked_not_exited s' Hi' Hw').
Qed.

(** C10 A signal's fate is fixed by where the watcher is: it is delivered
    only while the watcher is parked in its [select], which it then
    leaves for [cancel()], dropped while the channel is
    registered but nobody receives, and kills the process before
    [signal.Notify] and after [signal.Stop]. *)
Theorem signal_fate (r : R) (s : sys R) :
  reachable r s -> s_status s = Running ->
  s_trace (signal_step s) = s_trace s ++ [EvSignal (fate_at (s_watch s))] /\
  (s_status (signal_step s) = Killed <-> fate_at (s_watch s) = SigKilled) /\
  s_watch (signal_step s) =
    (if decide (fate_at (s_watch s) = SigDelivered) then WCancel else s_watch s).
Proof.
  intros Hr Hst. destruct (reachable_inv r s Hr) as [_ _ _ _ _ _ _ Hreg].
  destruct s as [st m c w reg ws ps p tr]; simpl in *; subst st reg.
  unfold signal_step. destruct ws; simpl; repeat case_decide; simplify_eq; naive_solver.
Qed.

(** C9 A signal that arrives after [signal.Notify] and before the
    watcher is parked in its [select] is dropped, because [signalStream]
    is unbuffered; then, without a second signal, the context is never
    cancelled and the program never exits. *)
Theorem signal_lost_at_select (r : R) (s : sys R) :
  reachable r s -> s_status s = Running -> s_watch s = WSelect ->
  s_trace (signal_step s) = s_trace s ++ [EvSignal SigDropped] /\
  forall s', signal_step s ~[quiet_rel]~>* s' ->
    Ctx.cancelled (s_ctx s') = false /\ s_status s' = Running.
Proof.
  intros Hr Hst Hw. pose proof (reachable_inv r s Hr) as Hi.
  assert (Hreg : s_sigreg s = true) by (destruct Hi as [_ _ _ _ _ _ _ ->]; by rewrite Hw).
  assert (Hsig : signal_step s = mk_sys Running (s_main s) (s_ctx s) (s_wg s) true WSelect
                   (s_pstarted s) (s_poll s) (s_trace s ++ [EvSignal SigDropped])).
  { destruct s as [st m c w reg ws ps p tr]; simpl in *; subst. done. }
  assert (Hp : parked (signal_step s)).
  { split; [by apply signal_step_inv|]. by rewrite Hsig; split; [|left]. }
  split; [by rewrite Hsig|]. intros s' Hq.
  assert (Hp' : parked s')
    by (eapply (star_invariant quiet_rel parked); [apply quiet_step_parked|exact Hq|exact Hp]).
  split; [by apply parked_uncancelled|apply Hp'].
Qed.

(** ** Shutdown after [cancel()] *)

(** Once [ctx.Done()] is ready, every step of the program brings it
    closer to the exit, whatever the scheduler and the network do. *)
Lemma quiet_step_measure (s s' : sys R) :
  sys_inv s -> Ctx.cancelled (s_ctx s) = true -> quiet_rel s s' ->
  (sys_measure s' < sys_measure s)%nat.
Proof.
  intros Hi Hc [l [Hl Hs]]. pose proof (sys_step_inv _ _ _ Hi Hs) as [_ _ _ _ _ _ Hnp].
  destruct Hi as [_ _ Hwi _ _ _ _ _ _ _ Hctx _ _ Hpoll].
  destruct s as [st m c w reg ws ps p tr]; simpl in *.
  assert (m <> MAddW /\ m <> MGoW) as [Hm1 Hm2].
  { split; intros ->; assert (ws = WIdle) as -> by (apply Hwi; auto); simpl in *; congruence. }
  unfold sys_step in Hs; simpl in Hs. destruct st; try discriminate.
  unfold sys_measure; destruct l; try congruence; simpl in Hs.
  - unfold main_step in Hs. destruct m; repeat case_match; simplify_eq; simpl in *; first [lia | congruence | naive_solver].
  - unfold watch_sys_step, wg_done_sys, Ctx.done_ready in Hs. rewrite Hc in Hs.
    destruct (watch_step true ws) as [[[ws' a] evs]|] eqn:E; [|discriminate].
    apply watch_step_left in E.
    destruct a; repeat case_match; simplify_eq; simpl in *; first [lia | congruence].
  - unfold poll_sys_step, wg_done_sys, Ctx.done_ready in Hs. rewrite Hc in Hs.
    destruct ps; [|discriminate].
    destruct (poll_step true inp p) as [[p' evs]|] eqn:E; [|discriminate].
    apply poll_step_steps_left in E; [|exact Hpoll].
    repeat case_match; simplify_eq; simpl in *; first [lia | congruence].
Qed.

(** Until [main] returns, some step of the program is possible. *)
Lemma quiet_progress (s : sys R) :
  sys_inv s -> s_status s = Running -> Ctx.cancelled (s_ctx s) = true ->
  exists s', quiet_rel s s'.
Proof.
  intros Hi Hst Hc. destruct Hi as [Hwg _ Hwi Hps _ Hex _ _ _ _ Hctx].
  destruct s as [st m c w reg ws ps p tr]; simpl in *; subst st.
  assert (Hws : ws <> WIdle) by (intros ->; simpl in *; congruence).
  destruct m;
    try (apply (quiet_enabled LMain); [done|]; unfold sys_step, main_step; simpl;
         try destruct (WaitGroup.add 1 w); by eexists).
  2: { pose proof (proj2 Hex eq_refl). discriminate. }
  assert (ps = true) as ->.
  { destruct ps; [done|]. exfalso. by apply (proj1 (proj1 Hps eq_refl)). }
  destruct (decide (p_pc p = PDone)) as [Hd|Hd].
  - destruct (decide (ws = WExit)) as [->|Hw].
    + apply (quiet_enabled LMain); [done|]. unfold sys_step, main_step; simpl.
      assert (WaitGroup.wait_ready w = true) as ->; [|by eexists].
      apply WaitGroup.wait_ready_iff. rewrite Hwg. unfold w_acc, p_acc; simpl.
      rewrite bool_decide_true by done. by repeat case_decide.
    + apply (quiet_enabled LWatch); [done|]. unfold sys_step, watch_sys_step, Ctx.done_ready; simpl.
      rewrite Hc. destruct (watch_step_progress ws Hws Hw) as (ws' & a & evs & ->). by eexists.
  - apply (quiet_enabled (LPoll inp_down)); [done|]. unfold sys_step, poll_sys_step; simpl.
    destruct (poll_step_progress (Ctx.done_ready c) inp_down p Hd) as (p' & evs & ->). by eexists.
Qed.

(** The context stays cancelled and the invariant holds along a quiet step. *)
Lemma quiet_step_cancelled (s s' : sys R) :
  sys_inv s -> Ctx.cancelled (s_ctx s) = true -> quiet_rel s s' ->
  sys_inv s' /\ Ctx.cancelled (s_ctx s') = true.
Proof.
  intros Hi Hc [l [_ Hs]]. split; [by eapply sys_step_inv|]. by apply (sys_step_ctx l s s').
Qed.

Lemma sys_measure_le (s : sys R) : (sys_measure s <= 18)%nat.
Proof.
  unfold sys_measure, steps_left.
  destruct (s_main s), (s_watch s), (p_pc (s_poll s)); simpl; try case_decide; lia.
Qed.

(** C6 Liveness of the shutdown: once [cancel()] has been called, and
    while no further signal arrives, the program exits with status 0
    whatever the scheduler does and whatever the network answers: some
    step is always possible until [main] returns, and every schedule of
    the program's own steps ends within 18 steps. *)
Theorem shutdown_exits (r : R) (s : sys R) :
  reachable r s -> s_status s = Running -> Ctx.cancelled (s_ctx s) = true ->
  (exists s', s ~[quiet_rel]~>* s' /\ s_status s' = Exited) /\
  (forall n s', nsteps quiet_rel n s s' -> (n <= 18)%nat).
Proof.
  intros Hr Hst Hc. pose proof (reachable_inv r s Hr) as Hi. clear Hr. split.
  - remember (sys_measure s) as k eqn:Hk. revert s Hk Hi Hst Hc.
    induction k as [k IH] using lt_wf_ind. intros s -> Hi Hst Hc.
    destruct (quiet_progress s Hi Hst Hc) as [s' Hq].
    pose proof (quiet_step_measure s s' Hi Hc Hq) as Hlt.
    destruct (quiet_step_cancelled s s' Hi Hc Hq) as [Hi' Hc'].
    destruct Hq as [l [Hl Hs]] eqn:Hq'.
    destruct (quiet_step_status l s s' Hi' Hl Hs) as [Hr'|Hx].
    + destruct (IH _ Hlt s' eq_refl Hi' Hr' Hc') as (s'' & Hss & Hx).
      exists s''. split; [|done]. eapply star_step; [exact Hq|exact Hss].
    + exists s'. split; [by apply star_one|done].
  - intros n s' Hn. enough (n <= sys_measure s)%nat by (pose proof (sys_measure_le s); lia).
    clear Hst. revert Hi Hc. induction Hn as [|n a b c Hab Hbc IH]; intros Hi Hc; [lia|].
    pose proof (quiet_step_measure a b Hi Hc Hab).
    destruct (quiet_step_cancelled a b Hi Hc Hab) as [Hi' Hc']. specialize (IH Hi' Hc'). lia.
Qed.
End Shutdown.

(** ** Concrete runs *)

(** Both goroutines started, the watcher between [signal.Notify] and its
    [select]. *)
Definition run_select : sys tape :=
  sys_run [LMain; LMain; LMain; LMain; LWatch; LWatch] (sys_init [3; 7]%Z).

(** [run_shutdown] just after [cancel()]. *)
Definition run_cancelled : sys tape :=
  sys_run (take 14 sched_shutdown) (sys_init [3; 7]%Z).

Lemma run_select_reachable : reachable ([3; 7]%Z : tape) run_select.
Proof. apply sys_run_reachable. constructor. Qed.

Lemma run_cancelled_reachable : reachable ([3; 7]%Z : tape) run_cancelled.
Proof. apply sys_run_reachable. constructor. Qed.

(** The signal caught at the [select] is dropped; 150 more steps of the
    poll loop (three fetches) and a step of the watcher later, nothing
    has been cancelled and the watcher waits for a second signal. *)
Example lost_signal_run :
  let s := sys_run (LSignal :: replicate 150 (LPoll inp_empty) ++ [LWatch; LMain]) run_select in
  s_status s = Running /\ Ctx.cancelled (s_ctx s) = false /\ s_watch s = WBlocked /\
  count_ev is_get (s_trace s) = 3%nat /\ count_ev is_dropped (s_trace s) = 1%nat.
Proof. vm_compute. repeat split. Qed.

Lemma signal_fate_witness :
  reachable ([3; 7]%Z : tape) run_select /\ s_status run_select = Running /\
  s_trace (signal_step run_select) =
    s_trace run_select ++ [EvSignal (fate_at (s_watch run_select))] /\
  (s_status (signal_step run_select) = Killed <-> fate_at (s_watch run_select) = SigKilled) /\
  s_watch (signal_step run_select) =
    (if decide (fate_at (s_watch run_select) = SigDelivered) then WCancel
     else s_watch run_select).
Proof.
  pose proof run_select_reachable as Hr.
  assert (Hs : s_status run_select = Running) by (vm_compute; reflexivity).
  split; [exact Hr|]. split; [exact Hs|]. exact (signal_fate _ _ Hr Hs).
Defined.

Lemma signal_lost_at_select_witness :
  reachable ([3; 7]%Z : tape) run_select /\ s_status run_select = Running /\
  s_watch run_select = WSelect /\
  s_trace (signal_step run_select) = s_trace run_select ++ [EvSignal SigDropped] /\
  forall s', signal_step run_select ~[quiet_rel]~>* s' ->
    Ctx.cancelled (s_ctx s') = false /\ s_status s' = Running.
Proof.
  pose proof run_select_reachable as Hr.
  assert (Hs : s_status run_select = Running) by (vm_compute; reflexivity).
  assert (Hw : s_watch run_select = WSelect) by (vm_compute; reflexivity).
  split; [exact Hr|]. split; [exact Hs|]. split; [exact Hw|].
  exact (signal_lost_at_select _ _ Hr Hs Hw).
Defined.

Lemma shutdown_exits_witness :
  reachable ([3; 7]%Z : tape) run_cancelled /\ s_status run_cancelled = Running /\
  Ctx.cancelled (s_ctx run_cancelled) = true /\
  (exists s', run_cancelled ~[quiet_rel]~>* s' /\ s_status s' = Exited) /\
  (forall n s', nsteps quiet_rel n run_cancelled s' -> (n <= 18)%nat).
Proof.
  pose proof run_cancelled_reachable as Hr.
  assert (Hs : s_status run_cancelled = Running) by (vm_compute; reflexivity).
  assert (Hc : Ctx.cancelled (s_ctx run_cancelled) = true) by (vm_compute; reflexivity).
  split; [exact Hr|]. split; [exact Hs|]. split; [exact Hc|].
  exact (shutdown_exits _ _ Hr Hs Hc).
Defined.
